(** * firenotes-admin: the note/folder repositories and the role rule

    A shallow embedding of [src/app/notes/useNotes.ts] (the [useNotes] and
    [useFolders] hooks) and of the role rules of [database.rules.json].

    Conventions of the embedding.
    - The realtime database is a typed store: [notes], [folders] and [users]
      are finite maps from keys to records.  An empty list stands for an
      absent array child (the database never stores an empty array, so
      [Array.isArray] of such a child is false).
    - Every call of [set], [update] or [remove] is one atomic write: a list
      of path assignments, applied to the store and appended to a log.
    - [Date.now()] and the key produced by [push] are inputs of an operation.
    - JavaScript strings are Rocq strings of code units below 256.
    - Backing-store calls do not fail; toasts and the hooks' React state are
      left out except where an operation reads them. *)

From Stdlib Require Import ZArith String Ascii List Lia.
From stdpp Require Import base decidable option list strings gmap fin_maps.

Local Open Scope string_scope.
Local Open Scope Z_scope.
Local Open Scope list_scope.

(** ** JavaScript values and strings *)

(** The values a [folderId] variable ranges over: [undefined], [null] or a
    string. *)
Inductive jsval :=
| JUndefined
| JNull
| JStr (s : string).

#[global] Instance jsval_eq_dec : EqDecision jsval.
Proof. solve_decision. Defined.

(** [a === b] on such values. *)
Definition strict_eq (a b : jsval) : bool := bool_decide (a = b).

(** [if (s)] on a string: the empty string is falsy. *)
Definition str_truthy (s : string) : bool :=
  match s with
  | EmptyString => false
  | String _ _ => true
  end.

(** [if (v)] on a [jsval]. *)
Definition truthy (v : jsval) : bool :=
  match v with
  | JStr s => str_truthy s
  | _ => false
  end.

(** The key a truthy value denotes inside a path template
    (`folders/${v}`); the code only builds such a path under [if (v)]. *)
Definition as_key (v : jsval) : option string :=
  match v with
  | JStr s => if str_truthy s then Some s else None
  | _ => None
  end.

(** A stored optional child read back through [snapshot.val().folderId]. *)
Definition read_field (o : option string) : jsval :=
  match o with
  | Some s => JStr s
  | None => JUndefined
  end.

(** The child left by writing [v] at a path: [null] removes it. *)
Definition stored (v : jsval) : option string :=
  match v with
  | JStr s => Some s
  | _ => None
  end.

(** [a || b] on strings. *)
Definition str_or (a b : string) : string := if str_truthy a then a else b.

(** [v || null]. *)
Definition or_null (v : jsval) : jsval := if truthy v then v else JNull.

(** [v || undefined]. *)
Definition or_undefined (v : jsval) : jsval := if truthy v then v else JUndefined.

(** White space and line terminators of [String.prototype.trim] among the
    code units below 256: TAB, LF, VT, FF, CR, SP and NBSP. *)
Definition isWhiteSpace (c : ascii) : bool :=
  let n := N_of_ascii c in
  ((9 <=? n) && (n <=? 13) || (n =? 32) || (n =? 160))%N.

Fixpoint trimStart (s : string) : string :=
  match s with
  | EmptyString => EmptyString
  | String c r => if isWhiteSpace c then trimStart r else s
  end.

Definition trimEnd (s : string) : string :=
  String.rev (trimStart (String.rev s)).

Definition trim (s : string) : string := trimEnd (trimStart s).

(** [toLowerCase] on one code unit: A..Z and the Latin-1 capitals. *)
Definition lowerChar (c : ascii) : ascii :=
  let n := N_of_ascii c in
  if ((65 <=? n) && (n <=? 90)
      || (192 <=? n) && (n <=? 222) && negb (n =? 215))%N
  then ascii_of_N (n + 32) else c.

Fixpoint toLowerCase (s : string) : string :=
  match s with
  | EmptyString => EmptyString
  | String c r => String (lowerChar c) (toLowerCase r)
  end.

(** [s.length]. *)
Definition jsLength (s : string) : Z := Z.of_nat (String.length s).

(** [arr.includes(x)] and [arr.filter(id => id !== x)] on lists of keys. *)
Definition includes (l : list string) (x : string) : bool :=
  bool_decide (x ∈ l).

Definition without (x : string) (l : list string) : list string :=
  filter (λ y, y ≠ x) l.

(** [l.length > 0]. *)
Definition nonEmpty {A} (l : list A) : bool :=
  match l with
  | [] => false
  | _ :: _ => true
  end.

(** [Array.isArray] of a stored list child. *)
Definition isArray (l : list string) : bool :=
  match l with
  | [] => false
  | _ :: _ => true
  end.

(** ** Records of the store *)

Module Note.
Record t := mk {
  title : string;
  content : string;
  createdAt : Z;
  updatedAt : Z;
  userId : string;
  contentLength : Z;
  folderId : option string
}.

Definition set_title (v : string) (n : t) : t :=
  mk v (content n) (createdAt n) (updatedAt n) (userId n)
     (contentLength n) (folderId n).
Definition set_content (v : string) (n : t) : t :=
  mk (title n) v (createdAt n) (updatedAt n) (userId n)
     (contentLength n) (folderId n).
Definition set_updatedAt (v : Z) (n : t) : t :=
  mk (title n) (content n) (createdAt n) v (userId n)
     (contentLength n) (folderId n).
Definition set_contentLength (v : Z) (n : t) : t :=
  mk (title n) (content n) (createdAt n) (updatedAt n) (userId n)
     v (folderId n).
Definition set_folderId (v : option string) (n : t) : t :=
  mk (title n) (content n) (createdAt n) (updatedAt n) (userId n)
     (contentLength n) v.
End Note.

Module Folder.
Record t := mk {
  id : string;
  name : string;
  userId : string;
  createdAt : Z;
  noteIds : list string;
  updatedAt : Z
}.

Definition set_noteIds (v : list string) (f : t) : t :=
  mk (id f) (name f) (userId f) (createdAt f) v (updatedAt f).
Definition set_updatedAt (v : Z) (f : t) : t :=
  mk (id f) (name f) (userId f) (createdAt f) (noteIds f) v.
End Folder.

Module User.
(** [profile] tells whether the record has children other than [role]
    and [folders] (email, displayName, ...). *)
Record t := mk {
  role : option string;
  folders : list string;
  profile : bool
}.

Definition set_folders (v : list string) (u : t) : t :=
  mk (role u) v (profile u).

(** A node without children does not exist. *)
Definition is_empty (u : t) : bool :=
  match role u, folders u, profile u with
  | None, [], false => true
  | _, _, _ => false
  end.

Definition blank : t := mk None [] false.
End User.

Record db := mkdb {
  notes : gmap string Note.t;
  folders : gmap string Folder.t;
  users : gmap string User.t
}.

(** ** Writes *)

(** One path assignment of a write. *)
Inductive assign :=
| NoteSet (k : string) (n : Note.t)        (* notes/k := record *)
| NoteNull (k : string)                    (* notes/k := null *)
| NoteTitle (k : string) (v : string)
| NoteContent (k : string) (v : string)
| NoteContentLength (k : string) (v : Z)
| NoteUpdatedAt (k : string) (v : Z)
| NoteFolderId (k : string) (v : jsval)
| FolderSet (k : string) (f : Folder.t)
| FolderNull (k : string)
| FolderNoteIds (k : string) (v : list string)
| FolderUpdatedAt (k : string) (v : Z)
| UserFolders (uid : string) (v : list string).

(** One call of [set], [update] or [remove]. *)
Definition write := list assign.

Definition write_user_folders (uid : string) (v : list string)
    (m : gmap string User.t) : gmap string User.t :=
  let u := User.set_folders v (default User.blank (m !! uid)) in
  if User.is_empty u then delete uid m else <[uid := u]> m.

(** A child assignment below a record that does not exist is not issued by
    any operation here; the typed store leaves it without effect. *)
Definition apply_assign (a : assign) (s : db) : db :=
  match a with
  | NoteSet k n => mkdb (<[k := n]> (notes s)) (folders s) (users s)
  | NoteNull k => mkdb (delete k (notes s)) (folders s) (users s)
  | NoteTitle k v =>
      mkdb (alter (Note.set_title v) k (notes s)) (folders s) (users s)
  | NoteContent k v =>
      mkdb (alter (Note.set_content v) k (notes s)) (folders s) (users s)
  | NoteContentLength k v =>
      mkdb (alter (Note.set_contentLength v) k (notes s)) (folders s) (users s)
  | NoteUpdatedAt k v =>
      mkdb (alter (Note.set_updatedAt v) k (notes s)) (folders s) (users s)
  | NoteFolderId k v =>
      mkdb (alter (Note.set_folderId (stored v)) k (notes s))
           (folders s) (users s)
  | FolderSet k f => mkdb (notes s) (<[k := f]> (folders s)) (users s)
  | FolderNull k => mkdb (notes s) (delete k (folders s)) (users s)
  | FolderNoteIds k v =>
      mkdb (notes s) (alter (Folder.set_noteIds v) k (folders s)) (users s)
  | FolderUpdatedAt k v =>
      mkdb (notes s) (alter (Folder.set_updatedAt v) k (folders s)) (users s)
  | UserFolders uid v =>
      mkdb (notes s) (folders s) (write_user_folders uid v (users s))
  end.

Definition apply_write (w : write) (s : db) : db :=
  foldl (λ acc a, apply_assign a acc) s w.

(** ** The monad of an operation: store, write log, thrown errors *)

Record world := mkworld {
  store : db;
  log : list write
}.

Inductive result (A : Type) :=
| Ok (a : A)
| Err (msg : string).
Arguments Ok {A} a.
Arguments Err {A} msg.

Definition M (A : Type) : Type := world → result A * world.

Definition ret {A} (a : A) : M A := λ w, (Ok a, w).

Definition throw {A} (msg : string) : M A := λ w, (Err msg, w).

Definition bind {A B} (m : M A) (k : A → M B) : M B :=
  λ w, match m w with
       | (Ok a, w') => k a w'
       | (Err e, w') => (Err e, w')
       end.

Notation "'let*' x ':=' m 'in' k" := (bind m (λ x, k))
  (at level 10, x name, m at level 100, k at level 200).
Notation "m ';;' k" := (bind m (λ _, k))
  (at level 100, k at level 200, right associativity).

(** [get(ref(db, path))]: the snapshot is [None] when the node does not
    exist. *)
Definition get_note (k : string) : M (option Note.t) :=
  λ w, (Ok (notes (store w) !! k), w).

Definition get_folder (k : string) : M (option Folder.t) :=
  λ w, (Ok (folders (store w) !! k), w).

Definition get_folders : M (list (string * Folder.t)) :=
  λ w, (Ok (map_to_list (folders (store w))), w).

Definition get_user (uid : string) : M (option User.t) :=
  λ w, (Ok (users (store w) !! uid), w).

(** [set], [update] and [remove]: one atomic write. *)
Definition issue (wr : write) : M unit :=
  λ w, (Ok tt, mkworld (apply_write wr (store w)) (log w ++ [wr])).

(** ** The note repository ([useNotes]) *)

(** The partial update passed to [updateNote]; [None] is an absent key.
    [folderId] is [Some v] when the key is present ('folderId' in
    newValues), with value [v]. *)
Record NoteUpdates := mkupd {
  u_title : option string;
  u_content : option string;
  u_updatedAt : option Z;
  u_contentLength : option Z;
  u_folderId : option jsval
}.

(** [createNote]: [key] is [push(notesRef).key], [now] is [Date.now()]. *)
Definition createNote (user : option string) (title content : string)
    (folderId : jsval) (key : string) (now : Z) : M string :=
  match user with
  | None => throw "User not authenticated"
  | Some uid =>
    if negb (truthy folderId) then throw "No folder selected" else
    let noteId := key in
    if negb (str_truthy noteId) then throw "Failed to generate note ID" else
    let newNote :=
      Note.mk (str_or (trim title) "Untitled Note")
              (trim content)
              now
              now
              uid
              (jsLength (trim content))
              (stored (or_undefined folderId)) in
    issue [NoteSet noteId newNote] ;;
    match as_key folderId with
    | Some fid =>
        let* folderSnapshot := get_folder fid in
        match folderSnapshot with
        | Some folderData =>
            if bool_decide (Folder.userId folderData = uid) then
              let noteIds := Folder.noteIds folderData in
              if negb (includes noteIds noteId) then
                issue [FolderNoteIds fid (noteIds ++ [noteId]);
                       FolderUpdatedAt fid now] ;;
                ret noteId
              else ret noteId
            else ret noteId
        | None => ret noteId
        end
    | None => ret noteId
    end
  end.

(** The payload of [update(noteRef, noteUpdatePayload)]: the given fields
    without [folderId], [updatedAt] overridden by [now], and
    [contentLength] overridden when [content] is given. *)
Definition noteUpdatePayload (k : string) (newValues : NoteUpdates)
    (now : Z) : write :=
  match u_title newValues with Some v => [NoteTitle k v] | None => [] end ++
  match u_content newValues with Some v => [NoteContent k v] | None => [] end ++
  [NoteUpdatedAt k now] ++
  match u_content newValues with
  | Some c => [NoteContentLength k (jsLength c)]
  | None =>
      match u_contentLength newValues with
      | Some v => [NoteContentLength k v]
      | None => []
      end
  end.

Definition updateNote (user : option string) (noteId : string)
    (newValues : NoteUpdates) (now : Z) : M unit :=
  match user with
  | None => throw "User not authenticated"
  | Some uid =>
    let* noteSnapshot := get_note noteId in
    match noteSnapshot with
    | None => throw "Note not found or unauthorized"
    | Some currentNote =>
      if negb (bool_decide (Note.userId currentNote = uid))
      then throw "Note not found or unauthorized" else
      match u_folderId newValues with
      | Some folderId =>
          let previousFolderId := read_field (Note.folderId currentNote) in
          if negb (strict_eq folderId previousFolderId) then
            (* remove from the old folder if it exists *)
            let* updates1 :=
              match as_key previousFolderId with
              | Some prev =>
                  let* oldFolderSnapshot := get_folder prev in
                  match oldFolderSnapshot with
                  | Some oldFolderData =>
                      if isArray (Folder.noteIds oldFolderData) then
                        ret [FolderNoteIds prev
                               (without noteId (Folder.noteIds oldFolderData));
                             FolderUpdatedAt prev now]
                      else ret []
                  | None => ret []
                  end
              | None => ret []
              end in
            (* add to the new folder if provided *)
            let* updates2 :=
              match as_key folderId with
              | Some new =>
                  let* newFolderSnapshot := get_folder new in
                  match newFolderSnapshot with
                  | Some newFolderData =>
                      if bool_decide (Folder.userId newFolderData = uid) then
                        let currentNoteIds := Folder.noteIds newFolderData in
                        if negb (includes currentNoteIds noteId) then
                          ret [FolderNoteIds new (currentNoteIds ++ [noteId]);
                               FolderUpdatedAt new now]
                        else ret []
                      else throw
                        "Selected folder does not exist or you do not have permission"
                  | None => throw
                      "Selected folder does not exist or you do not have permission"
                  end
              | None => ret []
              end in
            issue (updates1 ++ updates2 ++
                   [NoteFolderId noteId (or_null folderId);
                    NoteUpdatedAt noteId now])
          else
            issue (noteUpdatePayload noteId newValues now)
      | None =>
          issue (noteUpdatePayload noteId newValues now)
      end
    end
  end.

(** The entries [deleteNote] adds for one folder of the [forEach]. *)
Definition cleanup_folder (uid noteId : string) (now : Z)
    (entry : string * Folder.t) : write :=
  let '(key, folderData) := entry in
  if bool_decide (Folder.userId folderData = uid)
     && isArray (Folder.noteIds folderData) then
    let updatedNoteIds := without noteId (Folder.noteIds folderData) in
    if negb (bool_decide (length updatedNoteIds
                          = length (Folder.noteIds folderData))) then
      [FolderNoteIds key updatedNoteIds; FolderUpdatedAt key now]
    else []
  else [].

Definition deleteNote (user : option string) (noteId : string) (now : Z)
    : M unit :=
  match user with
  | None => throw "User not authenticated"
  | Some uid =>
    let* noteSnapshot := get_note noteId in
    match noteSnapshot with
    | None => throw "Note not found or unauthorized"
    | Some noteData =>
      if negb (bool_decide (Note.userId noteData = uid))
      then throw "Note not found or unauthorized" else
      let* foldersSnapshot := get_folders in
      let updates :=
        flat_map (cleanup_folder uid noteId now) foldersSnapshot in
      issue (updates ++ [NoteNull noteId])
    end
  end.

Definition moveNoteToFolder (user : option string) (noteId : string)
    (targetFolderId : jsval) (now : Z) : M unit :=
  match user with
  | None => throw "User not authenticated"
  | Some uid =>
    let* noteSnapshot := get_note noteId in
    match noteSnapshot with
    | None => throw "Note not found or unauthorized"
    | Some noteData =>
      if negb (bool_decide (Note.userId noteData = uid))
      then throw "Note not found or unauthorized" else
      let currentFolderId := read_field (Note.folderId noteData) in
      (* moving to a specific folder *)
      let* updates1 :=
        match as_key targetFolderId with
        | Some target =>
            let* targetFolderSnapshot := get_folder target in
            match targetFolderSnapshot with
            | Some targetFolderData =>
                if bool_decide (Folder.userId targetFolderData = uid) then
                  let targetNoteIds := Folder.noteIds targetFolderData in
                  if negb (includes targetNoteIds noteId) then
                    ret [FolderNoteIds target (targetNoteIds ++ [noteId]);
                         FolderUpdatedAt target now]
                  else ret []
                else throw "Target folder not found or unauthorized"
            | None => throw "Target folder not found or unauthorized"
            end
        | None => ret []
        end in
      (* remove from the current folder if it differs from the target *)
      let* updates2 :=
        match as_key currentFolderId with
        | Some current =>
            if negb (strict_eq currentFolderId targetFolderId) then
              let* currentFolderSnapshot := get_folder current in
              match currentFolderSnapshot with
              | Some currentFolderData =>
                  if isArray (Folder.noteIds currentFolderData) then
                    ret [FolderNoteIds current
                           (without noteId (Folder.noteIds currentFolderData));
                         FolderUpdatedAt current now]
                  else ret []
              | None => ret []
              end
            else ret []
        | None => ret []
        end in
      (* only update folderId if it's actually changing *)
      let updates3 :=
        if negb (strict_eq currentFolderId targetFolderId) then
          [NoteFolderId noteId targetFolderId; NoteUpdatedAt noteId now]
        else [] in
      let updates := updates1 ++ updates2 ++ updates3 in
      match updates with
      | [] => ret tt
      | _ :: _ => issue updates
      end
    end
  end.

(** ** The folder repository ([useFolders]) *)

(** [Promise.all(ids.map(id => get(ref(db, `folders/${id}`))))]. *)
Fixpoint get_folder_all (ids : list string) : M (list (option Folder.t)) :=
  match ids with
  | [] => ret []
  | k :: rest =>
      let* snapshot := get_folder k in
      let* snapshots := get_folder_all rest in
      ret (snapshot :: snapshots)
  end.

(** [ids.map(id => remove(ref(db, `notes/${id}`)))]: one write per note. *)
Fixpoint remove_note_all (ids : list string) : M unit :=
  match ids with
  | [] => ret tt
  | k :: rest => issue [NoteNull k] ;; remove_note_all rest
  end.

(** The folder ids listed below [users/uid/folders]; nothing when the user
    node or the child does not exist. *)
Definition folder_index (s : db) (uid : string) : list string :=
  match users s !! uid with
  | Some u => User.folders u
  | None => []
  end.

Definition same_name (a b : string) : bool :=
  bool_decide (toLowerCase a = toLowerCase b).

(** [createFolder]: [cached] is the hook's [folders] state, [key] is
    [push(ref(db, 'folders')).key], [now] is [Date.now()]. *)
Definition createFolder (user : option string) (cached : list Folder.t)
    (name : string) (key : string) (now : Z) : M string :=
  match user with
  | None => throw "User not authenticated"
  | Some uid =>
    let folderName := trim name in
    if negb (str_truthy folderName) then throw "Folder name cannot be empty" else
    (* duplicate names in the local state first *)
    match List.find (λ folder, same_name (Folder.name folder) folderName) cached with
    | Some existingFolder => throw "A folder with this name already exists"
    | None =>
      let* userSnapshot := get_user uid in
      (match userSnapshot with
       | Some userData =>
           let userFolderIds := User.folders userData in
           let foldersToCheck :=
             List.filter
               (λ k, negb (existsb (λ f, bool_decide (Folder.id f = k)) cached))
               userFolderIds in
           if nonEmpty foldersToCheck then
             let* folderSnapshots := get_folder_all foldersToCheck in
             let duplicateFolder :=
               existsb (λ snapshot,
                          match snapshot with
                          | Some f => same_name (Folder.name f) folderName
                          | None => false
                          end) folderSnapshots in
             if duplicateFolder
             then throw "A folder with this name already exists"
             else ret tt
           else ret tt
       | None => ret tt
       end) ;;
      let newFolderId := key in
      if negb (str_truthy newFolderId)
      then throw "Failed to create folder: Could not generate folder ID" else
      let* snapshot := get_user uid in
      let existingFolderIds :=
        match snapshot with
        | Some u => User.folders u
        | None => []
        end in
      if includes existingFolderIds newFolderId
      then throw "Folder with this ID already exists" else
      let newFolder := Folder.mk newFolderId folderName uid now [] now in
      let updatedFolderIds := existingFolderIds ++ [newFolderId] in
      issue [FolderSet newFolderId newFolder;
             UserFolders uid updatedFolderIds] ;;
      ret newFolderId
    end
  end.

Definition deleteFolder (user : option string) (id : string) : M unit :=
  match user with
  | None => throw "User not authenticated"
  | Some uid =>
    let* folderSnapshot := get_folder id in
    match folderSnapshot with
    | None => throw "Folder not found"
    | Some folderData =>
      if negb (bool_decide (Folder.userId folderData = uid))
      then throw "Unauthorized to delete this folder" else
      (* delete all notes in the folder *)
      (if nonEmpty (Folder.noteIds folderData)
       then remove_note_all (Folder.noteIds folderData)
       else ret tt) ;;
      let* userSnapshot := get_user uid in
      match userSnapshot with
      | None => throw "User data not found"
      | Some userData =>
          let userFolderIds := without id (User.folders userData) in
          issue [UserFolders uid userFolderIds; FolderNull id]
      end
    end
  end.

(** ** Scheduling of the reconciliation pass ([updateFoldersList])

    The refs of the hook that decide whether an invocation runs.  An
    invocation that passes the guard sets [isProcessing] and suspends at
    its first [await]; it is in flight until its [finally] block has run.
    [inFlight] and [completed] record, for the statements below, the id sets
    of the invocations in that window and of those that left it. *)
Module Reconcile.

Record hook := mk {
  isProcessing : bool;
  pendingUpdates : list string;
  inFlight : list (list string);
  completed : list (list string)
}.

Definition initial : hook := mk false [] [] [].

(** Entry of [updateFoldersList(folderIds)], up to its first [await]. *)
Definition enter (user : option string) (folderIds : list string)
    (h : hook) : hook :=
  if isProcessing h || negb (bool_decide (is_Some user)) then h
  else mk true (pendingUpdates h) (inFlight h ++ [folderIds]) (completed h).

(** Removal of the first occurrence of an id set. *)
Fixpoint leave (folderIds : list string) (l : list (list string))
    : list (list string) :=
  match l with
  | [] => []
  | x :: r => if bool_decide (x = folderIds) then r else x :: leave folderIds r
  end.

(** The [finally] block of the invocation over [folderIds]. *)
Definition settle (user : option string) (folderIds : list string)
    (h : hook) : hook :=
  let h1 := mk false (pendingUpdates h) (leave folderIds (inFlight h))
               (completed h ++ [folderIds]) in
  match pendingUpdates h1 with
  | [] => h1
  | _ :: _ =>
      let updates := pendingUpdates h1 in
      enter user updates (mk (isProcessing h1) [] (inFlight h1) (completed h1))
  end.

(** What [cleanup] does to these refs; a pass in flight keeps running. *)
Definition cleanup (h : hook) : hook :=
  mk false [] (inFlight h) (completed h).

(** The events of the hook: a request for a pass, the end of a pass in
    flight, the teardown of the effect. *)
Inductive event :=
| Request (folderIds : list string)
| Finish (folderIds : list string)
| Cleanup.

Definition step (user : option string) (h : hook) (e : event) : hook :=
  match e with
  | Request folderIds => enter user folderIds h
  | Finish folderIds =>
      if bool_decide (folderIds ∈ inFlight h) then settle user folderIds h
      else h
  | Cleanup => cleanup h
  end.

Definition run (user : option string) (es : list event) (h : hook) : hook :=
  foldl (step user) h es.

End Reconcile.

(** ** The access rules of [users/$uid] ([database.rules.json]) *)
Module Rules.

(** [root.child('users').child(u).child('role').val()]. *)
Definition role_val (root : db) (u : string) : jsval :=
  match users root !! u with
  | Some r =>
      match User.role r with
      | Some v => JStr v
      | None => JNull
      end
  | None => JNull
  end.

(** [rules/.write]. *)
Definition root_write : bool := false.

(** [rules/users/$uid/.write]. *)
Definition users_uid_write (auth : option string) (root : db)
    (uid : string) : bool :=
  match auth with
  | None => false
  | Some auth_uid =>
      bool_decide (auth_uid = uid)
      || strict_eq (role_val root auth_uid) (JStr "root_admin")
  end.

(** [rules/users/$uid/role/.write]. *)
Definition users_uid_role_write (auth : option string) (root : db)
    (newData : jsval) : bool :=
  match auth with
  | None => false
  | Some auth_uid =>
      strict_eq (role_val root auth_uid) (JStr "root_admin")
      && (strict_eq newData (JStr "user") || strict_eq newData (JStr "admin"))
  end.

(** [rules/notes/$noteId/title/.validate]:
    [newData.isString() && newData.val().length > 0]. *)
Definition notes_title_validate (newData : jsval) : bool :=
  match newData with
  | JStr v => 0 <? jsLength v
  | _ => false
  end.

(** Whether the database accepts a write of [newData] at
    [users/uid/role]: a [.write] rule that grants at a node grants for
    the whole subtree, so the rules on the path are or-ed. *)
Definition role_write_allowed (auth : option string) (root : db)
    (uid : string) (newData : jsval) : bool :=
  root_write
  || users_uid_write auth root uid
  || users_uid_role_write auth root newData.

End Rules.

(** ** Running an operation *)

Definition run_op {A} (m : M A) (s : db) : result A * world :=
  m (mkworld s []).

Definition outcome {A} (r : result A * world) : result A := fst r.
Definition final {A} (r : result A * world) : db := store (snd r).
Definition writes {A} (r : result A * world) : list write := log (snd r).

(** ** Consistency of the store *)

(** Keys of the database are non-empty path segments. *)
Definition keys_nonempty (s : db) : Prop := folders s !! "" = None.

(** A note's [folderId] names the folder of a record that lists the note. *)
Definition notes_filed (s : db) : Prop :=
  ∀ k n f, notes s !! k = Some n → Note.folderId n = Some f →
    ∃ F, folders s !! f = Some F ∧ k ∈ Folder.noteIds F.

(** Every id in a folder's [noteIds] names a note filed in that folder. *)
Definition folders_backed (s : db) : Prop :=
  ∀ f F k, folders s !! f = Some F → k ∈ Folder.noteIds F →
    ∃ n, notes s !! k = Some n ∧ Note.folderId n = Some f.

Definition membership_symmetric (s : db) : Prop :=
  notes_filed s ∧ folders_backed s.

(** A note is filed in a folder of its own owner. *)
Definition same_owner (s : db) : Prop :=
  ∀ k n f F, notes s !! k = Some n → Note.folderId n = Some f →
    folders s !! f = Some F → Folder.userId F = Note.userId n.

Definition consistent (s : db) : Prop :=
  keys_nonempty s ∧ same_owner s ∧ membership_symmetric s.

(** ** Relations between the store before and after an operation *)

(** How a folder record at one key changes: it stays absent, or keeps its
    owner while its [noteIds] become [g] of the old record. *)
Definition folder_rel (g : Folder.t → list string)
    (o o' : option Folder.t) : Prop :=
  match o, o' with
  | None, None => True
  | Some F, Some F' =>
      Folder.userId F' = Folder.userId F
      ∧ Folder.noteIds F' = g F
  | _, _ => False
  end.

(** The list of a folder [y] after note [k], filed under [oldf], has been
    filed under [newf]. *)
Definition refile_ids (k : string) (oldf newf : option string) (y : string)
    (F : Folder.t) : list string :=
  let ids := Folder.noteIds F in
  if decide (newf = Some y) then
    if decide (k ∈ ids) then ids else ids ++ [k]
  else if decide (oldf = Some y ∧ y ≠ "") then without k ids
  else ids.

(** [s'] is [s] with note [k] of user [uid] filed under [newf]: the note
    carries [newf], the folder it leaves no longer lists it, the folder it
    enters lists it, and nothing else changes owner or membership. *)
Definition refiled (s s' : db) (k uid : string) (newf : option string)
    : Prop :=
  (∃ n n', notes s !! k = Some n ∧ notes s' !! k = Some n'
           ∧ Note.userId n = uid ∧ Note.userId n' = uid
           ∧ Note.folderId n' = newf
           ∧ ∀ y, folder_rel (refile_ids k (Note.folderId n) newf y)
                    (folders s !! y) (folders s' !! y))
  ∧ (∀ x, x ≠ k → notes s' !! x = notes s !! x)
  ∧ (∀ t, newf = Some t →
       ∃ F, folders s !! t = Some F ∧ Folder.userId F = uid).

(** The list of a folder after [deleteNote] of note [k] by [uid]. *)
Definition cleaned_ids (uid k : string) (F : Folder.t) : list string :=
  if decide (Folder.userId F = uid) then without k (Folder.noteIds F)
  else Folder.noteIds F.

(** [s'] differs from [s] only in fields that are neither owners nor
    memberships. *)
Definition same_shape (s s' : db) : Prop :=
  (∀ x, (λ n, (Note.folderId n, Note.userId n)) <$> notes s' !! x
        = (λ n, (Note.folderId n, Note.userId n)) <$> notes s !! x)
  ∧ folders s' = folders s.

(** ** Sequences of repository operations *)

Inductive op :=
| CreateNote (user : option string) (title content : string)
    (folderId : jsval) (key : string) (now : Z)
| UpdateNote (user : option string) (noteId : string)
    (newValues : NoteUpdates) (now : Z)
| DeleteNote (user : option string) (noteId : string) (now : Z)
| MoveNoteToFolder (user : option string) (noteId : string)
    (targetFolderId : jsval) (now : Z)
| DeleteFolder (user : option string) (id : string).

(** The store an operation leaves, whether it returns or throws. *)
Definition exec (o : op) (s : db) : db :=
  match o with
  | CreateNote user title content folderId key now =>
      final (run_op (createNote user title content folderId key now) s)
  | UpdateNote user noteId newValues now =>
      final (run_op (updateNote user noteId newValues now) s)
  | DeleteNote user noteId now =>
      final (run_op (deleteNote user noteId now) s)
  | MoveNoteToFolder user noteId targetFolderId now =>
      final (run_op (moveNoteToFolder user noteId targetFolderId now) s)
  | DeleteFolder user id =>
      final (run_op (deleteFolder user id) s)
  end.

Definition run_ops (os : list op) (s : db) : db :=
  foldl (λ acc o, exec o acc) s os.

(** The side conditions under which an operation keeps the store
    consistent: [push] yields an unused key and [createNote] files into an
    existing folder of the caller; a move target is [null] or a key;
    [deleteFolder] is called by a user whose [users] node exists. *)
Definition admissible (o : op) (s : db) : Prop :=
  match o with
  | CreateNote user _ _ folderId key _ =>
      notes s !! key = None ∧
      ∀ uid fid, user = Some uid → as_key folderId = Some fid →
        ∃ F, folders s !! fid = Some F ∧ Folder.userId F = uid
  | MoveNoteToFolder _ _ targetFolderId _ => targetFolderId ≠ JStr ""
  | DeleteFolder user _ =>
      ∀ uid, user = Some uid → is_Some (users s !! uid)
  | UpdateNote _ _ _ _ | DeleteNote _ _ _ => True
  end.

Fixpoint admissible_run (os : list op) (s : db) : Prop :=
  match os with
  | [] => True
  | o :: rest => admissible o s ∧ admissible_run rest (exec o s)
  end.

(** ** The cached folder list read by [createFolder] *)

(** A cached folder carries the name of the record stored under its id. *)
Definition cache_coherent (cached : list Folder.t) (s : db) : Prop :=
  ∀ c F, c ∈ cached → folders s !! Folder.id c = Some F →
    Folder.name c = Folder.name F.

(** ** Example stores *)

Definition userA : User.t := User.mk (Some "user") ["F1"; "F2"] true.

Definition folderF1 : Folder.t := Folder.mk "F1" "Personal" "A" 10 ["N1"] 20.
Definition folderF2 : Folder.t := Folder.mk "F2" "Work" "A" 11 [] 11.

Definition noteN1 : Note.t := Note.mk "Todo" "buy milk" 20 20 "A" 8 (Some "F1").

(** User A with folders F1 (holding note N1) and F2. *)
Definition store1 : db :=
  mkdb {[ "N1" := noteN1 ]}
       (<["F1" := folderF1]> {[ "F2" := folderF2 ]})
       {[ "A" := userA ]}.

(** A root administrator R and a plain user B. *)
Definition store3 : db :=
  mkdb ∅ ∅
       (<["R" := User.mk (Some "root_admin") [] true]>
          {[ "B" := User.mk (Some "user") [] true ]}).

Definition empty_store : db := mkdb ∅ ∅ ∅.

(** Two plain users A and B without folders. *)
Definition store4 : db :=
  mkdb ∅ ∅
       (<["A" := User.mk (Some "user") [] true]>
          {[ "B" := User.mk (Some "user") [] true ]}).

(** ** Statements the code does not satisfy as written *)

(** The update scenario with the length 18. *)
Definition update_scenario_as_stated : Prop :=
  ∀ (s : db) (uid N1 : string) (n : Note.t) (now : Z),
    notes s !! N1 = Some n → Note.userId n = uid →
    let r := run_op (updateNote (Some uid) N1
                       (mkupd None (Some "buy milk and eggs") None None None)
                       now) s in
    outcome r = Ok tt →
    ∃ n', notes (final r) !! N1 = Some n'
          ∧ Note.contentLength n' = 18
          ∧ Note.updatedAt n < Note.updatedAt n'
          ∧ Note.folderId n' = Note.folderId n.

(** * Further parts of the hooks and of their callers

    The note list and the folder list the hooks keep, [updateFolder], the
    administration of users of [src/context/AuthContext.tsx] and the
    folder names and note list of [src/app/notes/page.tsx].

    [updateFolder], [updateUserRole] and [deleteUser] write children that
    the writes above do not name (a folder's name, a user's role, the
    removal of a user); they are written with the store passed along: the
    result of the call and the store it leaves.  As above, the keys put
    into a path are keys of the node, and calls of the backing store
    do not fail. *)

From Stdlib Require Import Sorted.

(** ** The note list of [useNotes] *)

(** [NoteWithId]: a note together with the key it is stored under. *)
Definition NoteWithId : Type := string * Note.t.

(** [a || b] on numbers: 0 is the falsy number. *)
Definition num_or (a b : Z) : Z := if a =? 0 then b else a.

(** [Array.prototype.sort] with a comparator.  The sort is stable, so for
    a comparator that orders consistently its result is that of any stable
    sort; this one inserts each element before the first later element it
    does not follow. *)
Fixpoint sort_insert {A} (cmp : A → A → Z) (x : A) (l : list A) : list A :=
  match l with
  | [] => [x]
  | y :: r => if cmp x y <=? 0 then x :: y :: r else y :: sort_insert cmp x r
  end.

Definition js_sort {A} (cmp : A → A → Z) (l : list A) : list A :=
  foldr (sort_insert cmp) [] l.

(** The comparator of [sortNotes]. *)
Definition compareNotes (sortMethod : string) (a b : NoteWithId) : Z :=
  if bool_decide (sortMethod = "newest") then
    Note.updatedAt b.2 - Note.updatedAt a.2
  else if bool_decide (sortMethod = "oldest") then
    Note.updatedAt a.2 - Note.updatedAt b.2
  else if bool_decide (sortMethod = "longest") then
    num_or (Note.contentLength b.2) 0 - num_or (Note.contentLength a.2) 0
  else if bool_decide (sortMethod = "shortest") then
    num_or (Note.contentLength a.2) 0 - num_or (Note.contentLength b.2) 0
  else
    Note.updatedAt b.2 - Note.updatedAt a.2.

Definition sortNotes (notesToSort : list NoteWithId) (sortMethod : string)
    : list NoteWithId :=
  js_sort (compareNotes sortMethod) notesToSort.

(** The [forEach] of [handleNotesUpdate]: the children of the snapshot
    that belong to the user, each key once; [seenIds] is the set of keys
    met so far. *)
Fixpoint collectNotes (uid : string) (seenIds : list string)
    (children : list NoteWithId) : list NoteWithId :=
  match children with
  | [] => []
  | (noteId, noteData) :: rest =>
      if bool_decide (Note.userId noteData = uid)
         && negb (includes seenIds noteId)
      then (noteId, noteData) :: collectNotes uid (noteId :: seenIds) rest
      else collectNotes uid seenIds rest
  end.

(** The list [handleNotesUpdate] passes to [setNotes]: [children] are the
    children of the notes snapshot, [folderSnapshot] is the snapshot the
    folder listener receives when a folder is selected. *)
Definition handleNotesUpdate (uid : string) (folderId : jsval)
    (children : list NoteWithId) (folderSnapshot : option Folder.t)
    : list NoteWithId :=
  match children with
  | [] => []
  | _ :: _ =>
    let notesData := collectNotes uid [] children in
    if truthy folderId && negb (strict_eq folderId (JStr "all")) then
      match folderSnapshot with
      | None => []
      | Some folderData =>
          if negb (bool_decide (Folder.userId folderData = uid)) then []
          else if isArray (Folder.noteIds folderData) then
            filter (λ note : NoteWithId,
                      includes (Folder.noteIds folderData) note.1 = true)
                   notesData
          else []
      end
    else notesData
  end.

(** The snapshot of
    [query(ref(db, 'notes'), orderByChild('userId'), equalTo(uid))]. *)
Definition notes_query (s : db) (uid : string) : list NoteWithId :=
  filter (λ child : NoteWithId, Note.userId child.2 = uid)
         (map_to_list (notes s)).

(** The list the subscription of [useNotes(folderId)] derives from a
    store. *)
Definition notes_view (s : db) (uid : string) (folderId : jsval)
    : list NoteWithId :=
  handleNotesUpdate uid folderId (notes_query s uid)
    match as_key folderId with
    | Some f => folders s !! f
    | None => None
    end.

(** ** The folder list of [useFolders] *)

(** The comparator of the folder list: newest [updatedAt] first. *)
Definition compareFolders (a b : Folder.t) : Z :=
  num_or (Folder.updatedAt b) 0 - num_or (Folder.updatedAt a) 0.

(** The update a folder listener applies to the cached list when it
    receives the record [folderData] of [folderId]; [now] is
    [Date.now()]. *)
Definition onFolderSnapshot (user : option string) (folderId : string)
    (folderData : Folder.t) (now : Z) (prev : list Folder.t)
    : list Folder.t :=
  let rebuilt :=
    let updated :=
      filter (λ f, Folder.id f ≠ folderId) prev in
    let newFolder :=
      Folder.mk folderId
                (str_or (Folder.name folderData) "Unnamed Folder")
                (str_or (Folder.userId folderData)
                        (str_or (default "" user) ""))
                (num_or (Folder.createdAt folderData) now)
                (Folder.noteIds folderData)
                (num_or (Folder.updatedAt folderData) now) in
    js_sort compareFolders (updated ++ [newFolder]) in
  match List.find (λ f, bool_decide (Folder.id f = folderId)) prev with
  | Some existing =>
      if bool_decide (Folder.updatedAt existing = Folder.updatedAt folderData)
      then prev
      else rebuilt
  | None => rebuilt
  end.

(** [Map.prototype.set] on the entries of a map keyed by folder id, in
    insertion order: an existing key keeps its place. *)
Fixpoint map_set (f : Folder.t) (entries : list Folder.t) : list Folder.t :=
  match entries with
  | [] => [f]
  | g :: rest =>
      if bool_decide (Folder.id g = Folder.id f) then f :: rest
      else g :: map_set f rest
  end.

(** The merge of [updateFoldersList] into the cached list:
    [new Map(prevFolders.map(f => [f.id, f]))], one [set] per updated
    folder, then the values sorted. *)
Definition mergeUpdatedFolders (prevFolders updatedFolders : list Folder.t)
    : list Folder.t :=
  let folderMap := foldl (λ m f, map_set f m) [] prevFolders in
  let folderMap := foldl (λ m f, map_set f m) folderMap updatedFolders in
  js_sort compareFolders folderMap.

(** [Promise.all(ids.map(id => get(ref(db, `notes/${id}`))))]: each
    snapshot with its key. *)
Fixpoint get_note_all (ids : list string)
    : M (list (string * option Note.t)) :=
  match ids with
  | [] => ret []
  | k :: rest =>
      let* snapshot := get_note k in
      let* snapshots := get_note_all rest in
      ret ((k, snapshot) :: snapshots)
  end.

(** The keys of the snapshots that exist, belong to the user and name the
    folder as their [folderId]. *)
Definition validNoteIds (uid folderId : string)
    (noteSnapshots : list (string * option Note.t)) : list string :=
  let validNotes :=
    List.filter
      (λ snapshot : string * option Note.t,
         match snapshot.2 with
         | Some note =>
             bool_decide (Note.userId note = uid)
             && strict_eq (read_field (Note.folderId note)) (JStr folderId)
         | None => false
         end)
      noteSnapshots in
  List.filter str_truthy (map fst validNotes).

(** The loop of [updateFoldersList] over [folderIds], after the guard:
    it returns [updatedFolders]. *)
Fixpoint reconcileFolders (uid : string) (now : Z) (folderIds : list string)
    : M (list Folder.t) :=
  match folderIds with
  | [] => ret []
  | folderId :: rest =>
      let* folderSnapshot := get_folder folderId in
      match folderSnapshot with
      | None => reconcileFolders uid now rest
      | Some folderData =>
          let noteIds := Folder.noteIds folderData in
          let* noteSnapshots := get_note_all noteIds in
          let updatedNoteIds := validNoteIds uid folderId noteSnapshots in
          (if negb (bool_decide (length updatedNoteIds = length noteIds))
           then issue [FolderNoteIds folderId updatedNoteIds;
                       FolderUpdatedAt folderId now]
           else ret tt) ;;
          let* updatedFolders := reconcileFolders uid now rest in
          ret (Folder.mk folderId
                         (str_or (Folder.name folderData) "Unnamed Folder")
                         (str_or (Folder.userId folderData) uid)
                         (num_or (Folder.createdAt folderData) now)
                         updatedNoteIds
                         (num_or (Folder.updatedAt folderData) now)
               :: updatedFolders)
      end
  end.

(** What [updateFoldersList] keeps of the list [ids] of folder [folderId]
    on store [s]. *)
Definition keptNoteIds (s : db) (uid folderId : string) (ids : list string)
    : list string :=
  validNoteIds uid folderId (map (λ k, (k, notes s !! k)) ids).

(** ** [updateFolder] *)

(** The partial update passed to [updateFolder]; [None] is an absent
    key. *)
Record FolderUpdates := mkfupd {
  fu_name : option string;
  fu_noteIds : option (list string);
  fu_updatedAt : option Z
}.

(** [if (updates.name)]: the name is given and not empty. *)
Definition given_name (updates : FolderUpdates) : option string :=
  match fu_name updates with
  | Some name => if str_truthy name then Some name else None
  | None => None
  end.

(** The record after [update(folderRef, updateData)] with
    [updateData = {...updates, ...(updates.name ? {name: updates.name.trim()} : {}), updatedAt: now}]. *)
Definition apply_updateData (updates : FolderUpdates) (now : Z)
    (f : Folder.t) : Folder.t :=
  Folder.mk (Folder.id f)
            match fu_name updates with
            | Some name => if str_truthy name then trim name else name
            | None => Folder.name f
            end
            (Folder.userId f)
            (Folder.createdAt f)
            (default (Folder.noteIds f) (fu_noteIds updates))
            now.

(** [updateFolder], written with the store passed along: the result and
    the store the call leaves. *)
Definition updateFolder (user : option string) (folderId : string)
    (updates : FolderUpdates) (now : Z) (s : db) : result unit * db :=
  match user with
  | None => (Err "User not authenticated", s)
  | Some uid =>
    match folders s !! folderId with
    | None => (Err "Folder not found", s)
    | Some folderData =>
      if negb (bool_decide (Folder.userId folderData = uid))
      then (Err "Unauthorized to update this folder", s) else
      let isDuplicate :=
        match given_name updates with
        | Some name =>
            match users s !! uid with
            | Some userData =>
                let userFolderIds := User.folders userData in
                let otherFolders :=
                  map (λ id, folders s !! id)
                      (List.filter (λ id, negb (bool_decide (id = folderId)))
                                   userFolderIds) in
                let newName := toLowerCase (trim name) in
                existsb (λ folder,
                           match folder with
                           | Some f =>
                               bool_decide
                                 (toLowerCase (Folder.name f) = newName)
                           | None => false
                           end) otherFolders
            | None => false
            end
        | None => false
        end in
      if isDuplicate
      then (Err "A folder with this name already exists", s) else
      (Ok tt,
       mkdb (notes s)
            (alter (apply_updateData updates now) folderId (folders s))
            (users s))
    end
  end.


(** ** The administration of users ([AuthContext]) *)

(** The signed-in user of the context: the uid and the role read from
    the user's record at sign-in. *)
Module AppUser.
Record t := mk {
  uid : string;
  role : option string
}.
End AppUser.

(** [update(userRef, { role })]. *)
Definition set_role (role : string) (u : User.t) : User.t :=
  User.mk (Some role) (User.folders u) (User.profile u).

(** [updateUserRole], with the store passed along. *)
Definition updateUserRole (user : option AppUser.t) (userId role : string)
    (s : db) : result unit * db :=
  match user with
  | None => (Err "Not authenticated", s)
  | Some u =>
    if bool_decide (AppUser.uid u = userId)
    then (Err "Cannot change your own role", s) else
    match users s !! userId with
    | None => (Err "User not found", s)
    | Some userData =>
      (* only root_admin can change roles to/from root_admin *)
      if negb (strict_eq (read_field (AppUser.role u)) (JStr "root_admin"))
         && (bool_decide (role = "root_admin")
             || strict_eq (read_field (User.role userData))
                          (JStr "root_admin"))
      then (Err "Insufficient permissions", s) else
      (Ok tt,
       mkdb (notes s) (folders s)
            (<[userId := set_role role userData]> (users s)))
    end
  end.

(** One folder of the deleted user's index: the notes it lists are
    removed, then the folder record. *)
Definition deleteUserFolder (s : db) (folderId : string) : db :=
  match folders s !! folderId with
  | Some folderData =>
      apply_assign (FolderNull folderId)
        (apply_write (map NoteNull (Folder.noteIds folderData)) s)
  | None => s
  end.

(** [deleteUser] up to the removal of the user's record; the request to
    the authentication service that follows does not change the result.
    [currentUser] is the uid of [auth.currentUser]. *)
Definition deleteUser (currentUser : option string) (userId : string)
    (s : db) : result unit * db :=
  match currentUser with
  | None => (Err "Not authenticated", s)
  | Some currentUid =>
    match users s !! currentUid with
    | None => (Err "Your account data was not found", s)
    | Some currentUserData =>
      let currentUserRole := read_field (User.role currentUserData) in
      if negb (strict_eq currentUserRole (JStr "root_admin"))
      then (Err "Only root admin can delete users", s) else
      match users s !! userId with
      | None => (Err "User not found", s)
      | Some userData =>
        if strict_eq (read_field (User.role userData)) (JStr "root_admin")
        then (Err "Cannot delete another root admin", s) else
        if bool_decide (userId = currentUid)
        then (Err "Cannot delete your own account", s) else
        (* the folders of the index and the notes they list *)
        let folderIds := User.folders userData in
        let s1 := foldl deleteUserFolder s folderIds in
        (* the remaining notes of the user *)
        let s2 := apply_write (map NoteNull (notes_query s1 userId).*1) s1 in
        (* the user's record *)
        (Ok tt, mkdb (notes s2) (folders s2) (delete userId (users s2)))
      end
    end
  end.

(** The index of a user lists the folders the user owns, and no other
    stored folder. *)
Definition index_exact (s : db) (uid : string) : Prop :=
  ∀ f F, folders s !! f = Some F →
    (f ∈ folder_index s uid ↔ Folder.userId F = uid).

(** An administrator M, a root administrator R and a plain user B. *)
Definition store5 : db :=
  mkdb ∅ ∅
       (<["M" := User.mk (Some "admin") [] true]>
          (<["R" := User.mk (Some "root_admin") [] true]>
             {[ "B" := User.mk (Some "user") [] true ]})).

(** [store1] with a root administrator R. *)
Definition store6 : db :=
  mkdb (notes store1) (folders store1)
       (<["R" := User.mk (Some "root_admin") [] true]> (users store1)).

(** ** The folder name in the URL ([page.tsx]) *)

Definition isDash (c : ascii) : bool := (N_of_ascii c =? 45)%N.

(** The class [[a-z0-9-]]. *)
Definition isUrlChar (c : ascii) : bool :=
  let n := N_of_ascii c in
  ((97 <=? n) && (n <=? 122) || (48 <=? n) && (n <=? 57) || (n =? 45))%N.

Definition startsWithDash (s : string) : bool :=
  match s with
  | String c _ => isDash c
  | EmptyString => false
  end.

Definition isEmpty (s : string) : bool :=
  match s with
  | EmptyString => true
  | String _ _ => false
  end.

(** [.replace(/[^a-z0-9-]/g, '-')]. *)
Fixpoint replaceOthers (s : string) : string :=
  match s with
  | EmptyString => EmptyString
  | String c r => String (if isUrlChar c then c else "-"%char) (replaceOthers r)
  end.

(** [.replace(/-+/g, '-')]: every run of dashes becomes one dash. *)
Fixpoint collapseDashes (s : string) : string :=
  match s with
  | EmptyString => EmptyString
  | String c r =>
      let r' := collapseDashes r in
      if isDash c && startsWithDash r' then r' else String c r'
  end.

(** [.replace(/^-+|-+$/g, '')]: the dashes at the start and the dashes at
    the end are dropped. *)
Fixpoint dropDashesStart (s : string) : string :=
  match s with
  | EmptyString => EmptyString
  | String c r => if isDash c then dropDashesStart r else s
  end.

Fixpoint dropDashesEnd (s : string) : string :=
  match s with
  | EmptyString => EmptyString
  | String c r =>
      let r' := dropDashesEnd r in
      if isDash c && isEmpty r' then EmptyString else String c r'
  end.

Definition folderUrlName (name : string) : string :=
  dropDashesEnd
    (dropDashesStart (collapseDashes (replaceOthers (toLowerCase name)))).

(** Shapes of a string: all code units in a class, a dash at the end, two
    dashes in a row. *)
Fixpoint allChars (p : ascii → bool) (s : string) : bool :=
  match s with
  | EmptyString => true
  | String c r => p c && allChars p r
  end.

Fixpoint endsWithDash (s : string) : bool :=
  match s with
  | EmptyString => false
  | String c r => if isEmpty r then isDash c else endsWithDash r
  end.

Fixpoint hasDoubleDash (s : string) : bool :=
  match s with
  | EmptyString => false
  | String c r => isDash c && startsWithDash r || hasDoubleDash r
  end.


(** ** The list of notes the page shows ([filteredNotes]) *)

(** [s.includes(query)] on strings. *)
Fixpoint strIncludes (s query : string) : bool :=
  String.prefix query s
  || match s with
     | String _ r => strIncludes r query
     | EmptyString => false
     end.

(** The comparator of the [switch (sortBy)], if [sortBy] names one. *)
Definition comparePage (sortBy : string)
    : option (NoteWithId → NoteWithId → Z) :=
  if bool_decide (sortBy = "newest") then
    Some (λ a b, num_or (Note.updatedAt b.2) 0 - num_or (Note.updatedAt a.2) 0)
  else if bool_decide (sortBy = "oldest") then
    Some (λ a b, num_or (Note.updatedAt a.2) 0 - num_or (Note.updatedAt b.2) 0)
  else if bool_decide (sortBy = "longest") then
    Some (λ a b, num_or (Note.contentLength b.2) 0
                 - num_or (Note.contentLength a.2) 0)
  else if bool_decide (sortBy = "shortest") then
    Some (λ a b, num_or (Note.contentLength a.2) 0
                 - num_or (Note.contentLength b.2) 0)
  else None.

(** The test of the search filter. *)
Definition matchesQuery (query : string) (note : NoteWithId) : bool :=
  strIncludes (toLowerCase (Note.title note.2)) query
  || strIncludes (toLowerCase (Note.content note.2)) query.

Definition filteredNotes (notes : list NoteWithId)
    (currentFolder : option Folder.t) (searchQuery sortBy : string)
    : list NoteWithId :=
  let result := notes in
  (* filter by folder if a folder is selected *)
  let result :=
    match currentFolder with
    | Some folder =>
        filter (λ note : NoteWithId,
                  read_field (Note.folderId note.2) = JStr (Folder.id folder))
               result
    | None => result
    end in
  (* filter by search query if provided *)
  let result :=
    if str_truthy searchQuery then
      let query := toLowerCase searchQuery in
      filter (λ note, matchesQuery query note = true) result
    else result in
  match comparePage sortBy with
  | Some cmp => js_sort cmp result
  | None => result
  end.

(** What the page shows of a store: the list of the hook, which is
    [sortNotes(notes, 'updatedAt')] of the subscription's list for the
    id of the current folder, passed through [filteredNotes]. *)
Definition page_notes (s : db) (uid : string) (currentFolder : option Folder.t)
    (searchQuery sortBy : string) : list NoteWithId :=
  let folderId :=
    match currentFolder with
    | Some folder => or_null (JStr (Folder.id folder))
    | None => JNull
    end in
  filteredNotes (sortNotes (notes_view s uid folderId) "updatedAt")
                currentFolder searchQuery sortBy.

(** * Proofs *)

Ltac mstep :=
  unfold run_op, outcome, final, writes, bind, issue, get_note,
    get_folder, get_folders, get_user, ret, throw in *; simpl in *.

(** ** JavaScript helpers *)

Lemma str_truthy_length (v : string) : str_truthy v = true ↔ 0 < jsLength v.
Proof.
  unfold jsLength. destruct v; simpl; split; intros H; try done; lia.
Qed.

Lemma str_or_truthy (a b : string) :
  str_truthy b = true → str_truthy (str_or a b) = true.
Proof. intros Hb. unfold str_or. by destruct (str_truthy a) eqn:Ha. Qed.

Lemma as_key_Some (v : jsval) (k : string) :
  as_key v = Some k ↔ v = JStr k ∧ str_truthy k = true.
Proof.
  destruct v as [| |x]; simpl; try (split; [done | by intros [? _]]).
  destruct (str_truthy x) eqn:Hx; split.
  - intros [= ->]. done.
  - intros [[= ->] _]. done.
  - done.
  - intros [[= ->] Hk]. congruence.
Qed.

Lemma as_key_truthy (v : jsval) : truthy v = true ↔ is_Some (as_key v).
Proof.
  destruct v as [| |x]; simpl.
  - split; [done | by intros [? ?]].
  - split; [done | by intros [? ?]].
  - destruct (str_truthy x); split; intros H; done.
Qed.

(** ** createNote *)

(** C10. For every title, [createNote] by a signed-in user into a selected
    folder returns the new key and stores under it a note whose title is
    the trimmed input, or the literal 'Untitled Note' when that is empty,
    whose content is the trimmed input content and whose [contentLength] is
    the length of the stored content; the stored title passes the rule
    that validates titles. *)
Theorem createNote_stored_fields
    (uid title content fid key : string) (now : Z) (s : db) :
  str_truthy fid = true →
  str_truthy key = true →
  let r := run_op (createNote (Some uid) title content (JStr fid) key now) s in
  outcome r = Ok key
  ∧ ∃ n, notes (final r) !! key = Some n
         ∧ Note.title n
           = (if str_truthy (trim title) then trim title else "Untitled Note")
         ∧ Note.content n = trim content
         ∧ Note.contentLength n = jsLength (Note.content n)
         ∧ Rules.notes_title_validate (JStr (Note.title n)) = true.
Proof.
  intros Hf Hk r. subst r. unfold createNote. simpl. rewrite Hf, Hk. simpl.
  mstep.
  assert (Hv : (0 <? jsLength (str_or (trim title) "Untitled Note")) = true).
  { apply Z.ltb_lt, str_truthy_length, str_or_truthy. done. }
  destruct (folders s !! fid) as [F|] eqn:HF; simpl.
  - destruct (bool_decide (Folder.userId F = uid)); simpl.
    + destruct (includes (Folder.noteIds F) key); simpl;
        (split; [done |]); eexists; (split; [apply lookup_insert_eq |]);
        simpl; done.
    + split; [done |]. eexists. split; [apply lookup_insert_eq |]. done.
  - split; [done |]. eexists. split; [apply lookup_insert_eq |]. done.
Qed.

Lemma createNote_stored_fields_witness :
  let r := run_op (createNote (Some "A") "   " "  buy milk " (JStr "F1") "N2" 30)
             store1 in
  outcome r = Ok "N2"
  ∧ ∃ n, notes (final r) !! "N2" = Some n
         ∧ Note.title n
           = (if str_truthy (trim "   ") then trim "   " else "Untitled Note")
         ∧ Note.content n = trim "  buy milk "
         ∧ Note.contentLength n = jsLength (Note.content n)
         ∧ Rules.notes_title_validate (JStr (Note.title n)) = true.
Proof.
  apply (createNote_stored_fields "A" "   " "  buy milk " "F1" "N2" 30 store1);
    reflexivity.
Defined.

(** ** updateNote *)


(** ** updateNote and deleteNote *)

(** C7. A note that does not exist or belongs to another user:
    [updateNote] and [deleteNote] throw 'Note not found or unauthorized',
    leave the store as it was and issue no write. *)
Theorem foreign_note_rejected
    (uid noteId : string) (newValues : NoteUpdates) (now : Z) (s : db) :
  (∀ n, notes s !! noteId = Some n → Note.userId n ≠ uid) →
  run_op (updateNote (Some uid) noteId newValues now) s
    = (Err "Note not found or unauthorized", mkworld s [])
  ∧ run_op (deleteNote (Some uid) noteId now) s
    = (Err "Note not found or unauthorized", mkworld s []).
Proof.
  intros Hforeign. unfold updateNote, deleteNote. mstep.
  destruct (notes s !! noteId) as [n|] eqn:Hn; simpl; [|done].
  specialize (Hforeign n eq_refl).
  rewrite bool_decide_eq_false_2 by done. simpl. done.
Qed.

Lemma foreign_note_rejected_witness :
  run_op (updateNote (Some "B") "N1"
            (mkupd (Some "mine") None None None None) 50) store1
    = (Err "Note not found or unauthorized", mkworld store1 [])
  ∧ run_op (deleteNote (Some "B") "N1" 50) store1
    = (Err "Note not found or unauthorized", mkworld store1 []).
Proof.
  apply (foreign_note_rejected "B" "N1"
           (mkupd (Some "mine") None None None None) 50 store1).
  intros n Hn. vm_compute in Hn. injection Hn as <-. simpl. discriminate.
Defined.

(** Without a [folderId] key the update payload reaches the note: the
    given title and content are stored, [updatedAt] is the time of the
    call and [contentLength] follows a given content. *)
Lemma updateNote_plain_fields
    (uid noteId : string) (n : Note.t) (newValues : NoteUpdates) (now : Z)
    (s : db) :
  notes s !! noteId = Some n →
  Note.userId n = uid →
  u_folderId newValues = None →
  let r := run_op (updateNote (Some uid) noteId newValues now) s in
  outcome r = Ok tt
  ∧ ∃ n', notes (final r) !! noteId = Some n'
          ∧ Note.title n' = default (Note.title n) (u_title newValues)
          ∧ Note.content n' = default (Note.content n) (u_content newValues)
          ∧ Note.updatedAt n' = now
          ∧ Note.contentLength n'
            = match u_content newValues with
              | Some c => jsLength c
              | None => default (Note.contentLength n)
                          (u_contentLength newValues)
              end
          ∧ Note.folderId n' = Note.folderId n
          ∧ Note.userId n' = Note.userId n
          ∧ Note.createdAt n' = Note.createdAt n.
Proof.
  intros Hn Hu Hf r. subst r. unfold updateNote. mstep.
  rewrite Hn. simpl. rewrite bool_decide_eq_true_2 by done. simpl.
  rewrite Hf. simpl. split; [done |].
  unfold noteUpdatePayload, apply_write.
  destruct (u_title newValues), (u_content newValues),
    (u_contentLength newValues); simpl;
    rewrite ?lookup_alter_eq, Hn; simpl; eexists; (split; [done |]);
    simpl; done.
Qed.

(** C9. The update scenario on a note of the caller: the call returns,
    the stored content is the new one with [contentLength] 17, [updatedAt]
    is the time of the call (so strictly greater than before whenever the
    clock has advanced) and [folderId] is unchanged. *)
Theorem updateNote_content_scenario
    (uid N1 : string) (n : Note.t) (now : Z) (s : db) :
  notes s !! N1 = Some n →
  Note.userId n = uid →
  let r := run_op (updateNote (Some uid) N1
                     (mkupd None (Some "buy milk and eggs") None None None)
                     now) s in
  outcome r = Ok tt
  ∧ ∃ n', notes (final r) !! N1 = Some n'
          ∧ Note.content n' = "buy milk and eggs"
          ∧ Note.contentLength n' = 17
          ∧ Note.updatedAt n' = now
          ∧ (Note.updatedAt n < now → Note.updatedAt n < Note.updatedAt n')
          ∧ Note.folderId n' = Note.folderId n.
Proof.
  intros Hn Hu r.
  destruct (updateNote_plain_fields uid N1 n
              (mkupd None (Some "buy milk and eggs") None None None) now s
              Hn Hu eq_refl)
    as (Hok & n' & Hn' & _ & Hc & Ht & Hl & Hf & _).
  split; [exact Hok |]. exists n'. simpl in *.
  repeat split; try done. lia.
Qed.

Lemma updateNote_content_scenario_witness :
  let r := run_op (updateNote (Some "A") "N1"
                     (mkupd None (Some "buy milk and eggs") None None None)
                     50) store1 in
  outcome r = Ok tt
  ∧ ∃ n', notes (final r) !! "N1" = Some n'
          ∧ Note.content n' = "buy milk and eggs"
          ∧ Note.contentLength n' = 17
          ∧ Note.updatedAt n' = 50
          ∧ (Note.updatedAt noteN1 < 50 → Note.updatedAt noteN1 < Note.updatedAt n')
          ∧ Note.folderId n' = Note.folderId noteN1.
Proof.
  apply (updateNote_content_scenario "A" "N1" noteN1 50 store1);
    vm_compute; reflexivity.
Defined.

(** C9, as stated: on [store1] the call returns and leaves
    [contentLength] 17, not 18. *)
Lemma update_scenario_length_18_fails : ¬ update_scenario_as_stated.
Proof.
  intros H.
  destruct (H store1 "A" "N1" noteN1 50) as (n' & Hn' & Hlen & _).
  - vm_compute. reflexivity.
  - reflexivity.
  - vm_compute. reflexivity.
  - vm_compute in Hn'. injection Hn' as <-. simpl in Hlen. discriminate.
Qed.

(** With a [folderId] key whose value differs from the note's
    [folderId], a call that returns has written [updatedAt] (and
    [folderId]) only: title, content and [contentLength] are the stored
    ones, whatever the partial update gave. *)
Lemma updateNote_folder_change_keeps_content
    (uid k : string) (n : Note.t) (newValues : NoteUpdates) (v : jsval)
    (now : Z) (s : db) :
  notes s !! k = Some n →
  u_folderId newValues = Some v →
  v ≠ read_field (Note.folderId n) →
  let r := run_op (updateNote (Some uid) k newValues now) s in
  outcome r = Ok tt →
  ∃ n', notes (final r) !! k = Some n'
        ∧ Note.title n' = Note.title n
        ∧ Note.content n' = Note.content n
        ∧ Note.contentLength n' = Note.contentLength n
        ∧ Note.updatedAt n' = now.
Proof.
  intros Hn Hv Hne r. subst r. unfold updateNote. mstep.
  rewrite Hn. simpl.
  destruct (bool_decide (Note.userId n = uid)); simpl; [|done].
  rewrite Hv. simpl. unfold strict_eq.
  rewrite bool_decide_eq_false_2 by done. simpl.
  destruct (as_key (read_field (Note.folderId n))) as [c|]; simpl;
    [destruct (folders s !! c) as [C|]; simpl;
      [destruct (isArray (Folder.noteIds C)); simpl|]|];
    (destruct (as_key v) as [t|]; simpl;
     [destruct (folders s !! t) as [T|]; simpl; [|done];
      destruct (bool_decide (Folder.userId T = uid)); simpl; [|done];
      destruct (includes (Folder.noteIds T) k); simpl|]);
    intros _; rewrite !lookup_alter_eq, Hn; simpl; eexists;
    (split; [reflexivity|]); done.
Qed.

(** C2. A content update that also moves the note from F1 to F2: the call
    returns and the note is filed in F2 with a fresh [updatedAt], but the
    stored content and [contentLength] are the old ones; the only write is
    the multi-path one, which carries no content. *)
Theorem updateNote_move_drops_content :
  let r := run_op (updateNote (Some "A") "N1"
                     (mkupd None (Some "buy milk and eggs") None None
                        (Some (JStr "F2")))
                     50) store1 in
  outcome r = Ok tt
  ∧ notes (final r) !! "N1"
    = Some (Note.mk "Todo" "buy milk" 20 50 "A" 8 (Some "F2"))
  ∧ writes r
    = [[FolderNoteIds "F1" []; FolderUpdatedAt "F1" 50;
        FolderNoteIds "F2" ["N1"]; FolderUpdatedAt "F2" 50;
        NoteFolderId "N1" (JStr "F2"); NoteUpdatedAt "N1" 50]].
Proof. vm_compute. done. Qed.

(** ** Lookups after a write *)

Lemma str_truthy_ne (k : string) : str_truthy k = true ↔ k ≠ "".
Proof. destruct k; simpl; split; intros H; try done. Qed.

Lemma str_truthy_false (k : string) : str_truthy k = false ↔ k = "".
Proof. destruct k; simpl; split; intros H; try done. Qed.

Lemma includes_true (l : list string) (x : string) :
  includes l x = true ↔ x ∈ l.
Proof. unfold includes. apply bool_decide_eq_true. Qed.

Lemma includes_false (l : list string) (x : string) :
  includes l x = false ↔ x ∉ l.
Proof. unfold includes. apply bool_decide_eq_false. Qed.

Lemma isArray_false (l : list string) : isArray l = false → l = [].
Proof. by destruct l. Qed.

Lemma elem_of_without (x k : string) (l : list string) :
  x ∈ without k l ↔ x ∈ l ∧ x ≠ k.
Proof. unfold without. rewrite list_elem_of_filter. tauto. Qed.

Lemma without_not_elem (k : string) (l : list string) :
  k ∉ l → without k l = l.
Proof.
  intros Hk. unfold without. induction l as [|a l IH]; [done|].
  apply not_elem_of_cons in Hk as [Hne Hl].
  rewrite filter_cons_True by congruence. by rewrite IH.
Qed.

Lemma without_same_length (k : string) (l : list string) :
  length (without k l) = length l → without k l = l.
Proof.
  intros Hlen. apply without_not_elem. intros Hk.
  assert (Hlt : (length (filter (λ y, y ≠ k) l) < length l)%nat).
  { apply (length_filter_lt (λ y, y ≠ k) l k Hk). by intros H. }
  unfold without in Hlen. lia.
Qed.

Lemma folder_rel_refl (g : Folder.t → list string) (o : option Folder.t) :
  (∀ F, o = Some F → g F = Folder.noteIds F) → folder_rel g o o.
Proof. intros Hg. destruct o as [F|]; simpl; [|done]. by rewrite Hg. Qed.

(** Case analysis on a decidable equation used as a boolean test. *)
Ltac bdec P :=
  let H := fresh "Hd" in
  destruct (decide P) as [H|H];
  [rewrite (bool_decide_eq_true_2 P) by exact H
  |rewrite (bool_decide_eq_false_2 P) by exact H]; simpl.

Ltac norm_hyps :=
  repeat match goal with
  | H : str_truthy _ = true |- _ => apply str_truthy_ne in H
  | H : str_truthy _ = false |- _ => apply str_truthy_false in H
  | H : isArray _ = false |- _ => apply isArray_false in H
  | H : includes _ _ = true |- _ => apply includes_true in H
  | H : includes _ _ = false |- _ => apply includes_false in H
  end.

(** The folder clause of [refiled] at a store built from [alter]s. *)
Ltac folder_goal :=
  let y := fresh "y" in
  intros y; unfold folder_rel, refile_ids; simpl;
  rewrite ?lookup_alter;
  repeat (case_decide; simplify_eq/=);
  repeat match goal with
  | H : ?m !! ?k = _ |- context [?m !! ?k] => rewrite H; simpl
  end;
  try match goal with
  | |- context [folders ?s !! ?y] => destruct (folders s !! y) eqn:?; simpl
  end;
  repeat (case_decide; simplify_eq/=);
  try done; try (split; done);
  try (split; [done|]);
  repeat match goal with
  | H : ?l = [] |- context [?l] => rewrite H; simpl
  end;
  repeat match goal with
  | H : _ ∧ _ |- _ => destruct H
  | H1 : ?a = Some ?x, H2 : ?a = Some ?y |- _ =>
      rewrite H1 in H2; injection H2 as ->
  end;
  repeat match goal with
  | H : ?m !! ?k = _ |- context [?m !! ?k] => rewrite H; simpl
  | H : ?m !! ?k = _, H' : ?m !! ?k = _ |- _ => rewrite H in H'; simplify_eq/=
  | H : ?l = [] |- context [?l] => rewrite H; simpl
  end;
  try done; try (intuition congruence).

Ltac refiled_goal n Hn :=
  split; [exists n; eexists; split; [exact Hn|];
          split; [simpl; rewrite ?lookup_alter_eq, ?Hn; simpl; reflexivity |];
          simpl; split; [done|]; split; [done|]; split; [try congruence|]
         | split; [intros ? ?; simpl; rewrite ?lookup_alter_ne by done; done
                  | intros ? ?; simplify_eq/=; eauto ]].

(** ** moveNoteToFolder *)

(** A move either throws before any write or files the note under the
    target. *)
Lemma moveNoteToFolder_spec
    (uid k : string) (target : jsval) (now : Z) (s : db) :
  target ≠ JStr "" →
  let r := run_op (moveNoteToFolder (Some uid) k target now) s in
  match outcome r with
  | Err _ => final r = s ∧ writes r = []
  | Ok _ => refiled s (final r) k uid (stored target)
  end.
Proof.
  intros Ht r. subst r. unfold moveNoteToFolder. mstep.
  destruct (notes s !! k) as [n|] eqn:Hn; simpl; [|done].
  bdec (Note.userId n = uid); [|done].
  destruct (as_key target) as [t|] eqn:Hkey; simpl.
  - apply as_key_Some in Hkey as [-> Htt].
    destruct (folders s !! t) as [T|] eqn:HT; simpl; [|done].
    bdec (Folder.userId T = uid); [|done].
    destruct (includes (Folder.noteIds T) k) eqn:Hinc; simpl;
    (destruct (Note.folderId n) as [c|] eqn:Hc; simpl;
     [destruct (str_truthy c) eqn:Hct; simpl;
      [unfold strict_eq; bdec (JStr c = JStr t);
       [|destruct (folders s !! c) as [C|] eqn:HC; simpl;
         [destruct (isArray (Folder.noteIds C)) eqn:HA; simpl|]]
      |unfold strict_eq; bdec (JStr c = JStr t)]
     |unfold strict_eq; simpl]);
    norm_hyps; simplify_eq/=;
    refiled_goal n Hn; try folder_goal.
  - assert (Hst : stored target = None).
    { destruct target as [| |x]; try done. simpl in Hkey.
      destruct (str_truthy x) eqn:Hx; [done|].
      apply str_truthy_false in Hx. congruence. }
    assert (Hnot : ∀ c, read_field (Some c) ≠ target).
    { intros c Hc. rewrite <- Hc in Hst. done. }
    rewrite Hst. clear Hkey.
    destruct (Note.folderId n) as [c|] eqn:Hc; simpl.
    + unfold strict_eq.
      rewrite (bool_decide_eq_false_2 (JStr c = target)) by apply Hnot.
      simpl.
      destruct (str_truthy c) eqn:Hct; simpl;
        [destruct (folders s !! c) as [C|] eqn:HC; simpl;
          [destruct (isArray (Folder.noteIds C)) eqn:HA; simpl|]|];
        norm_hyps; simplify_eq/=;
        refiled_goal n Hn; try folder_goal.
    + unfold strict_eq. bdec (JUndefined = target);
        refiled_goal n Hn; try folder_goal.
Qed.
(** ** Consistency is kept by refiling *)

Lemma refile_ids_other (k x : string) (oldf newf : option string)
    (y : string) (F : Folder.t) :
  x ≠ k → x ∈ refile_ids k oldf newf y F ↔ x ∈ Folder.noteIds F.
Proof.
  intros Hx. unfold refile_ids. repeat case_decide.
  - done.
  - rewrite elem_of_app, list_elem_of_singleton. tauto.
  - rewrite elem_of_without. tauto.
  - done.
Qed.

Lemma refiled_consistent (s s' : db) (k uid : string) (newf : option string) :
  consistent s → refiled s s' k uid newf → consistent s'.
Proof.
  intros (Hkeys & Hown & Hfiled & Hbacked)
         ((n & n' & Hn & Hn' & Hu & Hu' & Hf' & Hfold) & Hother & Htarget).
  assert (Hnote : ∀ x m, notes s' !! x = Some m →
            x = k ∧ m = n' ∨ x ≠ k ∧ notes s !! x = Some m).
  { intros x m Hm. destruct (decide (x = k)) as [->|Hx].
    - left. split; [done | congruence].
    - right. split; [done|]. by rewrite <- Hother. }
  assert (Hfold' : ∀ y F', folders s' !! y = Some F' →
            ∃ F, folders s !! y = Some F
                 ∧ Folder.userId F' = Folder.userId F
                 ∧ Folder.noteIds F'
                   = refile_ids k (Note.folderId n) newf y F).
  { intros y F' HF'. specialize (Hfold y). rewrite HF' in Hfold.
    destruct (folders s !! y) as [F|]; simpl in Hfold; [|done].
    exists F. tauto. }
  assert (Hfold'' : ∀ y F, folders s !! y = Some F →
            ∃ F', folders s' !! y = Some F'
                 ∧ Folder.userId F' = Folder.userId F
                 ∧ Folder.noteIds F'
                   = refile_ids k (Note.folderId n) newf y F).
  { intros y F HF. specialize (Hfold y). rewrite HF in Hfold.
    destruct (folders s' !! y) as [F'|]; simpl in Hfold; [|done].
    exists F'. tauto. }
  split; [|split; [|split]].
  - unfold keys_nonempty in *. specialize (Hfold "").
    rewrite Hkeys in Hfold. by destruct (folders s' !! "").
  - intros x m f F' Hm Hmf HF'.
    destruct (Hfold' f F' HF') as (F & HF & HuF & _).
    destruct (Hnote x m Hm) as [[-> ->]|[Hx Hm0]].
    + destruct (Htarget f) as (T & HT & HTu); [congruence|].
      rewrite HF in HT. injection HT as <-. congruence.
    + rewrite HuF. by eapply Hown.
  - intros x m f Hm Hmf.
    destruct (Hnote x m Hm) as [[-> ->]|[Hx Hm0]].
    + destruct (Htarget f) as (T & HT & HTu); [congruence|].
      destruct (Hfold'' f T HT) as (F' & HF' & _ & Hids).
      exists F'. split; [done|]. rewrite Hids. unfold refile_ids.
      rewrite decide_True by congruence.
      case_decide; [done|]. rewrite elem_of_app, list_elem_of_singleton.
      by right.
    + destruct (Hfiled x m f Hm0 Hmf) as (F & HF & Hin).
      destruct (Hfold'' f F HF) as (F' & HF' & _ & Hids).
      exists F'. split; [done|]. rewrite Hids.
      by apply refile_ids_other.
  - intros y F' x HF' Hin.
    destruct (Hfold' y F' HF') as (F & HF & _ & Hids).
    rewrite Hids in Hin.
    destruct (decide (x = k)) as [->|Hx].
    + exists n'. split; [done|]. rewrite Hf'.
      unfold refile_ids in Hin.
      destruct (decide (newf = Some y)) as [Hy|Hy]; [done|].
      destruct (decide (Note.folderId n = Some y ∧ y ≠ "")) as [Ho|Ho].
      * apply elem_of_without in Hin. tauto.
      * destruct (Hbacked y F k HF Hin) as (m & Hm & Hmf).
        rewrite Hn in Hm. injection Hm as <-.
        destruct (decide (y = "")) as [->|Hne]; [|tauto].
        unfold keys_nonempty in Hkeys. congruence.
    + apply refile_ids_other in Hin; [|done].
      destruct (Hbacked y F x HF Hin) as (m & Hm & Hmf).
      exists m. split; [|done]. by rewrite Hother.
Qed.

(** ** updateNote keeps consistency *)

Lemma stored_or_null (v : jsval) : stored (or_null v) = as_key v.
Proof.
  destruct v as [| |x]; try done. unfold or_null. simpl.
  by destruct (str_truthy x).
Qed.

Lemma noteUpdatePayload_same_shape
    (k : string) (newValues : NoteUpdates) (now : Z) (s : db) :
  same_shape s (apply_write (noteUpdatePayload k newValues now) s).
Proof.
  unfold noteUpdatePayload, apply_write, same_shape.
  destruct (u_title newValues), (u_content newValues),
    (u_contentLength newValues); simpl; (split; [|done]); intros x;
    rewrite ?lookup_alter; repeat case_decide; try done;
    subst; by destruct (notes s !! _).
Qed.

Lemma updateNote_spec
    (uid k : string) (newValues : NoteUpdates) (now : Z) (s : db) :
  let r := run_op (updateNote (Some uid) k newValues now) s in
  match outcome r with
  | Err _ => final r = s ∧ writes r = []
  | Ok _ =>
      same_shape s (final r)
      ∨ ∃ v, u_folderId newValues = Some v
             ∧ refiled s (final r) k uid (as_key v)
  end.
Proof.
  intros r. subst r. unfold updateNote. mstep.
  destruct (notes s !! k) as [n|] eqn:Hn; simpl; [|done].
  bdec (Note.userId n = uid); [|done].
  destruct (u_folderId newValues) as [v|] eqn:Hv; simpl;
    [|left; apply noteUpdatePayload_same_shape].
  unfold strict_eq. bdec (v = read_field (Note.folderId n));
    [left; apply noteUpdatePayload_same_shape|].
  assert (Hprev : ∀ c t, Note.folderId n = Some c → as_key v = Some t →
            c ≠ t).
  { intros c t Hc Hkey ->. apply as_key_Some in Hkey as [-> _].
    by rewrite Hc in Hd0. }
  destruct (Note.folderId n) as [c|] eqn:Hc; simpl.
  - destruct (str_truthy c) eqn:Hct; simpl;
    [destruct (folders s !! c) as [C|] eqn:HC; simpl;
      [destruct (isArray (Folder.noteIds C)) eqn:HA; simpl|]|];
    (destruct (as_key v) as [t|] eqn:Hkey; simpl;
     [specialize (Hprev c t eq_refl eq_refl);
      destruct (folders s !! t) as [T|] eqn:HT; simpl; [|done];
      bdec (Folder.userId T = uid); [|done];
      destruct (includes (Folder.noteIds T) k) eqn:Hinc; simpl
     |]);
    right; eexists; (split; [reflexivity|]);
    rewrite ?stored_or_null, ?Hkey;
    norm_hyps; simplify_eq/=;
    refiled_goal n Hn; try folder_goal.
  - (destruct (as_key v) as [t|] eqn:Hkey; simpl;
     [destruct (folders s !! t) as [T|] eqn:HT; simpl; [|done];
      bdec (Folder.userId T = uid); [|done];
      destruct (includes (Folder.noteIds T) k) eqn:Hinc; simpl
     |]);
    right; eexists; (split; [reflexivity|]);
    rewrite ?stored_or_null, ?Hkey;
    norm_hyps; simplify_eq/=;
    refiled_goal n Hn; try folder_goal.
Qed.

(** ** Operations that keep owners and memberships *)

Lemma same_shape_consistent (s s' : db) :
  consistent s → same_shape s s' → consistent s'.
Proof.
  intros (Hkeys & Hown & Hfiled & Hbacked) [Hnotes Hfolders].
  assert (Hback : ∀ x m, notes s' !! x = Some m →
            ∃ m0, notes s !! x = Some m0
                  ∧ Note.folderId m0 = Note.folderId m
                  ∧ Note.userId m0 = Note.userId m).
  { intros x m Hm. specialize (Hnotes x). rewrite Hm in Hnotes.
    destruct (notes s !! x) as [m0|]; simpl in Hnotes; [|done].
    exists m0. split; [done|]. injection Hnotes as H1 H2.
    split; congruence. }
  assert (Hforth : ∀ x m0, notes s !! x = Some m0 →
            ∃ m, notes s' !! x = Some m
                 ∧ Note.folderId m0 = Note.folderId m).
  { intros x m0 Hm0. specialize (Hnotes x). rewrite Hm0 in Hnotes.
    destruct (notes s' !! x) as [m|]; simpl in Hnotes; [|done].
    exists m. split; [done|]. injection Hnotes as H1 H2. congruence. }
  unfold consistent, keys_nonempty, same_owner, membership_symmetric,
    notes_filed, folders_backed. rewrite Hfolders.
  split; [done|]. split; [|split].
  - intros x m f F Hm Hf HF.
    destruct (Hback x m Hm) as (m0 & Hm0 & Hf0 & Hu0).
    rewrite <- Hu0. eapply Hown; [done| |done]. congruence.
  - intros x m f Hm Hf.
    destruct (Hback x m Hm) as (m0 & Hm0 & Hf0 & Hu0).
    eapply Hfiled; [done|]. congruence.
  - intros y F x HF Hin.
    destruct (Hbacked y F x HF Hin) as (m0 & Hm0 & Hf0).
    destruct (Hforth x m0 Hm0) as (m & Hm & Hfm).
    exists m. split; [done|]. congruence.
Qed.

(** ** createNote keeps consistency *)

Lemma createNote_consistent
    (user : option string) (title content : string) (folderId : jsval)
    (key : string) (now : Z) (s : db) :
  consistent s →
  admissible (CreateNote user title content folderId key now) s →
  consistent (final (run_op (createNote user title content folderId key now) s)).
Proof.
  intros Hcons [Hfresh Hfolder]. unfold createNote.
  destruct user as [uid|]; [|done].
  destruct (truthy folderId) eqn:Htr; simpl; [|done].
  destruct (str_truthy key) eqn:Hk; simpl; [|done].
  apply as_key_truthy in Htr as [fid Hfid].
  destruct (Hfolder uid fid eq_refl Hfid) as (F & HF & HFu).
  destruct Hcons as (Hkeys & Hown & Hfiled & Hbacked).
  assert (Hnin : key ∉ Folder.noteIds F).
  { intros Hin. destruct (Hbacked fid F key HF Hin) as (m & Hm & _).
    congruence. }
  mstep. rewrite Hfid. simpl. rewrite HF. simpl.
  rewrite bool_decide_eq_true_2 by done. simpl.
  apply includes_false in Hnin as Hinc. rewrite Hinc. simpl.
  apply as_key_Some in Hfid as [-> Hfidt].
  unfold or_undefined. simpl. rewrite Hfidt. simpl.
  unfold consistent, keys_nonempty, same_owner, membership_symmetric,
    notes_filed, folders_backed in *. simpl.
  split; [|split; [|split]].
  - rewrite !lookup_alter_ne; [done| |]; intros ->; congruence.
  - intros x m f F'. rewrite lookup_insert, !lookup_alter.
    intros Hm Hf HF'. repeat (case_decide; simplify_eq/=);
      rewrite ?HF in HF'; simplify_eq/=; try done; by eapply Hown.
  - intros x m f. rewrite lookup_insert. intros Hm Hf.
    case_decide; simplify_eq/=.
    + rewrite !lookup_alter_eq, HF. simpl. eexists. split; [done|]. simpl.
      apply elem_of_app. right. by apply list_elem_of_singleton.
    + destruct (Hfiled x m f Hm Hf) as (F' & HF' & Hin).
      rewrite !lookup_alter. repeat (case_decide; simplify_eq/=).
      * rewrite HF. simpl. eexists. split; [done|]. simpl.
        apply elem_of_app. by left.
      * eauto.
  - intros y F' x. rewrite !lookup_alter, lookup_insert.
    intros HF' Hin. repeat (case_decide; simplify_eq/=);
      rewrite ?HF in HF'; simplify_eq/=.
    + eauto.
    + apply elem_of_app in Hin as [Hin|Hin].
      * eauto.
      * apply list_elem_of_singleton in Hin. congruence.
    + destruct (Hbacked y F' x HF' Hin) as (m & Hm & _). congruence.
    + eauto.
Qed.

(** ** deleteNote *)

Lemma apply_write_app (a b : write) (s : db) :
  apply_write (a ++ b) s = apply_write b (apply_write a s).
Proof. unfold apply_write. apply foldl_app. Qed.

(** The entries of one folder change that folder only. *)
Lemma cleanup_folder_lookup
    (uid k : string) (now : Z) (key : string) (F : Folder.t) (s : db) :
  folders s !! key = Some F →
  let s1 := apply_write (cleanup_folder uid k now (key, F)) s in
  notes s1 = notes s
  ∧ (∀ y, y ≠ key → folders s1 !! y = folders s !! y)
  ∧ ∃ F1, folders s1 !! key = Some F1
          ∧ Folder.userId F1 = Folder.userId F
          ∧ Folder.noteIds F1 = cleaned_ids uid k F.
Proof.
  intros HF. unfold cleanup_folder, cleaned_ids. simpl.
  bdec (Folder.userId F = uid).
  - destruct (isArray (Folder.noteIds F)) eqn:HA; simpl.
    + bdec (length (without k (Folder.noteIds F)) = length (Folder.noteIds F)).
      * split; [done|]. split; [done|]. exists F.
        by rewrite without_same_length.
      * split; [done|]. split.
        { intros y Hy. by rewrite !lookup_alter_ne. }
        rewrite !lookup_alter_eq, HF. simpl. eauto.
    + apply isArray_false in HA.
      split; [done|]. split; [done|]. exists F. by rewrite HA.
  - split; [done|]. split; [done|]. eauto.
Qed.

Lemma cleanup_all_lookup
    (uid k : string) (now : Z) (l : list (string * Folder.t)) (s : db) :
  NoDup l.*1 →
  (∀ key F, (key, F) ∈ l → folders s !! key = Some F) →
  let s1 := apply_write (flat_map (cleanup_folder uid k now) l) s in
  notes s1 = notes s
  ∧ ∀ y, folder_rel (λ F, if decide (y ∈ l.*1) then cleaned_ids uid k F
                          else Folder.noteIds F)
           (folders s !! y) (folders s1 !! y).
Proof.
  revert s. induction l as [|[key F] l IH]; intros s Hnd Hl s1; subst s1.
  - simpl. split; [done|]. intros y. by apply folder_rel_refl.
  - change (flat_map (cleanup_folder uid k now) ((key, F) :: l))
      with (cleanup_folder uid k now (key, F)
            ++ flat_map (cleanup_folder uid k now) l).
    rewrite apply_write_app. rewrite fmap_cons in Hnd |- *. simpl in Hnd.
    apply NoDup_cons in Hnd as [Hkey Hnd].
    assert (HF : folders s !! key = Some F) by (apply Hl; left).
    destruct (cleanup_folder_lookup uid k now key F s HF)
      as (Hn0 & Hother & F1 & HF1 & Hu1 & Hids1).
    set (s0 := apply_write (cleanup_folder uid k now (key, F)) s) in *.
    destruct (IH s0 Hnd) as [Hn1 Hrel].
    { intros key' F' Hin. rewrite Hother.
      - apply Hl. by right.
      - intros ->. apply Hkey. apply list_elem_of_fmap.
        exists (key, F'). done. }
    split; [by rewrite Hn1|]. intros y. specialize (Hrel y).
    unfold folder_rel in *.
    destruct (decide (y = key)) as [->|Hy].
    + rewrite HF1 in Hrel. rewrite HF.
      destruct (folders (apply_write _ s0) !! key) as [F2|]; [|done].
      rewrite decide_False in Hrel by done.
      rewrite decide_True by left.
      destruct Hrel as [Hu2 Hids2]. split; congruence.
    + rewrite Hother in Hrel by done.
      destruct (folders s !! y) as [Fy|],
        (folders (apply_write _ s0) !! y) as [F2|]; try done.
      destruct Hrel as [Hu2 Hids2]. split; [done|]. rewrite Hids2.
      destruct (decide (y ∈ l.*1)) as [Hin|Hin].
      * rewrite decide_True; [done|]. by right.
      * rewrite decide_False; [done|]. intros Hc.
        apply elem_of_cons in Hc as [?|?]; done.
Qed.

(** [deleteNote] either throws before any write, or deletes the note and
    takes it off every folder of the caller. *)
Lemma deleteNote_spec (uid k : string) (now : Z) (s : db) :
  let r := run_op (deleteNote (Some uid) k now) s in
  match outcome r with
  | Err _ => final r = s ∧ writes r = []
  | Ok _ =>
      (∃ n, notes s !! k = Some n ∧ Note.userId n = uid)
      ∧ notes (final r) = delete k (notes s)
      ∧ ∀ y, folder_rel (cleaned_ids uid k)
               (folders s !! y) (folders (final r) !! y)
  end.
Proof.
  intros r. subst r. unfold deleteNote. mstep.
  destruct (notes s !! k) as [n|] eqn:Hn; simpl; [|done].
  bdec (Note.userId n = uid); [|done].
  split; [eauto|].
  rewrite apply_write_app. simpl.
  destruct (cleanup_all_lookup uid k now (map_to_list (folders s)) s)
    as [Hnotes Hrel].
  { apply NoDup_fst_map_to_list. }
  { intros key F Hin. by apply elem_of_map_to_list. }
  split; [by rewrite Hnotes|].
  intros y. specialize (Hrel y).
  unfold folder_rel in *.
  destruct (folders s !! y) as [Fy|] eqn:HFy; [|done].
  destruct (folders (apply_write _ s) !! y) as [F2|]; [|done].
  rewrite decide_True in Hrel; [done|].
  apply list_elem_of_fmap. exists (y, Fy). split; [done|].
  by apply elem_of_map_to_list.
Qed.

Lemma deleteNote_consistent (user : option string) (k : string) (now : Z)
    (s : db) :
  consistent s →
  consistent (final (run_op (deleteNote user k now) s)).
Proof.
  intros Hcons. destruct user as [uid|]; [|done].
  pose proof (deleteNote_spec uid k now s) as Hspec. cbv zeta in Hspec.
  destruct (outcome (run_op (deleteNote (Some uid) k now) s));
    [|destruct Hspec as [-> _]; done].
  destruct Hspec as ((n & Hn & Hu) & Hnotes & Hrel).
  set (s' := final (run_op (deleteNote (Some uid) k now) s)) in *.
  destruct Hcons as (Hkeys & Hown & Hfiled & Hbacked).
  assert (Hfold' : ∀ y F', folders s' !! y = Some F' →
            ∃ F, folders s !! y = Some F
                 ∧ Folder.userId F' = Folder.userId F
                 ∧ Folder.noteIds F' = cleaned_ids uid k F).
  { intros y F' HF'. specialize (Hrel y). rewrite HF' in Hrel.
    destruct (folders s !! y) as [F|]; simpl in Hrel; [|done].
    exists F. tauto. }
  assert (Hfold'' : ∀ y F, folders s !! y = Some F →
            ∃ F', folders s' !! y = Some F'
                 ∧ Folder.noteIds F' = cleaned_ids uid k F).
  { intros y F HF. specialize (Hrel y). rewrite HF in Hrel.
    destruct (folders s' !! y) as [F'|]; simpl in Hrel; [|done].
    exists F'. tauto. }
  assert (Hnote : ∀ x m, notes s' !! x = Some m →
            x ≠ k ∧ notes s !! x = Some m).
  { intros x m. rewrite Hnotes, lookup_delete. by case_decide. }
  assert (Hclean : ∀ x F, x ≠ k →
            x ∈ cleaned_ids uid k F ↔ x ∈ Folder.noteIds F).
  { intros x F Hx. unfold cleaned_ids. case_decide; [|done].
    rewrite elem_of_without. tauto. }
  split; [|split; [|split]].
  - unfold keys_nonempty in *. specialize (Hrel "").
    rewrite Hkeys in Hrel. by destruct (folders s' !! "").
  - intros x m f F' Hm Hf HF'.
    destruct (Hnote x m Hm) as [Hx Hm0].
    destruct (Hfold' f F' HF') as (F & HF & HuF & _).
    rewrite HuF. by eapply Hown.
  - intros x m f Hm Hf.
    destruct (Hnote x m Hm) as [Hx Hm0].
    destruct (Hfiled x m f Hm0 Hf) as (F & HF & Hin).
    destruct (Hfold'' f F HF) as (F' & HF' & Hids).
    exists F'. split; [done|]. rewrite Hids. by apply Hclean.
  - intros y F' x HF' Hin.
    destruct (Hfold' y F' HF') as (F & HF & HuF & Hids).
    rewrite Hids in Hin.
    assert (Hx : x ≠ k).
    { intros ->. unfold cleaned_ids in Hin. case_decide as Hd.
      - apply elem_of_without in Hin. tauto.
      - destruct (Hbacked y F k HF Hin) as (m & Hm & Hmf).
        rewrite Hn in Hm. injection Hm as <-.
        apply Hd. rewrite <- Hu. by eapply Hown. }
    apply Hclean in Hin; [|done].
    destruct (Hbacked y F x HF Hin) as (m & Hm & Hmf).
    exists m. split; [|done]. rewrite Hnotes. by rewrite lookup_delete_ne.
Qed.

(** ** deleteFolder *)

Lemma remove_note_all_run (ids : list string) (w : world) :
  remove_note_all ids w
  = (Ok tt,
     mkworld (mkdb (foldl (λ m k, delete k m) (notes (store w)) ids)
                   (folders (store w)) (users (store w)))
             (log w ++ map (λ k, [NoteNull k]) ids)).
Proof.
  revert w. induction ids as [|k ids IH]; intros w; simpl.
  - destruct w as [[n f u] lg]. unfold ret. simpl. by rewrite app_nil_r.
  - unfold bind, issue. simpl. rewrite IH. simpl.
    by rewrite <- app_assoc.
Qed.

Lemma lookup_delete_all (ids : list string) (m : gmap string Note.t)
    (x : string) :
  foldl (λ m k, delete k m) m ids !! x
  = if decide (x ∈ ids) then None else m !! x.
Proof.
  revert m. induction ids as [|k ids IH]; intros m.
  - destruct (decide (x ∈ [])) as [H|H]; [by apply elem_of_nil in H|done].
  - cbn [foldl]. rewrite IH. rewrite lookup_delete.
    destruct (decide (x ∈ ids)) as [Hin|Hin].
    + rewrite decide_True; [done|]. by right.
    + destruct (decide (k = x)) as [->|Hne].
      * rewrite decide_True; [done|]. by left.
      * rewrite decide_False; [done|]. intros Hc.
        apply elem_of_cons in Hc as [?|?]; congruence.
Qed.

(** [deleteFolder] throws before any write, or after the note removals
    when the caller has no [users] node, or removes the listed notes, the
    index entry and the folder record. *)
Lemma deleteFolder_spec (uid f : string) (s : db) :
  let r := run_op (deleteFolder (Some uid) f) s in
  match outcome r with
  | Err e =>
      (final r = s ∧ writes r = [])
      ∨ (e = "User data not found" ∧ users s !! uid = None)
  | Ok _ =>
      ∃ F U, folders s !! f = Some F
             ∧ Folder.userId F = uid
             ∧ users s !! uid = Some U
             ∧ (∀ x, notes (final r) !! x
                     = if decide (x ∈ Folder.noteIds F) then None
                       else notes s !! x)
             ∧ folders (final r) = delete f (folders s)
             ∧ users (final r)
               = write_user_folders uid (without f (User.folders U)) (users s)
             ∧ writes r
               = map (λ k, [NoteNull k]) (Folder.noteIds F)
                 ++ [[UserFolders uid (without f (User.folders U));
                      FolderNull f]]
  end.
Proof.
  intros r. subst r. unfold deleteFolder. mstep.
  destruct (folders s !! f) as [F|] eqn:HF; simpl; [|by left].
  bdec (Folder.userId F = uid); [|by left].
  destruct (Folder.noteIds F) as [|k ids] eqn:Hids.
  - simpl. destruct (users s !! uid) as [U|] eqn:HU; simpl.
    + exists F, U. rewrite Hids. simpl. repeat split; try done.
    + left. by destruct s.
  - change (nonEmpty (k :: ids)) with true. cbv iota.
    rewrite remove_note_all_run. simpl.
    destruct (users s !! uid) as [U|] eqn:HU; simpl.
    + exists F, U. rewrite Hids. simpl. repeat split; try done.
      intros x. rewrite lookup_delete_all, lookup_delete.
      destruct (decide (x ∈ ids)) as [H1|H1];
        destruct (decide (k = x)) as [H2|H2];
        destruct (decide (x ∈ k :: ids)) as [H3|H3]; try done;
        rewrite elem_of_cons in H3; exfalso; intuition congruence.
    + by right.
Qed.

Lemma deleteFolder_consistent (user : option string) (f : string) (s : db) :
  consistent s →
  admissible (DeleteFolder user f) s →
  consistent (final (run_op (deleteFolder user f) s)).
Proof.
  intros Hcons Hadm. destruct user as [uid|]; [|done].
  specialize (Hadm uid eq_refl).
  pose proof (deleteFolder_spec uid f s) as Hspec. cbv zeta in Hspec.
  destruct (outcome (run_op (deleteFolder (Some uid) f) s)).
  - destruct Hspec as (F & U & HF & HFu & HU & Hnotes & Hfolders & _).
    set (s' := final (run_op (deleteFolder (Some uid) f) s)) in *.
    destruct Hcons as (Hkeys & Hown & Hfiled & Hbacked).
    assert (Hnote : ∀ x m, notes s' !! x = Some m →
              (x ∉ Folder.noteIds F) ∧ notes s !! x = Some m).
    { intros x m. rewrite Hnotes. by case_decide. }
    assert (Hfold : ∀ y F', folders s' !! y = Some F' →
              y ≠ f ∧ folders s !! y = Some F').
    { intros y F'. rewrite Hfolders, lookup_delete. by case_decide. }
    split; [|split; [|split]].
    + unfold keys_nonempty in *. rewrite Hfolders, lookup_delete.
      by case_decide.
    + intros x m g G Hm Hg HG.
      destruct (Hnote x m Hm) as [_ Hm0].
      destruct (Hfold g G HG) as [_ HG0]. by eapply Hown.
    + intros x m g Hm Hg.
      destruct (Hnote x m Hm) as [Hx Hm0].
      destruct (Hfiled x m g Hm0 Hg) as (G & HG & Hin).
      exists G. split; [|done]. rewrite Hfolders, lookup_delete_ne; [done|].
      intros ->. rewrite HF in HG. by injection HG as <-.
    + intros y G x HG Hin.
      destruct (Hfold y G HG) as [Hy HG0].
      destruct (Hbacked y G x HG0 Hin) as (m & Hm & Hmf).
      exists m. split; [|done]. rewrite Hnotes. rewrite decide_False; [done|].
      intros Hx. destruct (Hbacked f F x HF Hx) as (m' & Hm' & Hmf').
      congruence.
  - destruct Hspec as [[-> _]|[_ HU]]; [done|].
    rewrite HU in Hadm. by destruct Hadm.
Qed.

(** ** Sequences of operations *)

Lemma exec_consistent (o : op) (s : db) :
  consistent s → admissible o s → consistent (exec o s).
Proof.
  intros Hcons Hadm. destruct o as [user title content folderId key now
    |user noteId newValues now|user noteId now|user noteId target now
    |user id]; simpl.
  - by apply createNote_consistent.
  - destruct user as [uid|]; [|done].
    pose proof (updateNote_spec uid noteId newValues now s) as Hspec.
    cbv zeta in Hspec.
    destruct (outcome (run_op (updateNote (Some uid) noteId newValues now) s)).
    + destruct Hspec as [Hshape|(v & _ & Href)].
      * by eapply same_shape_consistent.
      * by eapply refiled_consistent.
    + by destruct Hspec as [-> _].
  - by apply deleteNote_consistent.
  - destruct user as [uid|]; [|done].
    pose proof (moveNoteToFolder_spec uid noteId target now s Hadm) as Hspec.
    cbv zeta in Hspec.
    destruct (outcome (run_op (moveNoteToFolder (Some uid) noteId target now) s)).
    + by eapply refiled_consistent.
    + by destruct Hspec as [-> _].
  - by apply deleteFolder_consistent.
Qed.

Lemma run_ops_consistent (os : list op) (s : db) :
  consistent s → admissible_run os s → consistent (run_ops os s).
Proof.
  revert s. induction os as [|o os IH]; intros s Hcons Hadm; [done|].
  destruct Hadm as [Ho Hrest]. simpl. apply IH; [|done].
  by apply exec_consistent.
Qed.

(** ** Membership symmetry *)

Lemma store1_consistent : consistent store1.
Proof.
  split; [|split; [|split]].
  - vm_compute. reflexivity.
  - intros k n f F Hn Hf HF. simpl in Hn.
    apply lookup_singleton_Some in Hn as [<- <-]. simpl in Hf.
    injection Hf as <-. simpl in HF. rewrite lookup_insert_eq in HF.
    by injection HF as <-.
  - intros k n f Hn Hf. simpl in Hn.
    apply lookup_singleton_Some in Hn as [<- <-]. simpl in Hf.
    injection Hf as <-. exists folderF1. simpl.
    rewrite lookup_insert_eq. split; [done|]. by left.
  - intros f F k HF Hin. simpl in HF. rewrite lookup_insert in HF.
    case_decide.
    + injection HF as <-. subst f. simpl in Hin.
      apply list_elem_of_singleton in Hin as ->.
      exists noteN1. simpl. by rewrite lookup_singleton_eq.
    + apply lookup_singleton_Some in HF as [<- <-]. simpl in Hin.
      by apply elem_of_nil in Hin.
Qed.

(** C1. From a consistent store (non-empty keys, every note filed in a
    folder of its owner, [folderId] and [noteIds] mutually inverse), any
    sequence of [createNote], [updateNote], [deleteNote],
    [moveNoteToFolder] and [deleteFolder] calls, returning or throwing,
    leaves [folderId] and [noteIds] mutually inverse, provided each
    [createNote] gets an unused key and files into an existing folder of
    the caller, each move target is [null] or a non-empty key, and each
    [deleteFolder] caller has a [users] node. *)
Theorem membership_symmetry_kept (os : list op) (s : db) :
  consistent s →
  admissible_run os s →
  membership_symmetric (run_ops os s).
Proof.
  intros Hcons Hadm.
  by destruct (run_ops_consistent os s Hcons Hadm) as (_ & _ & Hsym).
Qed.

Lemma membership_symmetry_kept_witness :
  membership_symmetric
    (run_ops [CreateNote (Some "A") "Plan" "call Bob" (JStr "F2") "N2" 30;
              MoveNoteToFolder (Some "A") "N1" (JStr "F2") 40;
              UpdateNote (Some "A") "N2"
                (mkupd None None None None (Some (JStr "F1"))) 50;
              DeleteNote (Some "A") "N1" 60;
              DeleteFolder (Some "A") "F1"]
       store1).
Proof.
  apply membership_symmetry_kept.
  - exact store1_consistent.
  - cbn [admissible_run admissible].
    split; [split|].
    + vm_compute. reflexivity.
    + intros uid fid [= <-] [= <-]. exists folderF2. vm_compute. done.
    + split; [discriminate|]. split; [exact I|]. split; [exact I|].
      split; [|exact I]. intros uid [= <-]. vm_compute. eauto.
Defined.

(** C1, as stated: on the empty store [createNote] into a folder that does
    not exist returns the new key and leaves a note whose [folderId] names
    no folder. *)
Lemma createNote_missing_folder_breaks_symmetry :
  consistent empty_store
  ∧ outcome (run_op (createNote (Some "A") "Todo" "buy milk" (JStr "F9")
                       "N1" 20) empty_store) = Ok "N1"
  ∧ ¬ membership_symmetric
        (run_ops [CreateNote (Some "A") "Todo" "buy milk" (JStr "F9")
                    "N1" 20] empty_store).
Proof.
  split; [|split].
  - split; [done|]. split; [|split]; intros ? ? ? ?; simpl;
      rewrite ?lookup_empty; done.
  - vm_compute. reflexivity.
  - intros [Hfiled _].
    destruct (Hfiled "N1"
                (Note.mk "Todo" "buy milk" 20 20 "A" 8 (Some "F9")) "F9")
      as (F & HF & _).
    + vm_compute. reflexivity.
    + reflexivity.
    + vm_compute in HF. discriminate.
Qed.

(** ** Cascade delete *)

(** C6. A [deleteFolder] of a folder of the caller that returns: every
    note listed in the folder is gone, the folder id is no longer in the
    caller's folder index, the folder record is gone, and the writes are
    one removal per listed note followed by a single write that sets the
    index without the id and deletes the folder record. *)
Theorem deleteFolder_cascade (uid f : string) (F : Folder.t) (s : db) :
  folders s !! f = Some F →
  Folder.userId F = uid →
  let r := run_op (deleteFolder (Some uid) f) s in
  outcome r = Ok tt →
  (∀ n, n ∈ Folder.noteIds F → notes (final r) !! n = None)
  ∧ (f ∉ folder_index (final r) uid)
  ∧ folders (final r) !! f = None
  ∧ ∃ idx, (f ∉ idx)
           ∧ writes r = map (λ k, [NoteNull k]) (Folder.noteIds F)
                        ++ [[UserFolders uid idx; FolderNull f]].
Proof.
  intros HF Hu r Hok. subst r.
  pose proof (deleteFolder_spec uid f s) as Hspec. cbv zeta in Hspec.
  rewrite Hok in Hspec.
  destruct Hspec as (F' & U & HF' & _ & HU & Hnotes & Hfolders & Husers & Hw).
  rewrite HF in HF'. injection HF' as <-.
  assert (Hidx : f ∉ without f (User.folders U)).
  { intros Hin. apply elem_of_without in Hin. tauto. }
  split; [|split; [|split]].
  - intros n Hn. rewrite Hnotes. by rewrite decide_True.
  - unfold folder_index. rewrite Husers. unfold write_user_folders.
    rewrite HU. simpl.
    destruct (User.is_empty _).
    + rewrite lookup_delete_eq. apply not_elem_of_nil.
    + rewrite lookup_insert_eq. done.
  - rewrite Hfolders. apply lookup_delete_eq.
  - eauto.
Qed.

Lemma deleteFolder_cascade_witness :
  let r := run_op (deleteFolder (Some "A") "F1") store1 in
  (∀ n, n ∈ Folder.noteIds folderF1 → notes (final r) !! n = None)
  ∧ ("F1" ∉ folder_index (final r) "A")
  ∧ folders (final r) !! "F1" = None
  ∧ ∃ idx, ("F1" ∉ idx)
           ∧ writes r = map (λ k, [NoteNull k]) (Folder.noteIds folderF1)
                        ++ [[UserFolders "A" idx; FolderNull "F1"]].
Proof.
  apply (deleteFolder_cascade "A" "F1" folderF1 store1);
    vm_compute; reflexivity.
Defined.

(** ** Repeating a move *)

(** Moving to a folder twice: the second call issues no write and leaves
    the store of the first. *)
Lemma moveNoteToFolder_twice_folder
    (uid k f : string) (t1 t2 : Z) (s : db) :
  f ≠ "" →
  let r1 := run_op (moveNoteToFolder (Some uid) k (JStr f) t1) s in
  let r2 := run_op (moveNoteToFolder (Some uid) k (JStr f) t2) (final r1) in
  writes r2 = [] ∧ final r2 = final r1.
Proof.
  intros Hf r1 r2.
  assert (Ht : JStr f ≠ JStr "") by congruence.
  pose proof (moveNoteToFolder_spec uid k (JStr f) t1 s Ht) as Hspec.
  cbv zeta in Hspec. fold r1 in Hspec.
  destruct (outcome r1) eqn:Hout.
  - destruct Hspec as ((n & n' & Hn & Hn' & Hu & Hu' & Hf' & Hfold) & _ & Htgt).
    simpl in Hf'.
    destruct (Htgt f eq_refl) as (T & HT & HTu).
    specialize (Hfold f). rewrite HT in Hfold.
    destruct (folders (final r1) !! f) as [T'|] eqn:HT'; [|done].
    destruct Hfold as [HTu' Hids].
    assert (Hin : k ∈ Folder.noteIds T').
    { rewrite Hids. unfold refile_ids. rewrite decide_True by done.
      case_decide; [done|]. apply elem_of_app. right.
      by apply list_elem_of_singleton. }
    subst r2. unfold moveNoteToFolder. mstep.
    rewrite Hn'. simpl. rewrite bool_decide_eq_true_2 by done. simpl.
    apply str_truthy_ne in Hf. rewrite Hf. simpl. rewrite HT'. simpl.
    rewrite bool_decide_eq_true_2 by congruence. simpl.
    apply includes_true in Hin. rewrite Hin. simpl.
    rewrite Hf'. simpl. rewrite Hf. simpl.
    unfold strict_eq. rewrite bool_decide_eq_true_2 by done. simpl. done.
  - destruct Hspec as [Hfin Hw].
    pose proof (moveNoteToFolder_spec uid k (JStr f) t2 s Ht) as Hspec2.
    cbv zeta in Hspec2. subst r2. rewrite Hfin.
    assert (Hout2 : ∃ e, outcome (run_op (moveNoteToFolder (Some uid) k (JStr f) t2) s)
                         = Err e).
    { subst r1. revert Hout. unfold moveNoteToFolder. mstep.
      destruct (notes s !! k) as [n|]; simpl; [|eauto].
      destruct (bool_decide (Note.userId n = uid)); simpl; [|eauto].
      destruct (str_truthy f); simpl.
      - destruct (folders s !! f) as [T|]; simpl; [|eauto].
        destruct (bool_decide (Folder.userId T = uid)); simpl; [|eauto].
        destruct (includes (Folder.noteIds T) k); simpl;
          (destruct (Note.folderId n) as [c|]; simpl;
           [destruct (str_truthy c); simpl;
            [destruct (negb (strict_eq (JStr c) (JStr f))); simpl;
             [destruct (folders s !! c) as [C|]; simpl;
              [destruct (isArray (Folder.noteIds C)); simpl|]|]
            |destruct (negb (strict_eq (JStr c) (JStr f))); simpl]
           |]); try done.
      - destruct (Note.folderId n) as [c|]; simpl;
           [destruct (str_truthy c); simpl;
            [destruct (negb (strict_eq (JStr c) (JStr f))); simpl;
             [destruct (folders s !! c) as [C|]; simpl;
              [destruct (isArray (Folder.noteIds C)); simpl|]|]
            |destruct (negb (strict_eq (JStr c) (JStr f))); simpl]
           |]; try done. }
    destruct Hout2 as [e He]. rewrite He in Hspec2.
    destruct Hspec2 as [-> ->]. done.
Qed.

(** C4. Moving note N1 out of its folder with target [null], twice in a
    row: both calls return; after the first the note is unfiled; the
    second one still issues a write of [folderId] and [updatedAt], and the
    store after it differs from the store after the first call. *)
Theorem moveNoteToFolder_null_twice_writes :
  let r1 := run_op (moveNoteToFolder (Some "A") "N1" JNull 30) store1 in
  let r2 := run_op (moveNoteToFolder (Some "A") "N1" JNull 40) (final r1) in
  outcome r1 = Ok tt
  ∧ (Note.folderId <$> notes (final r1) !! "N1") = Some None
  ∧ outcome r2 = Ok tt
  ∧ writes r2 = [[NoteFolderId "N1" JNull; NoteUpdatedAt "N1" 40]]
  ∧ final r2 ≠ final r1.
Proof.
  repeat split; try (vm_compute; reflexivity).
  intros Heq. apply (f_equal (λ s, notes s !! "N1")) in Heq.
  vm_compute in Heq. discriminate.
Qed.

(** ** createFolder *)

Lemma get_folder_all_run (ids : list string) (w : world) :
  get_folder_all ids w = (Ok (map (λ k, folders (store w) !! k) ids), w).
Proof.
  induction ids as [|k ids IH]; simpl; [done|].
  unfold bind, get_folder, ret. simpl. by rewrite IH.
Qed.

Lemma toLowerCase_truthy (a b : string) :
  toLowerCase a = toLowerCase b → str_truthy a = str_truthy b.
Proof. by destruct a, b. Qed.

(** The duplicate check of [createFolder] against the records of the
    index entries that are not cached. *)
Lemma createFolder_ok
    (uid : string) (cached : list Folder.t) (name key : string) (now : Z)
    (s : db) :
  let r := run_op (createFolder (Some uid) cached name key now) s in
  outcome r = Ok key →
  str_truthy (trim name) = true
  ∧ final r
    = apply_write [FolderSet key (Folder.mk key (trim name) uid now [] now);
                   UserFolders uid (folder_index s uid ++ [key])] s.
Proof.
  intros r. subst r. unfold createFolder. mstep.
  destruct (str_truthy (trim name)) eqn:Hname; simpl; [|done].
  destruct (List.find _ cached); simpl; [done|].
  unfold folder_index.
  destruct (users s !! uid) as [U|] eqn:HU; simpl.
  - destruct (nonEmpty _) eqn:Hne; simpl.
    + rewrite get_folder_all_run. simpl.
      destruct (existsb _ _); simpl; [done|].
      destruct (str_truthy key); simpl; [|done].
      rewrite HU. simpl.
      destruct (includes (User.folders U) key); simpl; [done|]. done.
    + destruct (str_truthy key); simpl; [|done].
      rewrite HU. simpl.
      destruct (includes (User.folders U) key); simpl; [done|]. done.
  - destruct (str_truthy key); simpl; [|done].
    rewrite HU. simpl. done.
Qed.

Lemma write_user_folders_lookup_ne
    (u v : string) (l : list string) (m : gmap string User.t) :
  u ≠ v → write_user_folders u l m !! v = m !! v.
Proof.
  intros Hne. unfold write_user_folders.
  destruct (User.is_empty _).
  - by rewrite lookup_delete_ne.
  - by rewrite lookup_insert_ne.
Qed.

Lemma write_user_folders_lookup_snoc
    (u k : string) (l : list string) (m : gmap string User.t) :
  ∃ U, write_user_folders u (l ++ [k]) m !! u = Some U
       ∧ User.folders U = l ++ [k].
Proof.
  unfold write_user_folders.
  assert (Hne : User.is_empty
            (User.set_folders (l ++ [k]) (default User.blank (m !! u)))
          = false).
  { unfold User.is_empty. simpl. destruct (User.role _); [done|].
    by destruct l. }
  rewrite Hne. rewrite lookup_insert_eq. eauto.
Qed.

(** Whether [createFolder] returns depends on the caller's [users] node
    and on the folder records of the caller's index only. *)
Lemma createFolder_outcome_ext
    (uid : string) (cached : list Folder.t) (name key : string) (now : Z)
    (s s' : db) :
  users s' !! uid = users s !! uid →
  (∀ k, k ∈ folder_index s uid → folders s' !! k = folders s !! k) →
  outcome (run_op (createFolder (Some uid) cached name key now) s')
  = outcome (run_op (createFolder (Some uid) cached name key now) s).
Proof.
  intros Hu Hf. unfold createFolder. mstep.
  destruct (str_truthy (trim name)); simpl; [|done].
  destruct (List.find _ cached); simpl; [done|].
  rewrite Hu. unfold folder_index in Hf.
  destruct (users s !! uid) as [U|] eqn:HU; simpl.
  - set (ftc := List.filter _ (User.folders U)).
    assert (Hsnap : map (λ k, folders s' !! k) ftc
                    = map (λ k, folders s !! k) ftc).
    { apply map_ext_in. intros k Hk. apply Hf.
      apply list_elem_of_In. by apply filter_In in Hk as [Hk _]. }
    destruct (nonEmpty ftc); simpl.
    + cbv beta. rewrite !get_folder_all_run. simpl. rewrite Hsnap.
      destruct (existsb _ _); simpl; [done|].
      destruct (str_truthy key); simpl; [|done].
      rewrite Hu, HU. simpl.
      destruct (includes _ key); simpl; done.
    + destruct (str_truthy key); simpl; [|done].
      rewrite Hu, HU. simpl.
      destruct (includes _ key); simpl; done.
  - destruct (str_truthy key); simpl; [|done].
    rewrite Hu, HU. simpl. done.
Qed.

(** C5. After a [createFolder] of user [u] has returned, a second
    [createFolder] of [u] whose trimmed name is the same up to case throws
    'A folder with this name already exists' without a write, whether or
    not the folder list cached by the hook holds the new folder (a cached
    entry carrying the stored name of its id); and the first call does not
    make the same call by another user [v] fail: if it returns before, it
    returns after ([push] never yields a key of [v]'s index). *)
Theorem createFolder_duplicate_name
    (u v : string) (cachedA cachedA' cachedB : list Folder.t)
    (n1 n2 id1 id2 : string) (t1 t2 : Z) (s0 : db) :
  toLowerCase (trim n1) = toLowerCase (trim n2) →
  let r1 := run_op (createFolder (Some u) cachedA n1 id1 t1) s0 in
  outcome r1 = Ok id1 →
  (cache_coherent cachedA' (final r1) →
   run_op (createFolder (Some u) cachedA' n2 id2 t2) (final r1)
   = (Err "A folder with this name already exists", mkworld (final r1) []))
  ∧ (u ≠ v →
     id1 ∉ folder_index s0 v →
     outcome (run_op (createFolder (Some v) cachedB n2 id2 t2) s0) = Ok id2 →
     outcome (run_op (createFolder (Some v) cachedB n2 id2 t2) (final r1))
     = Ok id2).
Proof.
  intros Hlow r1 Hok.
  destruct (createFolder_ok u cachedA n1 id1 t1 s0 Hok) as [Hname Hfin].
  fold r1 in Hfin. set (s1 := final r1) in *.
  assert (HF1 : folders s1 !! id1
                = Some (Folder.mk id1 (trim n1) u t1 [] t1)).
  { rewrite Hfin. simpl. apply lookup_insert_eq. }
  clearbody s1 r1. split.
  - intros Hcoh.
    destruct (write_user_folders_lookup_snoc u id1 (folder_index s0 u)
                (users s0)) as (U1 & HU1 & HU1f).
    assert (HU1' : users s1 !! u = Some U1) by (by rewrite Hfin).
    unfold createFolder. mstep.
    rewrite <- (toLowerCase_truthy _ _ Hlow), Hname. simpl.
    destruct (List.find _ cachedA') as [c|] eqn:Hfind; simpl; [done|].
    rewrite HU1'. simpl.
    set (ftc := List.filter _ (User.folders U1)).
    assert (Hin : In id1 ftc).
    { apply filter_In. split.
      - rewrite HU1f. apply in_or_app. right. by left.
      - apply negb_true_iff. apply not_true_iff_false. intros Hex.
        apply existsb_exists in Hex as (c & Hc & Hid).
        apply bool_decide_eq_true in Hid.
        pose proof (find_none _ _ Hfind c Hc) as Hno. simpl in Hno.
        assert (Hnm : Folder.name c = trim n1).
        { rewrite (Hcoh c (Folder.mk id1 (trim n1) u t1 [] t1)); [done| |].
          - by apply list_elem_of_In.
          - by rewrite Hid. }
        unfold same_name in Hno. rewrite Hnm in Hno.
        by rewrite bool_decide_eq_true_2 in Hno. }
    destruct ftc as [|k0 rest] eqn:Hftc; [done|].
    change (nonEmpty (k0 :: rest)) with true. cbv beta iota.
    rewrite get_folder_all_run. simpl.
    assert (Hdup : existsb
              (λ snapshot, match snapshot with
                           | Some f => same_name (Folder.name f) (trim n2)
                           | None => false
                           end)
              (map (λ k, folders s1 !! k) (k0 :: rest)) = true).
    { apply existsb_exists. exists (folders s1 !! id1). split.
      - by apply (in_map (λ k, folders s1 !! k)).
      - rewrite HF1. simpl. unfold same_name.
        by apply bool_decide_eq_true. }
    simpl in Hdup. rewrite Hdup. simpl. done.
  - intros Huv Hfresh.
    assert (Hu : users s1 !! v = users s0 !! v).
    { rewrite Hfin. simpl. by apply write_user_folders_lookup_ne. }
    assert (Hf : ∀ k, k ∈ folder_index s0 v →
              folders s1 !! k = folders s0 !! k).
    { intros k Hk. rewrite Hfin. simpl. apply lookup_insert_ne.
      intros ->. done. }
    intros <-. by apply createFolder_outcome_ext.
Qed.

Lemma createFolder_duplicate_name_witness :
  let r1 := run_op (createFolder (Some "A") [] "Work" "F1" 1) store4 in
  run_op (createFolder (Some "A") [] "work" "F2" 2) (final r1)
  = (Err "A folder with this name already exists", mkworld (final r1) [])
  ∧ outcome (run_op (createFolder (Some "B") [] "work" "F2" 2) (final r1))
    = Ok "F2".
Proof.
  destruct (createFolder_duplicate_name "A" "B" [] [] [] "Work" "work"
              "F1" "F2" 1 2 store4) as [HA HB].
  - vm_compute. reflexivity.
  - vm_compute. reflexivity.
  - split.
    + apply HA. intros c F Hc. by apply elem_of_nil in Hc.
    + apply HB.
      * discriminate.
      * vm_compute. apply not_elem_of_nil.
      * vm_compute. reflexivity.
Defined.

(** ** The role rule *)

(** The rule at [users/$uid/role] grants exactly the writes of 'user' or
    'admin' by a signed-in writer whose stored role is 'root_admin'; it
    does not look at [$uid]. *)
Lemma users_uid_role_write_iff
    (auth : option string) (root : db) (newData : jsval) :
  Rules.users_uid_role_write auth root newData = true
  ↔ ∃ w, auth = Some w
         ∧ Rules.role_val root w = JStr "root_admin"
         ∧ (newData = JStr "user" ∨ newData = JStr "admin").
Proof.
  unfold Rules.users_uid_role_write, strict_eq.
  destruct auth as [w|]; [|split; [done | by intros (? & ? & _)]].
  rewrite andb_true_iff, orb_true_iff, !bool_decide_eq_true.
  split.
  - intros [Hr Hv]. eauto.
  - intros (w' & [= <-] & Hr & Hv). done.
Qed.

(** C8. The rules on [store3], where R is a root administrator and B a
    plain user: the rule at [users/R/role] grants R the write of 'admin' to
    R's own role, so that write is accepted; and the write of 'root_admin'
    by B to B's own role, which the role rule refuses, is accepted through
    the rule at [users/B]. *)
Theorem root_admin_own_role_writable :
  Rules.users_uid_role_write (Some "R") store3 (JStr "admin") = true
  ∧ Rules.role_write_allowed (Some "R") store3 "R" (JStr "admin") = true
  ∧ Rules.users_uid_role_write (Some "B") store3 (JStr "root_admin") = false
  ∧ Rules.role_write_allowed (Some "B") store3 "B" (JStr "root_admin") = true.
Proof. vm_compute. done. Qed.

(** ** Scheduling of the reconciliation pass *)

Lemma enter_while_processing
    (user : option string) (folderIds : list string) (h : Reconcile.hook) :
  Reconcile.isProcessing h = true → Reconcile.enter user folderIds h = h.
Proof. intros Hp. unfold Reconcile.enter. by rewrite Hp. Qed.

(** Nothing ever adds to [pendingUpdates]. *)
Lemma pendingUpdates_stays_empty
    (user : option string) (es : list Reconcile.event) (h : Reconcile.hook) :
  Reconcile.pendingUpdates h = [] →
  Reconcile.pendingUpdates (Reconcile.run user es h) = [].
Proof.
  revert h. induction es as [|e es IH]; intros h Hp; [done|].
  simpl. apply IH. destruct e as [ids|ids|]; simpl.
  - unfold Reconcile.enter. by destruct (_ || _).
  - destruct (bool_decide _); [|done].
    unfold Reconcile.settle. simpl. by rewrite Hp.
  - done.
Qed.

(** Between two teardowns passes do not overlap: at most one invocation is
    in flight, and [isProcessing] tells whether there is one. *)
Lemma at_most_one_in_flight
    (user : option string) (es : list Reconcile.event) (h : Reconcile.hook) :
  Forall (λ e, e ≠ Reconcile.Cleanup) es →
  Reconcile.pendingUpdates h = [] →
  (if Reconcile.isProcessing h then ∃ ids, Reconcile.inFlight h = [ids]
   else Reconcile.inFlight h = []) →
  let h' := Reconcile.run user es h in
  if Reconcile.isProcessing h' then ∃ ids, Reconcile.inFlight h' = [ids]
  else Reconcile.inFlight h' = [].
Proof.
  revert h. induction es as [|e es IH]; intros h Hes Hp Hinv; [done|].
  apply Forall_cons in Hes as [He Hes].
  simpl. apply IH; [done| |].
  - change (Reconcile.pendingUpdates (Reconcile.run user [e] h) = []).
    by apply pendingUpdates_stays_empty.
  - destruct e as [ids|ids|]; simpl; [| |done].
    + unfold Reconcile.enter.
      destruct (Reconcile.isProcessing h) eqn:Hproc; simpl; [by rewrite Hproc|].
      destruct (bool_decide (is_Some user)); simpl; [|by rewrite Hproc].
      rewrite Hinv. eauto.
    + destruct (Reconcile.isProcessing h) eqn:Hproc.
      * destruct Hinv as [ids' Hids]. rewrite Hids.
        destruct (decide (ids ∈ [ids'])) as [Hin|Hin];
          [rewrite bool_decide_eq_true_2 by done
          |rewrite bool_decide_eq_false_2 by done; rewrite Hproc; eauto].
        apply list_elem_of_singleton in Hin as ->.
        unfold Reconcile.settle. simpl. rewrite Hp. simpl.
        rewrite Hids. simpl. by rewrite bool_decide_eq_true_2.
      * rewrite Hinv. rewrite bool_decide_eq_false_2 by apply not_elem_of_nil.
        by rewrite Hproc.
Qed.

(** A teardown while a pass is in flight lets the next request start a
    second pass beside it. *)
Lemma cleanup_allows_overlap :
  Reconcile.inFlight
    (Reconcile.run (Some "A")
       [Reconcile.Request ["F1"]; Reconcile.Cleanup; Reconcile.Request ["F1"]]
       Reconcile.initial)
  = [["F1"]; ["F1"]].
Proof. vm_compute. done. Qed.

(** C3. A request for F2 that arrives while the pass over F1 is in flight:
    the hook is as if the request had not been made, and after the pass
    has finished nothing is in flight, nothing is pending and the only
    completed pass is the one over F1. *)
Theorem request_in_flight_is_dropped :
  Reconcile.run (Some "A")
    [Reconcile.Request ["F1"]; Reconcile.Request ["F2"]] Reconcile.initial
  = Reconcile.run (Some "A") [Reconcile.Request ["F1"]] Reconcile.initial
  ∧ Reconcile.run (Some "A")
      [Reconcile.Request ["F1"]; Reconcile.Request ["F2"];
       Reconcile.Finish ["F1"]]
      Reconcile.initial
    = Reconcile.mk false [] [] [["F1"]].
Proof. vm_compute. done. Qed.

(** * Further parts: proofs *)

(** ** Sorting *)

Section js_sort.
Context {A : Type} (cmp : A → A → Z).
Hypothesis cmp_total : ∀ a b, cmp a b ≤ 0 ∨ cmp b a ≤ 0.
Hypothesis cmp_trans : ∀ a b c, cmp a b ≤ 0 → cmp b c ≤ 0 → cmp a c ≤ 0.

Lemma sort_insert_perm (x : A) (l : list A) : sort_insert cmp x l ≡ₚ x :: l.
Proof.
  induction l as [|y r IH]; simpl; [done|].
  destruct (cmp x y <=? 0); [done|]. rewrite IH. apply Permutation_swap.
Qed.

Lemma js_sort_perm (l : list A) : js_sort cmp l ≡ₚ l.
Proof.
  induction l as [|x l IH]; simpl; [done|].
  rewrite sort_insert_perm. by rewrite IH.
Qed.

Lemma sort_insert_sorted (x : A) (l : list A) :
  StronglySorted (λ a b, cmp a b ≤ 0) l →
  StronglySorted (λ a b, cmp a b ≤ 0) (sort_insert cmp x l).
Proof.
  induction 1 as [|y r Hr IH Hy]; simpl.
  - repeat constructor.
  - destruct (Z.leb_spec (cmp x y) 0) as [Hle|Hgt].
    + constructor; [by constructor|]. constructor; [done|].
      eapply Forall_impl; [exact Hy|]. intros z Hz. by eapply cmp_trans.
    + constructor; [done|]. rewrite sort_insert_perm. constructor; [|done].
      destruct (cmp_total y x); [done|lia].
Qed.

Lemma js_sort_sorted (l : list A) :
  StronglySorted (λ a b, cmp a b ≤ 0) (js_sort cmp l).
Proof.
  induction l as [|x l IH]; simpl; [constructor|].
  by apply sort_insert_sorted.
Qed.

End js_sort.

Lemma StronglySorted_weaken {A} (R R' : A → A → Prop) (l : list A) :
  (∀ a b, R a b → R' a b) → StronglySorted R l → StronglySorted R' l.
Proof.
  intros HR. induction 1 as [|x l Hl IH Hx]; constructor; [done|].
  eapply Forall_impl; [exact Hx|]. intros y. apply HR.
Qed.

Lemma num_or_0 (a : Z) : num_or a 0 = a.
Proof. unfold num_or. destruct (Z.eqb_spec a 0); congruence. Qed.

Ltac cmp_notes :=
  unfold compareNotes; rewrite ?num_or_0;
  repeat case_bool_decide; try done; lia.

Lemma compareNotes_total (m : string) (a b : NoteWithId) :
  compareNotes m a b ≤ 0 ∨ compareNotes m b a ≤ 0.
Proof. cmp_notes. Qed.

Lemma compareNotes_trans (m : string) (a b c : NoteWithId) :
  compareNotes m a b ≤ 0 → compareNotes m b c ≤ 0 → compareNotes m a c ≤ 0.
Proof. cmp_notes. Qed.

(** X1. [sortNotes] returns the notes it was given, reordered: by
    [updatedAt], newest first, for 'newest'; oldest first for 'oldest'; by
    [contentLength], longest first, for 'longest'; shortest first for
    'shortest'; and newest first for every other method name. *)
Theorem sortNotes_orders (l : list NoteWithId) :
  (∀ m, sortNotes l m ≡ₚ l)
  ∧ StronglySorted (λ a b, Note.updatedAt b.2 ≤ Note.updatedAt a.2)
      (sortNotes l "newest")
  ∧ StronglySorted (λ a b, Note.updatedAt a.2 ≤ Note.updatedAt b.2)
      (sortNotes l "oldest")
  ∧ StronglySorted (λ a b, Note.contentLength b.2 ≤ Note.contentLength a.2)
      (sortNotes l "longest")
  ∧ StronglySorted (λ a b, Note.contentLength a.2 ≤ Note.contentLength b.2)
      (sortNotes l "shortest")
  ∧ ∀ m, m ≠ "newest" → m ≠ "oldest" → m ≠ "longest" → m ≠ "shortest" →
      StronglySorted (λ a b, Note.updatedAt b.2 ≤ Note.updatedAt a.2)
        (sortNotes l m).
Proof.
  assert (Hs : ∀ m, StronglySorted (λ a b, compareNotes m a b ≤ 0)
                      (sortNotes l m)).
  { intros m. apply js_sort_sorted.
    - apply compareNotes_total.
    - apply compareNotes_trans. }
  split; [intros m; apply js_sort_perm|].
  repeat split; try intros m H1 H2 H3 H4;
    (eapply StronglySorted_weaken; [|apply Hs]);
    intros a b; cmp_notes.
Qed.

(** X2. [sortNotes] is stable: the notes that compare equal to a given
    note come out in the order they came in. *)
Theorem sortNotes_stable (l : list NoteWithId) (m : string) (x : NoteWithId) :
  filter (λ y, compareNotes m x y = 0) (sortNotes l m)
  = filter (λ y, compareNotes m x y = 0) l.
Proof.
  assert (Hins : ∀ a L,
    filter (λ y, compareNotes m x y = 0) (sort_insert (compareNotes m) a L)
    = filter (λ y, compareNotes m x y = 0) (a :: L)).
  { intros a L. induction L as [|y r IH]; simpl; [done|].
    destruct (Z.leb_spec (compareNotes m a y) 0) as [Hle|Hgt]; [done|].
    rewrite (filter_cons _ y (sort_insert _ a r)), IH.
    rewrite !filter_cons.
    destruct (decide (compareNotes m x a = 0)) as [Ha|Ha];
      destruct (decide (compareNotes m x y = 0)) as [Hy|Hy]; try done.
    exfalso. revert Ha Hy Hgt. cmp_notes. }
  induction l as [|a l IH]; [done|].
  unfold sortNotes in *. simpl. rewrite Hins.
  rewrite !filter_cons. by rewrite IH.
Qed.

(** ** The subscription of [useNotes] *)

Lemma collectNotes_sound (uid : string) (children : list NoteWithId)
    (seenIds : list string) :
  NoDup (collectNotes uid seenIds children).*1
  ∧ ∀ k n, (k, n) ∈ collectNotes uid seenIds children →
      (k ∉ seenIds) ∧ Note.userId n = uid ∧ (k, n) ∈ children.
Proof.
  revert seenIds. induction children as [|[k0 n0] rest IH]; intros seenIds.
  - simpl. split; [constructor|]. intros k n Hin. by apply elem_of_nil in Hin.
  - simpl. destruct (decide (Note.userId n0 = uid)) as [Hu|Hu];
      [rewrite (bool_decide_eq_true_2 _ Hu)
      |rewrite (bool_decide_eq_false_2 _ Hu)]; simpl.
    + destruct (includes seenIds k0) eqn:Hseen; simpl.
      * destruct (IH seenIds) as [Hnd Hin]. split; [done|].
        intros k n Hkn. destruct (Hin k n Hkn) as (? & ? & ?).
        repeat split; try done. by right.
      * apply includes_false in Hseen.
        destruct (IH (k0 :: seenIds)) as [Hnd Hin]. split.
        -- constructor; [|done]. intros Hk0.
           apply list_elem_of_fmap in Hk0 as ([k n] & -> & Hkn).
           destruct (Hin k n Hkn) as (Hk & _). apply Hk. by left.
        -- intros k n Hkn. apply elem_of_cons in Hkn as [[= -> ->]|Hkn].
           ++ repeat split; try done. by left.
           ++ destruct (Hin k n Hkn) as (Hk & ? & ?).
              repeat split; try done; [|by right].
              intros Hs. apply Hk. by right.
    + destruct (IH seenIds) as [Hnd Hin]. split; [done|].
      intros k n Hkn. destruct (Hin k n Hkn) as (? & ? & ?).
      repeat split; try done. by right.
Qed.

Lemma collectNotes_complete (uid : string) (children : list NoteWithId)
    (seenIds : list string) (k : string) (n : Note.t) :
  NoDup children.*1 →
  (k, n) ∈ children → Note.userId n = uid → k ∉ seenIds →
  (k, n) ∈ collectNotes uid seenIds children.
Proof.
  revert seenIds. induction children as [|[k0 n0] rest IH];
    intros seenIds Hnd Hin Hu Hk.
  - by apply elem_of_nil in Hin.
  - rewrite fmap_cons in Hnd. apply NoDup_cons in Hnd as [Hk0 Hnd]. simpl.
    apply elem_of_cons in Hin as [[= <- <-]|Hin].
    + rewrite (bool_decide_eq_true_2 _ Hu).
      apply includes_false in Hk. rewrite Hk. simpl. by left.
    + assert (Hne : k ≠ k0).
      { intros ->. apply Hk0. apply list_elem_of_fmap. by exists (k0, n). }
      destruct (_ && _).
      * right. apply IH; try done. intros Hc.
        apply elem_of_cons in Hc as [?|?]; done.
      * by apply IH.
Qed.

(** X3. Whatever children the notes snapshot has and whatever the folder
    listener receives, the list handed to [setNotes] holds every key at
    most once, holds only notes of the user taken from the snapshot, and,
    when a folder other than 'all' is selected, only notes listed in that
    folder's [noteIds]. *)
Theorem handleNotesUpdate_sound
    (uid : string) (folderId : jsval) (children : list NoteWithId)
    (folderSnapshot : option Folder.t) :
  let r := handleNotesUpdate uid folderId children folderSnapshot in
  NoDup r.*1
  ∧ ∀ k n, (k, n) ∈ r →
      Note.userId n = uid ∧ (k, n) ∈ children
      ∧ (truthy folderId = true → folderId ≠ JStr "all" →
         ∃ F, folderSnapshot = Some F ∧ Folder.userId F = uid
              ∧ k ∈ Folder.noteIds F).
Proof.
  intros r. subst r. unfold handleNotesUpdate.
  destruct children as [|c rest] eqn:Hch.
  { split; [constructor|]. intros k n Hin. by apply elem_of_nil in Hin. }
  rewrite <- Hch. clear Hch c rest.
  destruct (collectNotes_sound uid children []) as [Hnd Hin].
  assert (Hempty : NoDup ([] : list NoteWithId).*1
            ∧ ∀ k n, (k, n) ∈ ([] : list NoteWithId) →
                Note.userId n = uid ∧ (k, n) ∈ children
                ∧ (truthy folderId = true → folderId ≠ JStr "all" →
                   ∃ F, folderSnapshot = Some F ∧ Folder.userId F = uid
                        ∧ k ∈ Folder.noteIds F)).
  { split; [constructor|]. intros k n Hkn. by apply elem_of_nil in Hkn. }
  destruct (truthy folderId) eqn:Htr; simpl.
  - unfold strict_eq. destruct (decide (folderId = JStr "all")) as [Hall|Hall];
      [rewrite (bool_decide_eq_true_2 _ Hall)
      |rewrite (bool_decide_eq_false_2 _ Hall)]; simpl.
    + split; [done|]. intros k n Hkn. destruct (Hin k n Hkn) as (_ & ? & ?).
      repeat split; try done.
    + destruct folderSnapshot as [F|]; [|done].
      destruct (decide (Folder.userId F = uid)) as [HF|HF];
        [rewrite (bool_decide_eq_true_2 _ HF)
        |rewrite (bool_decide_eq_false_2 _ HF)]; simpl; [|done].
      destruct (isArray (Folder.noteIds F)); [|done]. split.
      * assert (Hsub :
          (filter (λ note : NoteWithId,
                     includes (Folder.noteIds F) note.1 = true)
                  (collectNotes uid [] children)).*1
          `sublist_of` (collectNotes uid [] children).*1).
        { apply fmap_sublist. apply sublist_filter. }
        by eapply sublist_NoDup.
      * intros k n Hkn. apply list_elem_of_filter in Hkn as [Hinc Hkn].
        simpl in Hinc. apply includes_true in Hinc.
        destruct (Hin k n Hkn) as (_ & ? & ?).
        repeat split; try done. intros _ _. eauto.
  - split; [done|]. intros k n Hkn. destruct (Hin k n Hkn) as (_ & ? & ?).
    repeat split; try done.
Qed.

Lemma notes_query_elem (s : db) (uid k : string) (n : Note.t) :
  (k, n) ∈ notes_query s uid ↔ notes s !! k = Some n ∧ Note.userId n = uid.
Proof.
  unfold notes_query. rewrite list_elem_of_filter, elem_of_map_to_list.
  simpl. tauto.
Qed.

Lemma notes_query_NoDup (s : db) (uid : string) : NoDup (notes_query s uid).*1.
Proof.
  assert (Hsub : (notes_query s uid).*1 `sublist_of` (map_to_list (notes s)).*1).
  { apply fmap_sublist. apply sublist_filter. }
  eapply sublist_NoDup; [|exact Hsub]. apply NoDup_fst_map_to_list.
Qed.

Lemma collectNotes_query (s : db) (uid k : string) (n : Note.t) :
  (k, n) ∈ collectNotes uid [] (notes_query s uid)
  ↔ notes s !! k = Some n ∧ Note.userId n = uid.
Proof.
  rewrite <- notes_query_elem. split.
  - intros Hin. by apply collectNotes_sound in Hin as (_ & _ & ?).
  - intros Hin. apply collectNotes_complete; try done.
    + apply notes_query_NoDup.
    + by apply notes_query_elem in Hin as [_ ?].
    + apply not_elem_of_nil.
Qed.

(** The notes the subscription lists for a folder of a consistent
    store. *)
Lemma notes_view_folder_elem
    (s : db) (uid f : string) (F : Folder.t) (k : string) (n : Note.t) :
  consistent s →
  folders s !! f = Some F →
  Folder.userId F = uid →
  f ≠ "all" →
  (k, n) ∈ notes_view s uid (JStr f)
  ↔ notes s !! k = Some n ∧ Note.folderId n = Some f.
Proof.
  intros (Hkeys & Hown & Hfiled & Hbacked) HF HFu Hall.
  assert (Hf : str_truthy f = true).
  { apply str_truthy_ne. intros ->. unfold keys_nonempty in Hkeys. congruence. }
  unfold notes_view, handleNotesUpdate. simpl. rewrite Hf, HF. simpl.
  unfold strict_eq. rewrite (bool_decide_eq_false_2 (JStr f = JStr "all"))
    by congruence.
  rewrite (bool_decide_eq_true_2 _ HFu). simpl.
  split.
  - intros Hin.
    destruct (notes_query s uid) as [|c rest] eqn:Hq;
      [by apply elem_of_nil in Hin|].
    rewrite <- Hq in Hin. clear Hq c rest.
    destruct (isArray (Folder.noteIds F)); [|by apply elem_of_nil in Hin].
    apply list_elem_of_filter in Hin as [Hinc Hin]. simpl in Hinc.
    apply includes_true in Hinc. apply collectNotes_query in Hin as [Hn Hu].
    split; [done|].
    destruct (Hbacked f F k HF Hinc) as (n' & Hn' & Hf').
    congruence.
  - intros [Hn Hnf].
    destruct (Hfiled k n f Hn Hnf) as (F' & HF' & Hk).
    rewrite HF in HF'. injection HF' as <-.
    assert (Hu : Note.userId n = uid).
    { rewrite <- HFu. symmetry. by eapply Hown. }
    assert (Hin : (k, n) ∈ collectNotes uid [] (notes_query s uid))
      by (by apply collectNotes_query).
    destruct (notes_query s uid) as [|c rest] eqn:Hq;
      [by apply elem_of_nil in Hin|].
    rewrite <- Hq in *. clear Hq c rest.
    destruct (Folder.noteIds F) as [|k0 ids] eqn:Hids;
      [by apply elem_of_nil in Hk|].
    simpl. apply list_elem_of_filter. split; [|done].
    simpl. by apply includes_true.
Qed.

(** X4. On a consistent store, the list the subscription derives for a
    folder of the user holds exactly the notes filed in that folder. *)
Theorem notes_view_of_folder
    (s : db) (uid f : string) (F : Folder.t) (k : string) (n : Note.t) :
  consistent s →
  folders s !! f = Some F →
  Folder.userId F = uid →
  f ≠ "all" →
  (k, n) ∈ notes_view s uid (JStr f)
  ↔ notes s !! k = Some n ∧ Note.folderId n = Some f.
Proof. apply notes_view_folder_elem. Qed.

Lemma notes_view_of_folder_witness :
  ("N1", noteN1) ∈ notes_view store1 "A" (JStr "F1")
  ↔ notes store1 !! "N1" = Some noteN1 ∧ Note.folderId noteN1 = Some "F1".
Proof.
  apply (notes_view_of_folder store1 "A" "F1" folderF1 "N1" noteN1).
  - exact store1_consistent.
  - vm_compute. reflexivity.
  - reflexivity.
  - discriminate.
Defined.

(** X5. With no folder selected, or with 'all', the list the subscription
    derives holds exactly the notes of the store that belong to the
    user. *)
Theorem notes_view_all
    (s : db) (uid : string) (folderId : jsval) (k : string) (n : Note.t) :
  truthy folderId = false ∨ folderId = JStr "all" →
  (k, n) ∈ notes_view s uid folderId
  ↔ notes s !! k = Some n ∧ Note.userId n = uid.
Proof.
  intros Hsel. rewrite <- collectNotes_query.
  unfold notes_view, handleNotesUpdate.
  assert (Hcond : (truthy folderId
                   && negb (strict_eq folderId (JStr "all"))) = false).
  { destruct Hsel as [->| ->]; [done|]. unfold strict_eq.
    rewrite bool_decide_eq_true_2 by done. apply andb_false_r. }
  rewrite Hcond.
  destruct (notes_query s uid) as [|c rest] eqn:Hq; [|done].
  simpl. done.
Qed.

Lemma notes_view_all_witness :
  ("N1", noteN1) ∈ notes_view store1 "A" JNull
  ↔ notes store1 !! "N1" = Some noteN1 ∧ Note.userId noteN1 = "A".
Proof.
  apply (notes_view_all store1 "A" JNull "N1" noteN1). by left.
Defined.

(** ** The reconciliation pass *)

Lemma get_note_all_run (ids : list string) (w : world) :
  get_note_all ids w = (Ok (map (λ k, (k, notes (store w) !! k)) ids), w).
Proof.
  induction ids as [|k ids IH]; simpl; [done|].
  unfold bind, get_note, ret. simpl. by rewrite IH.
Qed.

Lemma List_filter_length_eq {A} (P : A → bool) (l : list A) :
  length (List.filter P l) = length l → List.filter P l = l.
Proof.
  induction l as [|x l IH]; simpl; [done|].
  destruct (P x); simpl.
  - intros [= Hlen]. by rewrite IH.
  - intros Hlen. pose proof (filter_length_le P l). lia.
Qed.

(** The kept ids as one filter of the list. *)
Lemma keptNoteIds_filter (s : db) (uid f : string) (ids : list string) :
  keptNoteIds s uid f ids
  = List.filter
      (λ k, match notes s !! k with
            | Some note =>
                bool_decide (Note.userId note = uid)
                && strict_eq (read_field (Note.folderId note)) (JStr f)
            | None => false
            end && str_truthy k)
      ids.
Proof.
  unfold keptNoteIds, validNoteIds.
  induction ids as [|k ids IH]; simpl; [done|].
  destruct (match notes s !! k with Some _ => _ | None => _ end); simpl;
    [|done].
  destruct (str_truthy k); simpl; by rewrite IH.
Qed.

Lemma elem_of_keptNoteIds (s : db) (uid f k : string) (ids : list string) :
  k ∈ keptNoteIds s uid f ids
  ↔ k ∈ ids ∧ k ≠ ""
    ∧ ∃ n, notes s !! k = Some n ∧ Note.userId n = uid
           ∧ Note.folderId n = Some f.
Proof.
  rewrite keptNoteIds_filter, list_elem_of_In, filter_In, <- list_elem_of_In.
  rewrite andb_true_iff, str_truthy_ne.
  destruct (notes s !! k) as [n|]; simpl.
  - rewrite andb_true_iff, bool_decide_eq_true. unfold strict_eq.
    rewrite bool_decide_eq_true. split.
    + intros (Hin & (Hu & Hf) & Hk). repeat split; try done.
      exists n. repeat split; try done.
      destruct (Note.folderId n); simpl in Hf; congruence.
    + intros (Hin & Hk & n' & [= <-] & Hu & Hf). repeat split; try done.
      by rewrite Hf.
  - split; [by intros (_ & ? & _)|by intros (_ & _ & ? & ? & _)].
Qed.

Lemma keptNoteIds_idemp (s : db) (uid f : string) (ids : list string) :
  keptNoteIds s uid f (keptNoteIds s uid f ids) = keptNoteIds s uid f ids.
Proof.
  rewrite !keptNoteIds_filter.
  induction ids as [|k ids IH]; simpl; [done|].
  destruct (_ && str_truthy k) eqn:Hk; simpl; [|done].
  by rewrite Hk, IH.
Qed.

Lemma keptNoteIds_same_length (s : db) (uid f : string) (ids : list string) :
  length (keptNoteIds s uid f ids) = length ids →
  keptNoteIds s uid f ids = ids.
Proof. rewrite keptNoteIds_filter. apply List_filter_length_eq. Qed.

Lemma keptNoteIds_notes (s s' : db) (uid f : string) (ids : list string) :
  notes s' = notes s → keptNoteIds s' uid f ids = keptNoteIds s uid f ids.
Proof. intros Hn. unfold keptNoteIds. by rewrite Hn. Qed.

(** One pass: notes and users stay, and a folder's list becomes what is
    kept of it when its id is among [folderIds]. *)
Lemma reconcileFolders_spec
    (uid : string) (now : Z) (folderIds : list string) (w : world) :
  let r := reconcileFolders uid now folderIds w in
  (∃ updatedFolders, r.1 = Ok updatedFolders)
  ∧ notes (store r.2) = notes (store w)
  ∧ users (store r.2) = users (store w)
  ∧ ∀ y, folder_rel
           (λ F, if decide (y ∈ folderIds)
                 then keptNoteIds (store w) uid y (Folder.noteIds F)
                 else Folder.noteIds F)
           (folders (store w) !! y) (folders (store r.2) !! y).
Proof.
  revert w. induction folderIds as [|f rest IH]; intros w r; subst r.
  - simpl. split; [eauto|]. split; [done|]. split; [done|].
    intros y. by apply folder_rel_refl.
  - destruct (folders (store w) !! f) as [F|] eqn:HF.
    + set (kept := keptNoteIds (store w) uid f (Folder.noteIds F)).
      (* the world after the folder of [f] has been handled *)
      set (w1 := ((if negb (bool_decide (length kept = length (Folder.noteIds F)))
                   then issue [FolderNoteIds f kept; FolderUpdatedAt f now]
                   else ret tt) w).2).
      assert (Hstep : (if negb (bool_decide (length kept
                                             = length (Folder.noteIds F)))
                       then issue [FolderNoteIds f kept; FolderUpdatedAt f now]
                       else ret tt) w = (Ok tt, w1)).
      { subst w1. by destruct (negb _). }
      assert (Hw1 : notes (store w1) = notes (store w)
                    ∧ users (store w1) = users (store w)
                    ∧ (∀ y, y ≠ f →
                         folders (store w1) !! y = folders (store w) !! y)
                    ∧ ∃ F1, folders (store w1) !! f = Some F1
                            ∧ Folder.userId F1 = Folder.userId F
                            ∧ Folder.noteIds F1 = kept).
      { subst w1.
        destruct (decide (length kept = length (Folder.noteIds F))) as [Hl|Hl];
          [rewrite (bool_decide_eq_true_2 _ Hl)
          |rewrite (bool_decide_eq_false_2 _ Hl)]; simpl.
        - repeat split; try done. exists F. repeat split; try done.
          symmetry. by apply keptNoteIds_same_length.
        - repeat split; try done.
          + intros y Hy. by rewrite !lookup_alter_ne.
          + rewrite !lookup_alter_eq, HF. simpl. eauto. }
      destruct Hw1 as (Hn1 & Hu1 & Hother & F1 & HF1 & HF1u & HF1ids).
      destruct (IH w1) as ((upd & Hupd) & Hn & Hu & Hrel).
      destruct (reconcileFolders uid now rest w1) as [res w2] eqn:Hrec.
      simpl in Hupd, Hn, Hu, Hrel. subst res.
      assert (Hrun : ∃ e, reconcileFolders uid now (f :: rest) w
                          = (Ok (e :: upd), w2)).
      { cbn [reconcileFolders]. unfold bind at 1. unfold get_folder at 1.
        rewrite HF. unfold bind at 1. rewrite get_note_all_run.
        fold (keptNoteIds (store w) uid f (Folder.noteIds F)). fold kept.
        unfold bind at 1. rewrite Hstep. unfold bind at 1. rewrite Hrec.
        unfold ret. eauto. }
      destruct Hrun as [e Hrun]. rewrite Hrun. simpl.
      split; [eauto|]. split; [congruence|]. split; [congruence|].
      intros y. specialize (Hrel y). unfold folder_rel in *.
      destruct (decide (y = f)) as [->|Hy].
      * rewrite HF. rewrite HF1 in Hrel.
        destruct (folders (store w2) !! f) as [F2|]; [|done].
        destruct Hrel as [Hu2 Hids2]. split; [congruence|].
        rewrite decide_True by left. rewrite Hids2.
        destruct (decide (f ∈ rest)); [|done].
        rewrite HF1ids.
        rewrite (keptNoteIds_notes (store w) (store w1)) by done.
        apply keptNoteIds_idemp.
      * rewrite Hother in Hrel by done.
        destruct (folders (store w) !! y) as [Fy|],
          (folders (store w2) !! y) as [F2|]; try done.
        destruct Hrel as [Hu2 Hids2]. split; [done|]. rewrite Hids2.
        rewrite (keptNoteIds_notes (store w) (store w1)) by done.
        destruct (decide (y ∈ rest)) as [Hin|Hin].
        -- rewrite decide_True; [done|]. by right.
        -- rewrite decide_False; [done|]. intros Hc.
           apply elem_of_cons in Hc as [?|?]; done.
    + assert (Hrun : reconcileFolders uid now (f :: rest) w
                     = reconcileFolders uid now rest w).
      { cbn [reconcileFolders]. unfold bind at 1. unfold get_folder at 1.
        by rewrite HF. }
      rewrite Hrun.
      destruct (IH w) as (Hok & Hn & Hu & Hrel).
      split; [done|]. split; [done|]. split; [done|].
      intros y. specialize (Hrel y). unfold folder_rel in *.
      destruct (decide (y = f)) as [->|Hy].
      * rewrite HF in *. by destruct (folders _ !! f).
      * destruct (folders (store w) !! y) as [Fy|],
          (folders (store (reconcileFolders uid now rest w).2) !! y) as [F2|];
          try done.
        destruct Hrel as [Hu2 Hids2]. split; [done|]. rewrite Hids2.
        destruct (decide (y ∈ rest)) as [Hin|Hin].
        -- rewrite decide_True; [done|]. by right.
        -- rewrite decide_False; [done|]. intros Hc.
           apply elem_of_cons in Hc as [?|?]; done.
Qed.

Lemma reconcileFolders_noop
    (uid : string) (now : Z) (folderIds : list string) (w : world) :
  (∀ f F, f ∈ folderIds → folders (store w) !! f = Some F →
     keptNoteIds (store w) uid f (Folder.noteIds F) = Folder.noteIds F) →
  (reconcileFolders uid now folderIds w).2 = w.
Proof.
  induction folderIds as [|f rest IH]; intros Hkept; [done|].
  assert (Hrest : (reconcileFolders uid now rest w).2 = w).
  { apply IH. intros g G Hg. apply Hkept. by right. }
  cbn [reconcileFolders]. unfold bind at 1. unfold get_folder at 1.
  destruct (folders (store w) !! f) as [F|] eqn:HF; [|done].
  unfold bind at 1. rewrite get_note_all_run.
  fold (keptNoteIds (store w) uid f (Folder.noteIds F)).
  rewrite (Hkept f F) by (done || left).
  rewrite bool_decide_eq_true_2 by done. simpl.
  unfold bind at 1. unfold ret at 1. unfold bind at 1.
  destruct (reconcileFolders uid now rest w) as [[upd|e] w2]; simpl in *;
    by subst.
Qed.

Lemma List_filter_all {A} (P : A → bool) (l : list A) :
  (∀ x, In x l → P x = true) → List.filter P l = l.
Proof.
  induction l as [|x l IH]; intros HP; simpl; [done|].
  rewrite HP by (by left). rewrite IH; [done|].
  intros y Hy. apply HP. by right.
Qed.

Lemma keptNoteIds_sublist (s : db) (uid f : string) (ids : list string) :
  keptNoteIds s uid f ids `sublist_of` ids.
Proof.
  rewrite keptNoteIds_filter.
  induction ids as [|k ids IH]; simpl; [done|].
  destruct (_ && _); by constructor.
Qed.

(** X6. After a pass of [updateFoldersList] over [folderIds], every id
    left in the [noteIds] of a folder among [folderIds] names a note that
    exists, belongs to the user and carries that folder as its
    [folderId]. *)
Theorem reconcileFolders_repairs
    (uid : string) (now : Z) (folderIds : list string) (s : db)
    (f k : string) (F' : Folder.t) :
  let r := run_op (reconcileFolders uid now folderIds) s in
  f ∈ folderIds →
  folders (final r) !! f = Some F' →
  k ∈ Folder.noteIds F' →
  ∃ n, notes (final r) !! k = Some n
       ∧ Note.userId n = uid
       ∧ Note.folderId n = Some f.
Proof.
  intros r Hf HF' Hk. subst r. unfold run_op, final in *.
  destruct (reconcileFolders_spec uid now folderIds (mkworld s []))
    as (_ & Hn & _ & Hrel).
  simpl in Hn, Hrel. specialize (Hrel f). rewrite HF' in Hrel.
  destruct (folders s !! f) as [F|]; simpl in Hrel; [|done].
  destruct Hrel as [_ Hids]. rewrite decide_True in Hids by done.
  rewrite Hids in Hk. apply elem_of_keptNoteIds in Hk as (_ & _ & n & ? & ? & ?).
  exists n. by rewrite Hn.
Qed.

Lemma reconcileFolders_repairs_witness :
  ∃ n, notes (final (run_op (reconcileFolders "A" 50 ["F1"; "F2"]) store1))
         !! "N1" = Some n
       ∧ Note.userId n = "A"
       ∧ Note.folderId n = Some "F1".
Proof.
  apply (reconcileFolders_repairs "A" 50 ["F1"; "F2"] store1 "F1" "N1" folderF1).
  - by left.
  - vm_compute. reflexivity.
  - by left.
Defined.

(** X7. A pass of [updateFoldersList] returns and only prunes: notes and
    user records are as before, every folder keeps its owner, the list of
    a folder is a sublist of the old one, and a folder that is not among
    [folderIds] keeps its list. *)
Theorem reconcileFolders_only_prunes
    (uid : string) (now : Z) (folderIds : list string) (s : db) :
  let r := run_op (reconcileFolders uid now folderIds) s in
  (∃ updatedFolders, outcome r = Ok updatedFolders)
  ∧ notes (final r) = notes s
  ∧ users (final r) = users s
  ∧ ∀ y, match folders s !! y, folders (final r) !! y with
         | None, None => True
         | Some F, Some F' =>
             Folder.userId F' = Folder.userId F
             ∧ Folder.noteIds F' `sublist_of` Folder.noteIds F
             ∧ (y ∉ folderIds → Folder.noteIds F' = Folder.noteIds F)
         | _, _ => False
         end.
Proof.
  intros r. subst r. unfold run_op, final, outcome.
  destruct (reconcileFolders_spec uid now folderIds (mkworld s []))
    as (Hok & Hn & Hu & Hrel).
  simpl in *. repeat split; try done.
  intros y. specialize (Hrel y). unfold folder_rel in Hrel.
  destruct (folders s !! y) as [F|],
    (folders (store (reconcileFolders uid now folderIds (mkworld s [])).2) !! y)
    as [F'|]; try done.
  destruct Hrel as [HuF Hids]. split; [done|]. rewrite Hids.
  destruct (decide (y ∈ folderIds)); split; try done.
  apply keptNoteIds_sublist.
Qed.

(** X8. A second pass of [updateFoldersList] over the same ids, right
    after the first, issues no write and leaves the store of the first. *)
Theorem reconcileFolders_twice
    (uid : string) (now1 now2 : Z) (folderIds : list string) (s : db) :
  let r1 := run_op (reconcileFolders uid now1 folderIds) s in
  let r2 := run_op (reconcileFolders uid now2 folderIds) (final r1) in
  writes r2 = [] ∧ final r2 = final r1.
Proof.
  intros r1 r2. subst r2. unfold run_op, writes, final.
  rewrite reconcileFolders_noop; [done|].
  intros f F' Hf HF'. simpl in *.
  subst r1. unfold run_op in *.
  destruct (reconcileFolders_spec uid now1 folderIds (mkworld s []))
    as (_ & Hn & _ & Hrel).
  simpl in Hn, Hrel. specialize (Hrel f). rewrite HF' in Hrel.
  destruct (folders s !! f) as [F|]; simpl in Hrel; [|done].
  destruct Hrel as [_ Hids]. rewrite decide_True in Hids by done.
  rewrite Hids. rewrite (keptNoteIds_notes s) by done.
  apply keptNoteIds_idemp.
Qed.

(** X9. On a consistent store whose note keys are non-empty, a pass of
    [updateFoldersList] over folders of the user issues no write. *)
Theorem reconcileFolders_consistent_noop
    (uid : string) (now : Z) (folderIds : list string) (s : db) :
  consistent s →
  notes s !! "" = None →
  (∀ f F, f ∈ folderIds → folders s !! f = Some F → Folder.userId F = uid) →
  let r := run_op (reconcileFolders uid now folderIds) s in
  writes r = [] ∧ final r = s.
Proof.
  intros (Hkeys & Hown & Hfiled & Hbacked) Hnk Hmine r. subst r.
  unfold run_op, writes, final.
  rewrite reconcileFolders_noop; [done|].
  intros f F Hf HF. simpl in *.
  rewrite keptNoteIds_filter. apply List_filter_all.
  intros k Hk. apply list_elem_of_In in Hk.
  destruct (Hbacked f F k HF Hk) as (n & Hn & Hnf).
  rewrite Hn, Hnf. simpl.
  assert (Hu : Note.userId n = uid).
  { rewrite <- (Hmine f F Hf HF). symmetry. by eapply Hown. }
  rewrite (bool_decide_eq_true_2 _ Hu). unfold strict_eq.
  rewrite bool_decide_eq_true_2 by done. simpl.
  apply str_truthy_ne. intros ->. congruence.
Qed.

Lemma reconcileFolders_consistent_noop_witness :
  let r := run_op (reconcileFolders "A" 50 ["F1"; "F2"]) store1 in
  writes r = [] ∧ final r = store1.
Proof.
  apply (reconcileFolders_consistent_noop "A" 50 ["F1"; "F2"] store1).
  - exact store1_consistent.
  - vm_compute. reflexivity.
  - intros f F Hf HF. simpl in HF. rewrite lookup_insert in HF.
    case_decide.
    + by injection HF as <-.
    + apply lookup_singleton_Some in HF as [_ <-]. done.
Defined.

(** ** The cached folder list *)

Lemma compareFolders_total (a b : Folder.t) :
  compareFolders a b ≤ 0 ∨ compareFolders b a ≤ 0.
Proof. unfold compareFolders. rewrite !num_or_0. lia. Qed.

Lemma compareFolders_trans (a b c : Folder.t) :
  compareFolders a b ≤ 0 → compareFolders b c ≤ 0 → compareFolders a c ≤ 0.
Proof. unfold compareFolders. rewrite !num_or_0. lia. Qed.

Lemma folders_sorted (l : list Folder.t) :
  StronglySorted (λ a b, Folder.updatedAt b ≤ Folder.updatedAt a)
    (js_sort compareFolders l).
Proof.
  eapply StronglySorted_weaken;
    [|apply js_sort_sorted;
      [apply compareFolders_total | apply compareFolders_trans]].
  intros a b. unfold compareFolders. rewrite !num_or_0. lia.
Qed.

Lemma map_set_elem (f : Folder.t) (m : list Folder.t) (g : Folder.t) :
  NoDup (Folder.id <$> m) →
  g ∈ map_set f m ↔ g = f ∨ (g ∈ m ∧ Folder.id g ≠ Folder.id f).
Proof.
  induction m as [|h m IH]; intros Hnd; simpl.
  - rewrite list_elem_of_singleton, elem_of_nil. tauto.
  - rewrite fmap_cons in Hnd. apply NoDup_cons in Hnd as [Hh Hnd].
    destruct (decide (Folder.id h = Folder.id f)) as [He|He];
      [rewrite (bool_decide_eq_true_2 _ He)
      |rewrite (bool_decide_eq_false_2 _ He)];
      rewrite !elem_of_cons.
    + split; [intros [->|Hg]; [by left|]|].
      * right. split; [by right|]. intros Hid. apply Hh.
        rewrite He, <- Hid. by apply list_elem_of_fmap_2.
      * intros [->|[[->|Hg] Hid]]; [by left|done|by right].
    + rewrite IH by done. split.
      * intros [->|[->|[Hg Hid]]]; [|by left|]; right; split; try done;
          [by left|by right].
      * intros [->|[[->|Hg] Hid]]; [right; by left|by left|].
        right. right. done.
Qed.

Lemma map_set_NoDup (f : Folder.t) (m : list Folder.t) :
  NoDup (Folder.id <$> m) → NoDup (Folder.id <$> map_set f m).
Proof.
  induction m as [|h m IH]; intros Hnd; simpl.
  - repeat constructor. apply not_elem_of_nil.
  - rewrite fmap_cons in Hnd. apply NoDup_cons in Hnd as [Hh Hnd].
    destruct (decide (Folder.id h = Folder.id f)) as [He|He];
      [rewrite (bool_decide_eq_true_2 _ He)
      |rewrite (bool_decide_eq_false_2 _ He)];
      rewrite fmap_cons; apply NoDup_cons.
    + split; [by rewrite <- He|done].
    + split; [|by apply IH]. intros Hin.
      apply list_elem_of_fmap in Hin as (g & Hid & Hg).
      apply map_set_elem in Hg; [|done].
      destruct Hg as [->|[Hg _]]; [done|].
      apply Hh. rewrite Hid. by apply list_elem_of_fmap_2.
Qed.

Lemma map_set_all (l m : list Folder.t) :
  NoDup (Folder.id <$> m) →
  let r := foldl (λ m f, map_set f m) m l in
  NoDup (Folder.id <$> r)
  ∧ (∀ g, g ∈ r → g ∈ m ∨ g ∈ l)
  ∧ (∀ g, g ∈ m ∨ g ∈ l → Folder.id g ∈ Folder.id <$> r)
  ∧ (∀ g, g ∈ r → Folder.id g ∈ Folder.id <$> l → g ∈ l).
Proof.
  revert m. induction l as [|f l IH]; intros m Hnd r; subst r; simpl.
  - split; [done|]. split; [by left|]. split.
    + intros g [Hg|Hg]; [by apply list_elem_of_fmap_2|].
      by apply elem_of_nil in Hg.
    + intros g _ Hg. by apply elem_of_nil in Hg.
  - destruct (IH (map_set f m) (map_set_NoDup f m Hnd))
      as (Hnd' & Hfrom & Hids & Hsup).
    split; [done|]. split; [|split].
    + intros g Hg. destruct (Hfrom g Hg) as [Hm|Hl]; [|right; by right].
      apply map_set_elem in Hm; [|done].
      destruct Hm as [->|[Hm _]]; [|by left].
      right. by left.
    + intros g [Hg|Hg].
      * destruct (decide (Folder.id g = Folder.id f)) as [He|He].
        -- rewrite He. apply Hids. left. apply map_set_elem; [done|].
           by left.
        -- apply Hids. left. apply map_set_elem; [done|]. by right.
      * apply elem_of_cons in Hg as [->|Hg].
        -- apply Hids. left. apply map_set_elem; [done|]. by left.
        -- apply Hids. by right.
    + intros g Hg Hid.
      destruct (decide (Folder.id g ∈ Folder.id <$> l)) as [Hl|Hl].
      * right. by apply Hsup.
      * apply elem_of_cons in Hid as [Hid|Hid]; [|done].
        destruct (Hfrom g Hg) as [Hm|Hgl]; [|by right].
        apply map_set_elem in Hm; [|done].
        destruct Hm as [->|[_ Hne]]; [|done].
        by left.
Qed.

(** X10. The cached list [updateFoldersList] installs holds each folder id
    once, is ordered by [updatedAt], newest first, holds the ids of the
    old list and of the updated folders and no others, and for an id among
    the updated folders holds an updated record, not the cached one. *)
Theorem mergeUpdatedFolders_merges (prevFolders updatedFolders : list Folder.t) :
  let r := mergeUpdatedFolders prevFolders updatedFolders in
  NoDup (Folder.id <$> r)
  ∧ StronglySorted (λ a b, Folder.updatedAt b ≤ Folder.updatedAt a) r
  ∧ (∀ i, i ∈ Folder.id <$> r
          ↔ i ∈ Folder.id <$> prevFolders ∨ i ∈ Folder.id <$> updatedFolders)
  ∧ (∀ g, g ∈ r → Folder.id g ∈ Folder.id <$> updatedFolders →
          g ∈ updatedFolders).
Proof.
  intros r. subst r. unfold mergeUpdatedFolders.
  destruct (map_set_all prevFolders [] (NoDup_nil_2))
    as (Hnd1 & Hfrom1 & Hids1 & _).
  destruct (map_set_all updatedFolders _ Hnd1)
    as (Hnd2 & Hfrom2 & Hids2 & Hsup2).
  simpl in *.
  set (m1 := foldl (λ m f, map_set f m) [] prevFolders) in *.
  set (m2 := foldl (λ m f, map_set f m) m1 updatedFolders) in *.
  pose proof (js_sort_perm compareFolders m2) as Hperm.
  split; [by rewrite Hperm|]. split; [apply folders_sorted|]. split.
  - intros i. rewrite Hperm. split.
    + intros Hi. apply list_elem_of_fmap in Hi as (g & -> & Hg).
      destruct (Hfrom2 g Hg) as [Hm1|Hu].
      * destruct (Hfrom1 g Hm1) as [Hn|Hp]; [by apply elem_of_nil in Hn|].
        left. by apply list_elem_of_fmap_2.
      * right. by apply list_elem_of_fmap_2.
    + intros [Hi|Hi]; apply list_elem_of_fmap in Hi as (g & -> & Hg).
      * assert (Hm1 : Folder.id g ∈ Folder.id <$> m1)
          by (apply Hids1; by right).
        apply list_elem_of_fmap in Hm1 as (g' & -> & Hg').
        apply Hids2. by left.
      * apply Hids2. by right.
  - intros g Hg. rewrite Hperm in Hg. by apply Hsup2.
Qed.

(** A snapshot whose [updatedAt] is that of the cached entry leaves the
    list as it is. *)
Lemma onFolderSnapshot_skip
    (user : option string) (folderId : string) (folderData : Folder.t)
    (now : Z) (prev : list Folder.t) (existing : Folder.t) :
  List.find (λ f, bool_decide (Folder.id f = folderId)) prev = Some existing →
  Folder.updatedAt existing = Folder.updatedAt folderData →
  onFolderSnapshot user folderId folderData now prev = prev.
Proof.
  intros Hfind Heq. unfold onFolderSnapshot. rewrite Hfind.
  by rewrite bool_decide_eq_true_2.
Qed.

(** X11. When the cached list has no entry for the folder, or its first
    entry for it has another [updatedAt] than the snapshot, the new list
    is ordered by [updatedAt], newest first, and consists of the entries
    of the other folders and exactly one entry for this folder, which
    carries the snapshot's [noteIds] and its name ('Unnamed Folder' for an
    empty one); distinct ids stay distinct. *)
Theorem onFolderSnapshot_rebuilds
    (user : option string) (folderId : string) (folderData : Folder.t)
    (now : Z) (prev : list Folder.t) :
  let cached := List.find (λ f, bool_decide (Folder.id f = folderId)) prev in
  let r := onFolderSnapshot user folderId folderData now prev in
  (cached = None
   ∨ ∃ e, cached = Some e
          ∧ Folder.updatedAt e ≠ Folder.updatedAt folderData) →
  StronglySorted (λ a b, Folder.updatedAt b ≤ Folder.updatedAt a) r
  ∧ (NoDup (Folder.id <$> prev) → NoDup (Folder.id <$> r))
  ∧ ∃ nf, filter (λ f, Folder.id f = folderId) r = [nf]
          ∧ Folder.noteIds nf = Folder.noteIds folderData
          ∧ Folder.name nf = str_or (Folder.name folderData) "Unnamed Folder"
          ∧ r ≡ₚ filter (λ f, Folder.id f ≠ folderId) prev ++ [nf].
Proof.
  intros cached r Hcase. subst cached r. unfold onFolderSnapshot.
  set (nf := Folder.mk folderId _ _ _ _ _).
  set (others := filter (λ f, Folder.id f ≠ folderId) prev).
  assert (Hr : match List.find (λ f, bool_decide (Folder.id f = folderId)) prev
               with
               | Some existing =>
                   if bool_decide (Folder.updatedAt existing
                                   = Folder.updatedAt folderData)
                   then prev
                   else js_sort compareFolders (others ++ [nf])
               | None => js_sort compareFolders (others ++ [nf])
               end = js_sort compareFolders (others ++ [nf])).
  { destruct Hcase as [->|(e & -> & Hne)]; [done|].
    by rewrite bool_decide_eq_false_2. }
  rewrite Hr. clear Hr Hcase.
  assert (Hnone : filter (λ f, Folder.id f = folderId) others = []).
  { subst others. clear. induction prev as [|h prev IH]; [done|].
    rewrite filter_cons. destruct (decide (Folder.id h ≠ folderId)) as [Hh|Hh].
    - rewrite filter_cons_False by done. exact IH.
    - exact IH. }
  pose proof (js_sort_perm compareFolders (others ++ [nf])) as Hperm.
  split; [apply folders_sorted|]. split.
  - intros Hnd. rewrite Hperm, fmap_app. apply NoDup_app. split; [|split].
    + assert (Hsub : Folder.id <$> others `sublist_of` Folder.id <$> prev).
      { apply fmap_sublist. apply sublist_filter. }
      by eapply sublist_NoDup.
    + intros i Hi Hnf. simpl in Hnf. apply list_elem_of_singleton in Hnf as ->.
      apply list_elem_of_fmap in Hi as (g & Hid & Hg).
      apply list_elem_of_filter in Hg as [Hg _]. done.
    + simpl. repeat constructor. apply not_elem_of_nil.
  - exists nf. split; [|done].
    apply Permutation_singleton_r.
    rewrite Hperm, filter_app, Hnone. simpl.
    by rewrite filter_cons_True, filter_nil.
Qed.

Lemma onFolderSnapshot_rebuilds_witness :
  let r := onFolderSnapshot (Some "A") "F2"
             (Folder.mk "F2" "Work" "A" 11 ["N9"] 30) 40 [folderF1; folderF2] in
  StronglySorted (λ a b, Folder.updatedAt b ≤ Folder.updatedAt a) r
  ∧ (NoDup (Folder.id <$> [folderF1; folderF2]) → NoDup (Folder.id <$> r))
  ∧ ∃ nf, filter (λ f, Folder.id f = "F2") r = [nf]
          ∧ Folder.noteIds nf = ["N9"]
          ∧ Folder.name nf = str_or "Work" "Unnamed Folder"
          ∧ r ≡ₚ filter (λ f, Folder.id f ≠ "F2") [folderF1; folderF2] ++ [nf].
Proof.
  apply (onFolderSnapshot_rebuilds (Some "A") "F2"
           (Folder.mk "F2" "Work" "A" 11 ["N9"] 30) 40 [folderF1; folderF2]).
  right. exists folderF2. split; [reflexivity|]. simpl. lia.
Defined.

(** ** updateFolder *)

(** Owners and memberships of folders decide consistency. *)
Lemma folder_fields_consistent (s s' : db) :
  notes s' = notes s →
  (∀ y, folder_rel Folder.noteIds (folders s !! y) (folders s' !! y)) →
  consistent s → consistent s'.
Proof.
  intros Hn Hrel (Hkeys & Hown & Hfiled & Hbacked).
  assert (Hback : ∀ y F', folders s' !! y = Some F' →
            ∃ F, folders s !! y = Some F
                 ∧ Folder.userId F' = Folder.userId F
                 ∧ Folder.noteIds F' = Folder.noteIds F).
  { intros y F' HF'. specialize (Hrel y). rewrite HF' in Hrel.
    destruct (folders s !! y) as [F|]; simpl in Hrel; [|done]. eauto. }
  assert (Hforth : ∀ y F, folders s !! y = Some F →
            ∃ F', folders s' !! y = Some F'
                 ∧ Folder.noteIds F' = Folder.noteIds F).
  { intros y F HF. specialize (Hrel y). rewrite HF in Hrel.
    destruct (folders s' !! y) as [F'|]; simpl in Hrel; [|done].
    exists F'. tauto. }
  unfold consistent, keys_nonempty, same_owner, membership_symmetric,
    notes_filed, folders_backed. rewrite Hn.
  split; [|split; [|split]].
  - specialize (Hrel ""). unfold keys_nonempty in Hkeys.
    rewrite Hkeys in Hrel. by destruct (folders s' !! "").
  - intros k n f F' Hk Hf HF'.
    destruct (Hback f F' HF') as (F & HF & Hu & _). rewrite Hu.
    by eapply Hown.
  - intros k n f Hk Hf. destruct (Hfiled k n f Hk Hf) as (F & HF & Hin).
    destruct (Hforth f F HF) as (F' & HF' & Hids).
    exists F'. by rewrite Hids.
  - intros f F' k HF' Hin.
    destruct (Hback f F' HF') as (F & HF & _ & Hids).
    rewrite Hids in Hin. by eapply Hbacked.
Qed.

(** X12. A rename by the folder's owner to a non-empty name throws
    'A folder with this name already exists' exactly when another folder
    of the caller's index has this name, trimmed, up to case; the folder
    itself does not count. *)
Theorem updateFolder_conflict
    (uid folderId name : string) (updates : FolderUpdates) (now : Z)
    (F : Folder.t) (U : User.t) (s : db) :
  folders s !! folderId = Some F →
  Folder.userId F = uid →
  users s !! uid = Some U →
  given_name updates = Some name →
  (updateFolder (Some uid) folderId updates now s).1
  = Err "A folder with this name already exists"
  ↔ ∃ id G, id ∈ User.folders U ∧ id ≠ folderId
            ∧ folders s !! id = Some G
            ∧ toLowerCase (Folder.name G) = toLowerCase (trim name).
Proof.
  intros HF Hu HU Hname. unfold updateFolder. rewrite HF.
  rewrite (bool_decide_eq_true_2 _ Hu). simpl. rewrite Hname, HU.
  set (others := map _ _).
  destruct (existsb _ others) eqn:Hex; simpl.
  - split; [intros _|done].
    apply existsb_exists in Hex as ([G|] & Hin & HG); [|done].
    apply bool_decide_eq_true in HG.
    subst others. apply in_map_iff in Hin as (id & Hid & Hin).
    apply filter_In in Hin as [Hin Hne].
    apply negb_true_iff, bool_decide_eq_false in Hne.
    exists id, G. repeat split; try done. by apply list_elem_of_In.
  - split; [done|]. intros (id & G & Hin & Hne & HG & Hnm).
    apply not_true_iff_false in Hex. exfalso. apply Hex.
    apply existsb_exists. exists (Some G). split.
    + subst others. apply in_map_iff. exists id. split; [done|].
      apply filter_In. split; [by apply list_elem_of_In|].
      apply negb_true_iff. by apply bool_decide_eq_false.
    + by apply bool_decide_eq_true.
Qed.

Lemma updateFolder_conflict_witness :
  (updateFolder (Some "A") "F1" (mkfupd (Some " WORK ") None None) 50 store1).1
  = Err "A folder with this name already exists"
  ↔ ∃ id G, id ∈ User.folders userA ∧ id ≠ "F1"
            ∧ folders store1 !! id = Some G
            ∧ toLowerCase (Folder.name G) = toLowerCase (trim " WORK ").
Proof.
  apply (updateFolder_conflict "A" "F1" " WORK "
           (mkfupd (Some " WORK ") None None) 50 folderF1 userA store1);
    vm_compute; reflexivity.
Defined.

(** What [updateFolder] leaves: the store as it was when it throws, and
    otherwise the same store with the record of the folder updated. *)
Lemma updateFolder_effect
    (user : option string) (folderId : string) (updates : FolderUpdates)
    (now : Z) (s : db) :
  let r := updateFolder user folderId updates now s in
  match r.1 with
  | Err _ => r.2 = s
  | Ok _ =>
      ∃ uid F, user = Some uid ∧ folders s !! folderId = Some F
               ∧ Folder.userId F = uid
               ∧ r.2 = mkdb (notes s)
                         (<[folderId := apply_updateData updates now F]>
                            (folders s))
                         (users s)
  end.
Proof.
  intros r. subst r. unfold updateFolder.
  destruct user as [uid|]; [|done].
  destruct (folders s !! folderId) as [F|] eqn:HF; [|done].
  destruct (decide (Folder.userId F = uid)) as [Hu|Hu];
    [rewrite (bool_decide_eq_true_2 _ Hu)
    |rewrite (bool_decide_eq_false_2 _ Hu)]; simpl; [|done].
  destruct (match given_name updates with Some _ => _ | None => _ end);
    simpl; [done|].
  exists uid, F. repeat split; try done. f_equal.
  apply map_eq. intros y. rewrite lookup_alter, lookup_insert.
  case_decide; [subst; by rewrite HF|done].
Qed.

(** X13. [updateFolder] without a [noteIds] key keeps a consistent store
    consistent, whether it returns or throws; when it returns, the folder
    has the time of the call as [updatedAt], its owner, id, creation time
    and [noteIds] are the stored ones, and a given non-empty name is
    stored trimmed. *)
Theorem updateFolder_keeps_consistency
    (user : option string) (folderId : string) (updates : FolderUpdates)
    (now : Z) (s : db) :
  consistent s →
  fu_noteIds updates = None →
  let r := updateFolder user folderId updates now s in
  consistent r.2
  ∧ (∀ u, r.1 = Ok u →
       ∃ F F', folders s !! folderId = Some F
               ∧ folders r.2 !! folderId = Some F'
               ∧ Folder.updatedAt F' = now
               ∧ Folder.userId F' = Folder.userId F
               ∧ Folder.id F' = Folder.id F
               ∧ Folder.createdAt F' = Folder.createdAt F
               ∧ Folder.noteIds F' = Folder.noteIds F
               ∧ ∀ name, given_name updates = Some name →
                   Folder.name F' = trim name).
Proof.
  intros Hcons Hids r.
  pose proof (updateFolder_effect user folderId updates now s) as Heff.
  cbv zeta in Heff. fold r in Heff.
  destruct r.1 as [u|e] eqn:Hres.
  - destruct Heff as (uid & F & -> & HF & Hu & Hfin). rewrite Hfin. split.
    + eapply folder_fields_consistent; [| |exact Hcons]; [done|].
      intros y. simpl. rewrite lookup_insert.
      case_decide.
      * subst y. rewrite HF. simpl. by rewrite Hids.
      * by apply folder_rel_refl.
    + intros _ _. exists F, (apply_updateData updates now F). simpl.
      rewrite lookup_insert_eq. repeat split; try done.
      * by rewrite Hids.
      * intros name Hname. unfold given_name in Hname.
        destruct (fu_name updates) as [nm|]; [|done].
        destruct (str_truthy nm); by simplify_eq.
  - rewrite Heff. split; [done|]. intros u Hu. done.
Qed.

Lemma updateFolder_keeps_consistency_witness :
  let r := updateFolder (Some "A") "F1" (mkfupd (Some " Home ") None None)
             50 store1 in
  consistent r.2
  ∧ (∀ u, r.1 = Ok u →
       ∃ F F', folders store1 !! "F1" = Some F
               ∧ folders r.2 !! "F1" = Some F'
               ∧ Folder.updatedAt F' = 50
               ∧ Folder.userId F' = Folder.userId F
               ∧ Folder.id F' = Folder.id F
               ∧ Folder.createdAt F' = Folder.createdAt F
               ∧ Folder.noteIds F' = Folder.noteIds F
               ∧ ∀ name, given_name (mkfupd (Some " Home ") None None)
                         = Some name →
                   Folder.name F' = trim name).
Proof.
  apply (updateFolder_keeps_consistency (Some "A") "F1"
           (mkfupd (Some " Home ") None None) 50 store1).
  - exact store1_consistent.
  - reflexivity.
Defined.



(** ** updateUserRole *)

(** X15. A caller whose stored role is not 'root_admin' gets no role
    changed: whenever [updateUserRole] reaches its write, the rules refuse
    that write. *)
Theorem updateUserRole_needs_root_admin
    (u : AppUser.t) (userId role : string) (s : db) :
  Rules.role_val s (AppUser.uid u) ≠ JStr "root_admin" →
  (updateUserRole (Some u) userId role s).1 = Ok tt →
  Rules.role_write_allowed (Some (AppUser.uid u)) s userId (JStr role)
  = false.
Proof.
  intros Hrole Hok. unfold updateUserRole in Hok.
  destruct (decide (AppUser.uid u = userId)) as [He|Hne];
    [by rewrite (bool_decide_eq_true_2 _ He) in Hok|].
  unfold Rules.role_write_allowed, Rules.users_uid_write,
    Rules.users_uid_role_write, Rules.root_write, strict_eq.
  rewrite (bool_decide_eq_false_2 _ Hne).
  by rewrite (bool_decide_eq_false_2 _ Hrole).
Qed.

Lemma updateUserRole_needs_root_admin_witness :
  Rules.role_write_allowed (Some "M") store5 "B" (JStr "admin") = false.
Proof.
  apply (updateUserRole_needs_root_admin
           (AppUser.mk "M" (Some "admin")) "B" "admin" store5).
  - vm_compute. discriminate.
  - vm_compute. reflexivity.
Defined.



(** ** deleteUser *)

Lemma remove_notes_spec (ids : list string) (s : db) :
  let s' := apply_write (map NoteNull ids) s in
  (∀ k, notes s' !! k = if decide (k ∈ ids) then None else notes s !! k)
  ∧ folders s' = folders s ∧ users s' = users s.
Proof.
  revert s. induction ids as [|i ids IH]; intros s; simpl.
  - split; [|done]. intros k. first [done | by case_decide].
  - destruct (IH (apply_assign (NoteNull i) s)) as (Hn & Hf & Hu).
    unfold apply_write in *. simpl in *.
    split; [|by rewrite Hf, Hu].
    intros k. rewrite Hn. rewrite lookup_delete.
    destruct (decide (k ∈ ids)) as [Hin|Hin].
    + rewrite decide_True; [done|by right].
    + case_decide.
      * subst. rewrite decide_True; [done|by left].
      * rewrite decide_False; [done|].
        intros [->|?]%elem_of_cons; done.
Qed.

Lemma deleteUserFolder_spec (s : db) (f : string) :
  let s' := deleteUserFolder s f in
  users s' = users s
  ∧ (∀ g, folders s' !! g = if decide (g = f) then None else folders s !! g)
  ∧ (∀ k, notes s' !! k
          = match folders s !! f with
            | Some F => if decide (k ∈ Folder.noteIds F) then None
                        else notes s !! k
            | None => notes s !! k
            end).
Proof.
  unfold deleteUserFolder. destruct (folders s !! f) as [F|] eqn:HF.
  - destruct (remove_notes_spec (Folder.noteIds F) s) as (Hn & Hf & Hu).
    simpl in *. split; [done|]. split; [|done].
    intros g. rewrite Hf, lookup_delete. by repeat case_decide.
  - simpl. split; [done|]. split; [|done].
    intros g. case_decide; [by subst|done].
Qed.

(** The folders of the index, one after the other. *)
Lemma deleteUserFolders_spec (ids : list string) (s : db) :
  let s' := foldl deleteUserFolder s ids in
  users s' = users s
  ∧ (∀ g, folders s' !! g = if decide (g ∈ ids) then None else folders s !! g)
  ∧ (∀ k n, notes s' !! k = Some n → notes s !! k = Some n)
  ∧ (∀ k f F, f ∈ ids → folders s !! f = Some F → k ∈ Folder.noteIds F →
       notes s' !! k = None)
  ∧ (∀ k, (∀ f F, f ∈ ids → folders s !! f = Some F →
             k ∉ Folder.noteIds F) →
       notes s' !! k = notes s !! k).
Proof.
  revert s. induction ids as [|i ids IH]; intros s; simpl.
  - split; [done|]. split; [|split; [done|split; [|done]]].
    + intros g. first [done | by case_decide].
    + intros k f F Hin. by apply not_elem_of_nil in Hin.
  - destruct (deleteUserFolder_spec s i) as (Hu1 & Hf1 & Hn1).
    destruct (IH (deleteUserFolder s i)) as (Hu & Hf & Hsub & Hlisted & Hrest).
    simpl in *. split; [by rewrite Hu|]. split; [|split; [|split]].
    + intros g. rewrite Hf, Hf1.
      destruct (decide (g ∈ ids)) as [Hin|Hin].
      * rewrite decide_True; [done|by right].
      * case_decide.
        -- subst. rewrite decide_True; [done|by left].
        -- rewrite decide_False; [done|].
           intros [->|?]%elem_of_cons; done.
    + intros k n Hk. apply Hsub in Hk. rewrite Hn1 in Hk.
      destruct (folders s !! i); [by case_decide|done].
    + intros k f F Hin HF Hk.
      assert (Hgone : notes (deleteUserFolder s i) !! k = None →
                notes (foldl deleteUserFolder (deleteUserFolder s i) ids) !! k
                = None).
      { intros H0.
        destruct (notes (foldl deleteUserFolder (deleteUserFolder s i) ids)
                    !! k) as [n|] eqn:Hn; [|done].
        apply Hsub in Hn. congruence. }
      destruct (decide (f = i)) as [->|Hne].
      * apply Hgone. rewrite Hn1, HF. by rewrite decide_True.
      * apply elem_of_cons in Hin as [?|Hin]; [done|].
        apply (Hlisted k f F Hin); [|done].
        rewrite Hf1. by rewrite decide_False.
    + intros k Hk. rewrite Hrest.
      * rewrite Hn1. destruct (folders s !! i) as [F|] eqn:HF; [|done].
        rewrite decide_False; [done|]. apply (Hk i F); [by left|done].
      * intros f F Hin HF. specialize (Hf1 f). rewrite HF in Hf1.
        case_decide; [done|]. apply (Hk f F); [by right|done].
Qed.

(** What a [deleteUser] that returns has checked and leaves. *)
Lemma deleteUser_spec (currentUser : option string) (userId : string)
    (s : db) :
  let r := deleteUser currentUser userId s in
  match r.1 with
  | Err e => r.2 = s ∧ e ≠ "Cannot delete your own account"
  | Ok _ =>
      ∃ cur, currentUser = Some cur
        ∧ Rules.role_val s cur = JStr "root_admin"
        ∧ cur ≠ userId
        ∧ (∃ U, users s !! userId = Some U
                ∧ User.role U ≠ Some "root_admin")
        ∧ users r.2 = delete userId (users s)
        ∧ (∀ g, folders r.2 !! g
                = if decide (g ∈ folder_index s userId) then None
                  else folders s !! g)
        ∧ (∀ k n, notes r.2 !! k = Some n →
             notes s !! k = Some n ∧ Note.userId n ≠ userId)
        ∧ (∀ k f F, f ∈ folder_index s userId → folders s !! f = Some F →
             k ∈ Folder.noteIds F → notes r.2 !! k = None)
        ∧ (∀ k n, notes s !! k = Some n → Note.userId n ≠ userId →
             (∀ f F, f ∈ folder_index s userId → folders s !! f = Some F →
                k ∉ Folder.noteIds F) →
             notes r.2 !! k = Some n)
  end.
Proof.
  intros r. subst r. unfold deleteUser.
  destruct currentUser as [cur|]; [|done].
  destruct (users s !! cur) as [C|] eqn:HC; [|done].
  destruct (strict_eq (read_field (User.role C)) (JStr "root_admin"))
    eqn:Hroot; simpl; [|done].
  destruct (users s !! userId) as [U|] eqn:HU; [|done].
  destruct (strict_eq (read_field (User.role U)) (JStr "root_admin"))
    eqn:Htarget; simpl; [done|].
  apply bool_decide_eq_true in Hroot.
  apply bool_decide_eq_false in Htarget.
  destruct (decide (userId = cur)) as [He|Hne].
  { exfalso. subst. rewrite HC in HU. injection HU as <-. done. }
  rewrite (bool_decide_eq_false_2 _ Hne). simpl.
  destruct (deleteUserFolders_spec (User.folders U) s)
    as (Hu1 & Hf1 & Hsub & Hlisted & Hrest). simpl in *.
  set (s1 := foldl deleteUserFolder s (User.folders U)) in *.
  destruct (remove_notes_spec (notes_query s1 userId).*1 s1)
    as (Hn2 & Hf2 & Hu2). simpl in *.
  assert (Hidx : folder_index s userId = User.folders U).
  { unfold folder_index. by rewrite HU. }
  rewrite Hidx.
  assert (Hq : ∀ k n, notes s1 !! k = Some n →
            (k ∈ (notes_query s1 userId).*1 ↔ Note.userId n = userId)).
  { intros k n Hk. rewrite list_elem_of_fmap. split.
    - intros ([k' n'] & -> & Hin). apply notes_query_elem in Hin as [Hin Ho].
      simpl in *. congruence.
    - intros Ho. exists (k, n). split; [done|].
      by apply notes_query_elem. }
  exists cur. split; [done|]. split.
  { unfold Rules.role_val. rewrite HC.
    destruct (User.role C); simpl in *; congruence. }
  split; [done|]. split.
  { exists U. split; [done|]. intros Hr. rewrite Hr in Htarget. done. }
  split; [by rewrite Hu2, Hu1|]. split; [intros g; by rewrite Hf2|].
  split; [|split].
  - intros k n Hk. rewrite Hn2 in Hk.
    destruct (decide (k ∈ (notes_query s1 userId).*1)) as [Hin|Hin];
      [done|].
    split; [by apply Hsub|]. intros Ho. apply Hin. by apply (Hq k n).
  - intros k f F Hin HF Hk. rewrite Hn2. case_decide; [done|].
    by apply (Hlisted k f F).
  - intros k n Hk Ho Hfree. rewrite Hn2.
    assert (Hk1 : notes s1 !! k = Some n) by (by rewrite Hrest).
    rewrite decide_False; [done|]. intros Hin. by apply (Hq k n) in Hin.
Qed.

Lemma store6_index_exact : index_exact store6 "A".
Proof.
  intros f F HF. unfold store6, store1 in HF. simpl in HF.
  rewrite lookup_insert in HF. case_decide.
  - subst f. injection HF as <-. split; [done|intros _].
    vm_compute. by left.
  - apply lookup_singleton_Some in HF as [<- <-]. split; [done|intros _].
    vm_compute. right. by left.
Qed.

Lemma store6_consistent : consistent store6.
Proof. exact store1_consistent. Qed.

(** X17. [deleteUser] never throws 'Cannot delete your own account': a
    caller who passes the check of the role is a root administrator, so
    the caller's own uid is refused as another root administrator; and a
    call that throws has removed nothing. *)
Theorem deleteUser_own_account_unreachable
    (currentUser : option string) (userId e : string) (s : db) :
  (deleteUser currentUser userId s).1 = Err e →
  e ≠ "Cannot delete your own account"
  ∧ (deleteUser currentUser userId s).2 = s.
Proof.
  intros He. pose proof (deleteUser_spec currentUser userId s) as Hspec.
  cbv zeta in Hspec. rewrite He in Hspec. tauto.
Qed.

Lemma deleteUser_own_account_unreachable_witness :
  "Cannot delete another root admin" ≠ "Cannot delete your own account"
  ∧ (deleteUser (Some "R") "R" store3).2 = store3.
Proof.
  apply (deleteUser_own_account_unreachable (Some "R") "R"
           "Cannot delete another root admin" store3).
  vm_compute. reflexivity.
Defined.

(** X18. A [deleteUser] that returns: the caller's stored role is
    'root_admin', the target is another user and not a root
    administrator; afterwards the target's record is gone and no other
    user record has changed, the folders of the target's index are gone
    and no other folder has changed, every note listed in a folder of the
    index is gone whoever owns it, and the notes that remain are notes of
    the old store that do not belong to the target. *)
Theorem deleteUser_removes (cur userId : string) (s : db) :
  let r := deleteUser (Some cur) userId s in
  r.1 = Ok tt →
  Rules.role_val s cur = JStr "root_admin"
  ∧ cur ≠ userId
  ∧ Rules.role_val s userId ≠ JStr "root_admin"
  ∧ users r.2 !! userId = None
  ∧ (∀ v, v ≠ userId → users r.2 !! v = users s !! v)
  ∧ (∀ f, f ∈ folder_index s userId → folders r.2 !! f = None)
  ∧ (∀ f, f ∉ folder_index s userId → folders r.2 !! f = folders s !! f)
  ∧ (∀ k f F, f ∈ folder_index s userId → folders s !! f = Some F →
       k ∈ Folder.noteIds F → notes r.2 !! k = None)
  ∧ (∀ k n, notes r.2 !! k = Some n →
       notes s !! k = Some n ∧ Note.userId n ≠ userId).
Proof.
  intros r Hok. subst r.
  pose proof (deleteUser_spec (Some cur) userId s) as Hspec.
  cbv zeta in Hspec. rewrite Hok in Hspec.
  destruct Hspec as (c & [= <-] & Hroot & Hne & (U & HU & HUr) & Hu & Hf
                     & Hn & Hlisted & _).
  split; [done|]. split; [done|]. split.
  { unfold Rules.role_val. rewrite HU.
    destruct (User.role U); congruence. }
  split; [by rewrite Hu, lookup_delete_eq|].
  split; [intros v Hv; by rewrite Hu, lookup_delete_ne|].
  split; [intros f Hin; by rewrite Hf, decide_True|].
  split; [intros f Hin; by rewrite Hf, decide_False|].
  done.
Qed.

Lemma deleteUser_removes_witness :
  let r := deleteUser (Some "R") "A" store6 in
  Rules.role_val store6 "R" = JStr "root_admin"
  ∧ "R" ≠ "A"
  ∧ Rules.role_val store6 "A" ≠ JStr "root_admin"
  ∧ users r.2 !! "A" = None
  ∧ (∀ v, v ≠ "A" → users r.2 !! v = users store6 !! v)
  ∧ (∀ f, f ∈ folder_index store6 "A" → folders r.2 !! f = None)
  ∧ (∀ f, f ∉ folder_index store6 "A" →
       folders r.2 !! f = folders store6 !! f)
  ∧ (∀ k f F, f ∈ folder_index store6 "A" →
       folders store6 !! f = Some F →
       k ∈ Folder.noteIds F → notes r.2 !! k = None)
  ∧ (∀ k n, notes r.2 !! k = Some n →
       notes store6 !! k = Some n ∧ Note.userId n ≠ "A").
Proof.
  apply (deleteUser_removes "R" "A" store6). vm_compute. reflexivity.
Defined.

(** X19. On a consistent store in which the target's index lists exactly
    the folders the target owns, a [deleteUser] that returns leaves a
    consistent store that holds no folder of the target, and every note
    and every folder of the other users is kept as it was. *)
Theorem deleteUser_keeps_consistency (cur userId : string) (s : db) :
  consistent s →
  index_exact s userId →
  let r := deleteUser (Some cur) userId s in
  r.1 = Ok tt →
  consistent r.2
  ∧ (∀ f F, folders r.2 !! f = Some F → Folder.userId F ≠ userId)
  ∧ (∀ k n, notes s !! k = Some n → Note.userId n ≠ userId →
       notes r.2 !! k = Some n)
  ∧ (∀ f F, folders s !! f = Some F → Folder.userId F ≠ userId →
       folders r.2 !! f = Some F).
Proof.
  intros (Hkeys & Hown & Hfiled & Hbacked) Hidx r Hok. subst r.
  pose proof (deleteUser_spec (Some cur) userId s) as Hspec.
  cbv zeta in Hspec. rewrite Hok in Hspec.
  destruct Hspec as (c & _ & _ & _ & _ & _ & Hf & Hn & _ & Hkeep).
  set (s' := (deleteUser (Some cur) userId s).2) in *.
  assert (Hfsub : ∀ f F, folders s' !! f = Some F →
            folders s !! f = Some F ∧ f ∉ folder_index s userId).
  { intros f F HF. rewrite Hf in HF. by case_decide. }
  assert (Hfkeep : ∀ f F, folders s !! f = Some F →
            Folder.userId F ≠ userId → folders s' !! f = Some F).
  { intros f F HF Ho. rewrite Hf, decide_False; [done|].
    intros Hin. by apply (Hidx f F HF) in Hin. }
  assert (Hnkeep : ∀ k n, notes s !! k = Some n → Note.userId n ≠ userId →
            notes s' !! k = Some n).
  { intros k n Hk Ho. apply Hkeep; [done|done|].
    intros f F Hin HF Hl.
    destruct (Hbacked f F k HF Hl) as (n' & Hk' & Hfid).
    rewrite Hk in Hk'. injection Hk' as <-.
    apply Ho. rewrite <- (Hown k n f F Hk Hfid HF).
    by apply (Hidx f F HF). }
  split; [|split; [|done]].
  - split; [|split; [|split]].
    + unfold keys_nonempty in *. rewrite Hf, Hkeys. by case_decide.
    + intros k n f F Hk Hfid HF.
      apply Hn in Hk as [Hk _]. apply Hfsub in HF as [HF _].
      by eapply Hown.
    + intros k n f Hk Hfid. apply Hn in Hk as [Hk Ho].
      destruct (Hfiled k n f Hk Hfid) as (F & HF & Hin).
      exists F. split; [|done]. apply Hfkeep; [done|].
      by rewrite (Hown k n f F Hk Hfid HF).
    + intros f F k HF Hin. apply Hfsub in HF as [HF Hout].
      destruct (Hbacked f F k HF Hin) as (n & Hk & Hfid).
      exists n. split; [|done]. apply Hnkeep; [done|].
      rewrite <- (Hown k n f F Hk Hfid HF).
      intros Ho. apply Hout. by apply (Hidx f F HF).
  - intros f F HF Ho. apply Hfsub in HF as [HF Hout].
    apply Hout. by apply (Hidx f F HF).
Qed.

Lemma deleteUser_keeps_consistency_witness :
  let r := deleteUser (Some "R") "A" store6 in
  consistent r.2
  ∧ (∀ f F, folders r.2 !! f = Some F → Folder.userId F ≠ "A")
  ∧ (∀ k n, notes store6 !! k = Some n → Note.userId n ≠ "A" →
       notes r.2 !! k = Some n)
  ∧ (∀ f F, folders store6 !! f = Some F → Folder.userId F ≠ "A" →
       folders r.2 !! f = Some F).
Proof.
  apply (deleteUser_keeps_consistency "R" "A" store6).
  - exact store6_consistent.
  - exact store6_index_exact.
  - vm_compute. reflexivity.
Defined.

(** ** The folder name in the URL *)

Lemma isUrlChar_lower (c : ascii) : isUrlChar c = true → lowerChar c = c.
Proof.
  destruct c as [[] [] [] [] [] [] [] []]; vm_compute; congruence.
Qed.

Lemma isUrlChar_dash (c : ascii) : isDash c = true → isUrlChar c = true.
Proof.
  destruct c as [[] [] [] [] [] [] [] []]; vm_compute; congruence.
Qed.

Lemma replaceOthers_all (s : string) :
  allChars isUrlChar (replaceOthers s) = true.
Proof.
  induction s as [|c r IH]; [done|]. simpl. rewrite IH.
  by destruct (isUrlChar c) eqn:Hc; [rewrite Hc|].
Qed.

Lemma collapseDashes_all (p : ascii → bool) (s : string) :
  allChars p s = true → allChars p (collapseDashes s) = true.
Proof.
  induction s as [|c r IH]; [done|]. simpl.
  intros [Hc Hr]%andb_true_iff.
  destruct (isDash c && startsWithDash (collapseDashes r)); [by apply IH|].
  simpl. by rewrite Hc, IH.
Qed.

Lemma collapseDashes_single (s : string) :
  hasDoubleDash (collapseDashes s) = false.
Proof.
  induction s as [|c r IH]; [done|]. simpl.
  destruct (isDash c && startsWithDash (collapseDashes r)) eqn:Hd; [done|].
  simpl. by rewrite Hd, IH.
Qed.

Lemma dropDashesStart_all (p : ascii → bool) (s : string) :
  allChars p s = true → allChars p (dropDashesStart s) = true.
Proof.
  induction s as [|c r IH]; [done|]. simpl.
  intros [Hc Hr]%andb_true_iff.
  destruct (isDash c); [by apply IH|]. simpl. by rewrite Hc, Hr.
Qed.

Lemma dropDashesStart_single (s : string) :
  hasDoubleDash s = false → hasDoubleDash (dropDashesStart s) = false.
Proof.
  induction s as [|c r IH]; [done|]. simpl.
  intros [Hc Hr]%orb_false_iff.
  destruct (isDash c) eqn:Hd; [by apply IH|]. simpl. by rewrite Hd, Hr.
Qed.

Lemma dropDashesStart_start (s : string) :
  startsWithDash (dropDashesStart s) = false.
Proof.
  induction s as [|c r IH]; [done|]. simpl.
  by destruct (isDash c) eqn:Hd.
Qed.

Lemma dropDashesEnd_all (p : ascii → bool) (s : string) :
  allChars p s = true → allChars p (dropDashesEnd s) = true.
Proof.
  induction s as [|c r IH]; [done|]. simpl.
  intros [Hc Hr]%andb_true_iff.
  destruct (isDash c && isEmpty (dropDashesEnd r)); [done|].
  simpl. by rewrite Hc, IH.
Qed.

Lemma dropDashesEnd_start (s : string) :
  startsWithDash s = false → startsWithDash (dropDashesEnd s) = false.
Proof.
  destruct s as [|c r]; [done|]. simpl. intros Hc. by rewrite Hc.
Qed.

Lemma dropDashesEnd_start_inv (s : string) :
  startsWithDash (dropDashesEnd s) = true → startsWithDash s = true.
Proof.
  destruct s as [|c r]; [done|]. simpl.
  by destruct (isDash c && isEmpty (dropDashesEnd r)).
Qed.

Lemma dropDashesEnd_single (s : string) :
  hasDoubleDash s = false → hasDoubleDash (dropDashesEnd s) = false.
Proof.
  induction s as [|c r IH]; [done|]. simpl.
  intros [Hc Hr]%orb_false_iff.
  destruct (isDash c && isEmpty (dropDashesEnd r)); [done|].
  simpl. rewrite (IH Hr), orb_false_r.
  destruct (isDash c); [|done]. simpl in *.
  destruct (startsWithDash (dropDashesEnd r)) eqn:Hs; [|done].
  apply dropDashesEnd_start_inv in Hs. congruence.
Qed.

Lemma dropDashesEnd_end (s : string) :
  endsWithDash (dropDashesEnd s) = false.
Proof.
  induction s as [|c r IH]; [done|]. simpl.
  destruct (isDash c && isEmpty (dropDashesEnd r)) eqn:Hd; [done|].
  simpl. destruct (isEmpty (dropDashesEnd r)) eqn:He; [|done].
  by rewrite andb_true_r in Hd.
Qed.

(** Strings of the shape are left as they are by every step. *)
Lemma toLowerCase_url (s : string) :
  allChars isUrlChar s = true → toLowerCase s = s.
Proof.
  induction s as [|c r IH]; [done|]. simpl.
  intros [Hc Hr]%andb_true_iff. by rewrite isUrlChar_lower, IH.
Qed.

Lemma replaceOthers_url (s : string) :
  allChars isUrlChar s = true → replaceOthers s = s.
Proof.
  induction s as [|c r IH]; [done|]. simpl.
  intros [Hc Hr]%andb_true_iff. by rewrite Hc, IH.
Qed.

Lemma collapseDashes_id (s : string) :
  hasDoubleDash s = false → collapseDashes s = s.
Proof.
  induction s as [|c r IH]; [done|]. simpl.
  intros [Hc Hr]%orb_false_iff. by rewrite (IH Hr), Hc.
Qed.

Lemma dropDashesStart_id (s : string) :
  startsWithDash s = false → dropDashesStart s = s.
Proof. destruct s as [|c r]; [done|]. simpl. by intros ->. Qed.

Lemma dropDashesEnd_id (s : string) :
  endsWithDash s = false → dropDashesEnd s = s.
Proof.
  induction s as [|c r IH]; [done|]. simpl. intros He.
  destruct r as [|c' r'].
  - simpl in *. by rewrite He.
  - rewrite (IH He). simpl. by rewrite andb_false_r.
Qed.

Lemma folderUrlName_shape (name : string) :
  allChars isUrlChar (folderUrlName name) = true
  ∧ startsWithDash (folderUrlName name) = false
  ∧ endsWithDash (folderUrlName name) = false
  ∧ hasDoubleDash (folderUrlName name) = false.
Proof.
  unfold folderUrlName. split; [|split; [|split]].
  - apply dropDashesEnd_all, dropDashesStart_all, collapseDashes_all,
      replaceOthers_all.
  - apply dropDashesEnd_start, dropDashesStart_start.
  - apply dropDashesEnd_end.
  - apply dropDashesEnd_single, dropDashesStart_single,
      collapseDashes_single.
Qed.

(** X20. The URL name of a folder consists of lower-case letters, digits
    and dashes, neither starts nor ends with a dash and has no two dashes
    in a row; computing it again from a URL name gives the same string. *)
Theorem folderUrlName_normal (name : string) :
  allChars isUrlChar (folderUrlName name) = true
  ∧ startsWithDash (folderUrlName name) = false
  ∧ endsWithDash (folderUrlName name) = false
  ∧ hasDoubleDash (folderUrlName name) = false
  ∧ folderUrlName (folderUrlName name) = folderUrlName name.
Proof.
  destruct (folderUrlName_shape name) as (Hall & Hs & He & Hd).
  repeat (split; [done|]).
  unfold folderUrlName at 1.
  by rewrite toLowerCase_url, replaceOthers_url, collapseDashes_id,
    dropDashesStart_id, dropDashesEnd_id.
Qed.



(** ** The list of notes the page shows *)

Lemma comparePage_order (sortBy : string)
    (cmp : NoteWithId → NoteWithId → Z) :
  comparePage sortBy = Some cmp →
  (∀ a b, cmp a b ≤ 0 ∨ cmp b a ≤ 0)
  ∧ (∀ a b c, cmp a b ≤ 0 → cmp b c ≤ 0 → cmp a c ≤ 0).
Proof.
  unfold comparePage. intros H.
  repeat case_bool_decide; simplify_eq; split; intros; lia.
Qed.

(** The notes [filteredNotes] keeps. *)
Lemma filteredNotes_elem (notes : list NoteWithId)
    (currentFolder : option Folder.t) (searchQuery sortBy : string)
    (note : NoteWithId) :
  note ∈ filteredNotes notes currentFolder searchQuery sortBy ↔
    note ∈ notes
    ∧ (∀ folder, currentFolder = Some folder →
         Note.folderId note.2 = Some (Folder.id folder))
    ∧ (searchQuery ≠ "" →
         strIncludes (toLowerCase (Note.title note.2))
                     (toLowerCase searchQuery) = true
         ∨ strIncludes (toLowerCase (Note.content note.2))
                       (toLowerCase searchQuery) = true).
Proof.
  unfold filteredNotes.
  set (byFolder := match currentFolder with Some _ => _ | None => _ end).
  set (byQuery := if str_truthy searchQuery then _ else _).
  assert (Hf : note ∈ byFolder ↔
     note ∈ notes
     ∧ (∀ folder, currentFolder = Some folder →
          Note.folderId note.2 = Some (Folder.id folder))).
  { subst byFolder. destruct currentFolder as [folder|].
    - rewrite list_elem_of_filter. split.
      + intros [Hfid Hin]. split; [done|]. intros ? [= <-].
        destruct (Note.folderId note.2); simpl in Hfid; congruence.
      + intros [Hin Hfid]. split; [|done].
        by rewrite (Hfid folder eq_refl).
    - split; [intros Hin; split; [done|done]|tauto]. }
  assert (Hq : note ∈ byQuery ↔
     note ∈ byFolder
     ∧ (searchQuery ≠ "" →
          strIncludes (toLowerCase (Note.title note.2))
                      (toLowerCase searchQuery) = true
          ∨ strIncludes (toLowerCase (Note.content note.2))
                        (toLowerCase searchQuery) = true)).
  { subst byQuery. destruct searchQuery as [|c q]; simpl.
    - split; [intros ?; split; [done|done]|tauto].
    - rewrite list_elem_of_filter. unfold matchesQuery.
      rewrite orb_true_iff. split.
      + intros [Hq ?]. by split.
      + intros [? Hq]. split; [by apply Hq|done]. }
  assert (Hr : note ∈ match comparePage sortBy with
                      | Some cmp => js_sort cmp byQuery
                      | None => byQuery
                      end ↔ note ∈ byQuery).
  { destruct (comparePage sortBy) as [cmp|]; [|done].
    by rewrite js_sort_perm. }
  rewrite Hr, Hq, Hf. tauto.
Qed.

(** X22. [filteredNotes] shows exactly the notes of the list it is given
    that are filed in the current folder, when there is one, and whose
    title or content contains the search text, when there is one, up to
    case; for a sort option of the menu they are ordered by it. *)
Theorem filteredNotes_shows (notes : list NoteWithId)
    (currentFolder : option Folder.t) (searchQuery sortBy : string) :
  let r := filteredNotes notes currentFolder searchQuery sortBy in
  (∀ note, note ∈ r ↔
     note ∈ notes
     ∧ (∀ folder, currentFolder = Some folder →
          Note.folderId note.2 = Some (Folder.id folder))
     ∧ (searchQuery ≠ "" →
          strIncludes (toLowerCase (Note.title note.2))
                      (toLowerCase searchQuery) = true
          ∨ strIncludes (toLowerCase (Note.content note.2))
                        (toLowerCase searchQuery) = true))
  ∧ (sortBy = "newest" →
       StronglySorted (λ a b, Note.updatedAt b.2 ≤ Note.updatedAt a.2) r)
  ∧ (sortBy = "oldest" →
       StronglySorted (λ a b, Note.updatedAt a.2 ≤ Note.updatedAt b.2) r)
  ∧ (sortBy = "longest" →
       StronglySorted
         (λ a b, Note.contentLength b.2 ≤ Note.contentLength a.2) r)
  ∧ (sortBy = "shortest" →
       StronglySorted
         (λ a b, Note.contentLength a.2 ≤ Note.contentLength b.2) r).
Proof.
  intros r. split; [intros note; apply filteredNotes_elem|].
  subst r. unfold filteredNotes.
  set (byFolder := match currentFolder with Some _ => _ | None => _ end).
  set (byQuery := if str_truthy searchQuery then _ else _).
  assert (Hsorted : ∀ cmp, comparePage sortBy = Some cmp →
            StronglySorted (λ a b, cmp a b ≤ 0) (js_sort cmp byQuery)).
  { intros cmp Hcmp. destruct (comparePage_order sortBy cmp Hcmp).
    by apply js_sort_sorted. }
  unfold comparePage in *.
  repeat split; intros ->; simpl in *;
    (eapply StronglySorted_weaken; [|by apply Hsorted]);
    intros a b; simpl; rewrite !num_or_0; lia.
Qed.

(** X23. On a consistent store, with a folder of the user selected and no
    search text, the page shows exactly the notes filed in that folder:
    its own filter by [folderId] drops none of the notes the hook lists
    from the folder's [noteIds]. *)
Theorem page_notes_of_folder
    (s : db) (uid f : string) (F : Folder.t) (sortBy : string)
    (k : string) (n : Note.t) :
  consistent s →
  folders s !! f = Some F →
  Folder.userId F = uid →
  Folder.id F = f →
  f ≠ "all" →
  (k, n) ∈ page_notes s uid (Some F) "" sortBy
  ↔ notes s !! k = Some n ∧ Note.folderId n = Some f.
Proof.
  intros Hcons HF Hu Hid Hall.
  assert (Hf : str_truthy f = true).
  { apply str_truthy_ne. intros ->. destruct Hcons as [Hkeys _].
    unfold keys_nonempty in Hkeys. congruence. }
  unfold page_notes. rewrite filteredNotes_elem.
  unfold sortNotes. rewrite js_sort_perm.
  rewrite Hid. unfold or_null. simpl. rewrite Hf.
  rewrite (notes_view_folder_elem s uid f F k n Hcons HF Hu Hall).
  split.
  - tauto.
  - intros [Hk Hfid]. split; [done|]. split; [|done].
    intros ? [= <-]. by rewrite Hid.
Qed.

Lemma page_notes_of_folder_witness :
  ("N1", noteN1) ∈ page_notes store1 "A" (Some folderF1) "" "longest"
  ↔ notes store1 !! "N1" = Some noteN1 ∧ Note.folderId noteN1 = Some "F1".
Proof.
  apply (page_notes_of_folder store1 "A" "F1" folderF1 "longest" "N1" noteN1).
  - exact store1_consistent.
  - vm_compute. reflexivity.
  - reflexivity.
  - reflexivity.
  - discriminate.
Defined.
